(** * Processing pipeline of the interview assistant

    A shallow embedding of [electron/ProcessingHelper.ts], of the two
    provider adapters ([electron/models/OpenAIAdapter.ts],
    [electron/models/ClaudeAdapter.ts]), of [ModelFactory.ts], of the
    configuration store [ConfigHelper.ts] and of the handlers of
    [electron/ipcHandlers.ts] that work on the store and on the processing
    helper.

    JavaScript strings are sequences of UTF-16 code units, so a string is a
    [list N] here; regular expressions are interpreted by a backtracking
    matcher that follows the ECMAScript pattern semantics for the
    constructs that occur in the source. *)

From Stdlib Require Import NArith Arith Bool Lia Ascii String QArith_base.
From stdpp Require Import gmap strings list fin_maps.

Set Default Proof Using "Type".
Local Open Scope N_scope.
Local Open Scope nat_scope.
Local Open Scope list_scope.

(** ** JavaScript strings *)

Module JS.

Definition char := N.
Definition str := list N.

(** An ASCII literal of the source as a sequence of code units. *)
Definition lit (s : string) : str :=
  List.map Ascii.N_of_ascii (String.list_ascii_of_string s).

Definition nl : char := 10%N.
Definition quote : char := 34%N.
Definition backtick : char := 96%N.
Definition bullet : char := 8226%N.

Definition char_eqb (a b : char) : bool := N.eqb a b.

Fixpoint eqb (a b : str) : bool :=
  match a, b with
  | [], [] => true
  | x :: a', y :: b' => char_eqb x y && eqb a' b'
  | _, _ => false
  end.

(** WhiteSpace and LineTerminator code units: what [\s] matches and what
    [String.prototype.trim] strips. *)
Definition is_space (c : char) : bool :=
  ((9 <=? c) && (c <=? 13))%N
  || N.eqb c 32 || N.eqb c 160 || N.eqb c 5760
  || ((8192 <=? c) && (c <=? 8202))%N
  || N.eqb c 8232 || N.eqb c 8233 || N.eqb c 8239 || N.eqb c 8287
  || N.eqb c 12288 || N.eqb c 65279.

Definition is_line_terminator (c : char) : bool :=
  N.eqb c 10 || N.eqb c 13 || N.eqb c 8232 || N.eqb c 8233.

Definition is_digit (c : char) : bool := ((48 <=? c) && (c <=? 57))%N.
Definition is_upper (c : char) : bool := ((65 <=? c) && (c <=? 90))%N.
Definition is_lower (c : char) : bool := ((97 <=? c) && (c <=? 122))%N.
Definition is_alpha (c : char) : bool := is_upper c || is_lower c.
(** [\w] *)
Definition is_word (c : char) : bool :=
  is_alpha c || is_digit c || N.eqb c 95.

(** Canonicalize of the [i] flag without the [u] flag: a code unit outside
    ASCII never canonicalises to an ASCII one, so for the ASCII patterns of
    the source only the letters a-z are folded. *)
Definition canon (c : char) : char :=
  if is_lower c then (c - 32)%N else c.

Fixpoint trim_start (s : str) : str :=
  match s with
  | c :: t => if is_space c then trim_start t else s
  | [] => []
  end.

Definition trim_end (s : str) : str := rev (trim_start (rev s)).

Definition trim (s : str) : str := trim_end (trim_start s).

Fixpoint starts_with (p s : str) : bool :=
  match p, s with
  | [], _ => true
  | x :: p', y :: s' => char_eqb x y && starts_with p' s'
  | _ :: _, [] => false
  end.

(** [s.includes(p)] *)
Fixpoint includes (p s : str) : bool :=
  starts_with p s ||
  match s with
  | [] => false
  | _ :: t => includes p t
  end.

(** [s.replace(p, '')] for a string pattern: the first occurrence goes. *)
Fixpoint remove_first (p s : str) : str :=
  if starts_with p s then skipn (length p) s
  else match s with
       | [] => []
       | c :: t => c :: remove_first p t
       end.

(** [s.split(sep)] for a non-empty separator: [skip] counts the code units
    of a separator that was just recognised and is being passed over, [cur]
    holds the piece under construction, reversed. *)
Fixpoint split_go (sep : str) (skip : nat) (cur : str) (s : str) : list str :=
  match s with
  | [] => [rev cur]
  | c :: t =>
      match skip with
      | S k => split_go sep k cur t
      | O =>
          if starts_with sep s
          then rev cur :: split_go sep (length sep - 1) [] t
          else split_go sep 0 (c :: cur) t
      end
  end.

Definition split (sep s : str) : list str := split_go sep 0 [] s.

(** [xs.join(sep)] *)
Fixpoint join (sep : str) (xs : list str) : str :=
  match xs with
  | [] => []
  | [x] => x
  | x :: rest => x ++ sep ++ join sep rest
  end.

(** Truthiness of a string: [Boolean(s)]. *)
Definition truthy (s : str) : bool :=
  match s with [] => false | _ => true end.

(** [xs.filter(Boolean)] *)
Definition filter_truthy (xs : list str) : list str := List.filter truthy xs.

(** [a || b] on strings. *)
Definition or_else (a b : str) : str := if truthy a then a else b.

(** [xs.slice(0, n)] *)
Definition slice0 {A} (n : nat) (xs : list A) : list A := firstn n xs.

End JS.

(** ** Regular expressions *)

Module Regex.

Import JS.

(** The pattern constructs that the source uses.  A character atom is a
    predicate on code units; the [i] flag is applied when the atom is
    built. *)
Inductive re : Type :=
| Cls (p : char -> bool)
| Emp
| Seq (a b : re)
| Alt (a b : re)
| Star (greedy : bool) (a : re)
| Grp (i : nat) (a : re)
| Look (a : re)
| Bol
| Eol.

(** Matcher state: [pos] code units have been consumed, [rest] is what
    remains of the input, [caps] records the capture groups closed so far
    (newest first). *)
Record mstate := MState {
  pos : nat;
  rest : str;
  caps : list (nat * str)
}.

(** One quantified atom: [step] matches the atom once.  An iteration that
    consumes nothing is rejected, as RepeatMatcher does, so the number of
    iterations is bounded by the length of the input and [fuel] never runs
    out when it starts above that length.  A greedy star tries one more
    iteration before the continuation, a lazy one the continuation first. *)
Section StarLoop.

Variable step : mstate -> (mstate -> option mstate) -> option mstate.
Variable greedy : bool.
Variable k : mstate -> option mstate.

Fixpoint star_loop (fuel : nat) (s : mstate) : option mstate :=
  match fuel with
  | O => k s
  | S fuel' =>
      if greedy then
        match step s (fun s' =>
                if pos s <? pos s' then star_loop fuel' s' else None) with
        | Some x => Some x
        | None => k s
        end
      else
        match k s with
        | Some x => Some x
        | None =>
            step s (fun s' =>
              if pos s <? pos s' then star_loop fuel' s' else None)
        end
  end.

End StarLoop.

(** Backtracking matcher in continuation-passing style: [run r s k] matches
    [r] at [s] and hands the state after the match to [k]; when [k] fails
    the next alternative of [r] is tried. *)
Fixpoint run (r : re) (s : mstate) (k : mstate -> option mstate)
  : option mstate :=
  match r with
  | Cls p =>
      match rest s with
      | c :: t => if p c then k (MState (S (pos s)) t (caps s)) else None
      | [] => None
      end
  | Emp => k s
  | Seq a b => run a s (fun s' => run b s' k)
  | Alt a b =>
      match run a s k with
      | Some x => Some x
      | None => run b s k
      end
  | Star g a => star_loop (run a) g k (S (length (rest s))) s
  | Grp i a =>
      run a s (fun s' =>
        k (MState (pos s') (rest s')
             ((i, firstn (pos s' - pos s) (rest s)) :: caps s')))
  | Look a =>
      match run a s Some with
      | Some s' => k (MState (pos s) (rest s) (caps s'))
      | None => None
      end
  | Bol => if Nat.eqb (pos s) 0 then k s else None
  | Eol =>
      match rest s with
      | [] => k s
      | _ :: _ => None
      end
  end.

(** Result of RegExpBuiltinExec: where the match starts, the matched text,
    the captures and the input after the match. *)
Record mresult := MResult {
  m_index : nat;
  m_text : str;
  m_caps : list (nat * str);
  m_after : str
}.

(** Try the pattern at [p], then at every later position. *)
Fixpoint exec_from (r : re) (p : nat) (s : str) : option mresult :=
  match run r (MState p s []) Some with
  | Some e => Some (MResult p (firstn (pos e - p) s) (caps e) (rest e))
  | None =>
      match s with
      | [] => None
      | _ :: t => exec_from r (S p) t
      end
  end.

(** [s.match(r)] for a pattern without the [g] flag. *)
Definition exec (r : re) (s : str) : option mresult := exec_from r 0 s.

Fixpoint assoc (i : nat) (l : list (nat * str)) : option str :=
  match l with
  | [] => None
  | (j, v) :: t => if Nat.eqb i j then Some v else assoc i t
  end.

(** [m[i]]: [None] is [undefined]. *)
Definition group (i : nat) (m : mresult) : option str := assoc i (m_caps m).

(** [m[1]] where an unset or empty capture is falsy; the empty string
    stands for both. *)
Definition group1 (m : mresult) : str :=
  match group 1 m with Some v => v | None => [] end.

(** [s.match(r)] for a pattern with the [g] flag: the matched texts in
    order; the empty list stands for [null]. *)
Fixpoint match_all_from (fuel : nat) (r : re) (p : nat) (s : str)
  : list str :=
  match fuel with
  | O => []
  | S fuel' =>
      match exec_from r p s with
      | None => []
      | Some m =>
          let e := m_index m + length (m_text m) in
          m_text m ::
            match m_text m with
            | [] =>
                match m_after m with
                | [] => []
                | _ :: t => match_all_from fuel' r (S e) t
                end
            | _ :: _ => match_all_from fuel' r e (m_after m)
            end
      end
  end.

Definition match_all (r : re) (s : str) : list str :=
  match_all_from (S (length s)) r 0 s.

(** [s.replace(r, '')] for a pattern without the [g] flag. *)
Definition remove_match (r : re) (s : str) : str :=
  match exec r s with
  | None => s
  | Some m => firstn (m_index m) s ++ m_after m
  end.

(** [s.replace(r, '')] for a pattern with the [g] flag: every match goes. *)
Fixpoint remove_all_from (fuel : nat) (r : re) (p : nat) (s : str) : str :=
  match fuel with
  | O => s
  | S fuel' =>
      match exec_from r p s with
      | None => s
      | Some m =>
          let e := m_index m + length (m_text m) in
          firstn (m_index m - p) s ++
            match m_text m with
            | [] =>
                match m_after m with
                | [] => []
                | c :: t => c :: remove_all_from fuel' r (S e) t
                end
            | _ :: _ => remove_all_from fuel' r e (m_after m)
            end
      end
  end.

Definition remove_all (r : re) (s : str) : str :=
  remove_all_from (S (length s)) r 0 s.

(** *** Pattern combinators *)

Definition chr (c : char) : re := Cls (char_eqb c).
Definition chri (c : char) : re := Cls (fun x => char_eqb (canon x) (canon c)).
Definition any : re := Cls (fun _ => true).               (* [\s\S] *)
Definition dot : re := Cls (fun c => negb (is_line_terminator c)).
Definition space : re := Cls is_space.                     (* \s *)
Definition word : re := Cls is_word.                       (* \w *)
Definition digit : re := Cls is_digit.                     (* \d *)
Definition notc (c : char) : re := Cls (fun x => negb (char_eqb x c)).

Definition plus (g : bool) (a : re) : re := Seq a (Star g a).
Definition opt (a : re) : re := Alt a Emp.                 (* a? *)

Fixpoint seqs (l : list re) : re :=
  match l with
  | [] => Emp
  | [a] => a
  | a :: t => Seq a (seqs t)
  end.

Fixpoint alts (l : list re) : re :=
  match l with
  | [] => Emp
  | [a] => a
  | a :: t => Alt a (alts t)
  end.

(** A literal, with and without the [i] flag. *)
Definition text (s : string) : re := seqs (List.map chr (lit s)).
Definition texti (s : string) : re := seqs (List.map chri (lit s)).

End Regex.

(** ** Response parser ([ProcessingHelper.ts], solution and debug passes) *)

Module Parser.

Import JS Regex.

(** The object literal that every processor returns in [data]: the four
    fields shared by all modes, and the mode-specific ones by name, in the
    order of the source. *)
Record SolutionData := mkSolutionData {
  code : str;
  thoughts : list str;
  time_complexity : str;
  space_complexity : str;
  extras : list (string * str)
}.

(** [{ success: true, data }] or [{ success: false, error }]. *)
Inductive Result : Type :=
| Success (data : SolutionData)
| Failure (error : str).

Definition success (r : Result) : bool :=
  match r with Success _ => true | Failure _ => false end.

(** [m ? m[1].trim() : dflt] *)
Definition trimmed_group_or (dflt : str) (m : option mresult) : str :=
  match m with
  | Some x => trim (group1 x)
  | None => dflt
  end.

Definition lazy_any : re := Grp 1 (Star false any).     (* ([\s\S]*?) *)
Definition bullet_mark : re :=                          (* (?:[-*•]|\d+\.) *)
  Alt (Cls (fun c => char_eqb c 45%N || char_eqb c 42%N || char_eqb c bullet))
      (Seq (plus true digit) (chr 46%N)).

(** Pattern, with the [g] flag: "/(?:^|\n)\s*(?:[-*•]|\d+\.)\s*" followed
    by a capture of the rest of the line (a greedy star over the dot). *)
Definition bulletPointsRegex : re :=
  seqs [Alt Bol (chr nl); Star true space; bullet_mark; Star true space;
        Grp 1 (Star true dot)].

(** Pattern: "/^\s*(?:[-*•]|\d+\.)\s*/" *)
Definition bulletPrefixRegex : re :=
  seqs [Bol; Star true space; bullet_mark; Star true space].

(** The list extraction that the processors repeat for each narrative
    section: bullet or numbered items when there are any, the lines
    otherwise; blank entries are dropped. *)
Definition section_items (section : str) : list str :=
  match match_all bulletPointsRegex section with
  | [] => filter_truthy (List.map trim (split [nl] section))
  | bulletPoints =>
      filter_truthy
        (List.map (fun point => trim (remove_match bulletPrefixRegex point))
                  bulletPoints)
  end.

(** [if (m && m[1]) { items = ... }] starting from the empty list. *)
Definition items_of_match (m : option mresult) : list str :=
  match m with
  | Some x => if truthy (group1 x) then section_items (group1 x) else []
  | None => []
  end.

(** [xs.length > 0 ? xs : [fallback]] *)
Definition non_empty_or (fallback : string) (xs : list str) : list str :=
  match xs with
  | [] => [lit fallback]
  | _ :: _ => xs
  end.

(** *** Algorithmic coding *)

(** Pattern: "/```(?:\w+)?\s*([\s\S]*?)```/" *)
Definition codeRegex : re :=
  seqs [text "```"; opt (plus true word); Star true space; lazy_any;
        text "```"].

(** Pattern: "/(?:Thoughts:|Key Insights:|Reasoning:|Approach:)([\s\S]*?)(?:Time complexity:|$)/i" *)
Definition thoughtsRegex : re :=
  seqs [alts [texti "Thoughts:"; texti "Key Insights:"; texti "Reasoning:";
              texti "Approach:"];
        lazy_any;
        Alt (texti "Time complexity:") Eol].

Definition not_nl : re := notc nl.                      (* [^\n] *)

(** ([^\n]+(?:\n[^\n]+)*?) *)
Definition complexity_body : re :=
  Grp 1 (Seq (plus true not_nl) (Star false (Seq (chr nl) (plus true not_nl)))).

(** Pattern: "/Time complexity:?\s*([^\n]+(?:\n[^\n]+)*?)(?=\n\s*(?:Space complexity|$))/i" *)
Definition timeComplexityPattern : re :=
  seqs [texti "Time complexity"; opt (chr 58%N); Star true space;
        complexity_body;
        Look (seqs [chr nl; Star true space;
                    Alt (texti "Space complexity") Eol])].

(** Pattern: "/Space complexity:?\s*([^\n]+(?:\n[^\n]+)*?)(?=\n\s*(?:[A-Z]|$))/i" *)
Definition spaceComplexityPattern : re :=
  seqs [texti "Space complexity"; opt (chr 58%N); Star true space;
        complexity_body;
        Look (seqs [chr nl; Star true space; Alt (Cls is_alpha) Eol])].

(** Pattern: "/O\([^)]+\)/i" *)
Definition bigORegex : re :=
  seqs [chri 79%N; chr 40%N; plus true (notc 41%N); chr 41%N].

Definition defaultTimeComplexity : str :=
  lit "O(n) - Linear time complexity because we only iterate through the array once. Each element is processed exactly one time, and the hashmap lookups are O(1) operations.".

Definition defaultSpaceComplexity : str :=
  lit "O(n) - Linear space complexity because we store elements in the hashmap. In the worst case, we might need to store all elements before finding the solution pair.".

(** The adjustment applied to an extracted complexity text (the source has
    one copy for time and one for space): prefix an order notation when
    there is none, insert a dash when there is neither a dash nor a
    "because". *)
Definition ensure_notation (complexity : str) : str :=
  match exec bigORegex complexity with
  | None => lit "O(n) - " ++ complexity
  | Some notationMatch =>
      if negb (includes (lit "-") complexity)
         && negb (includes (lit "because") complexity)
      then
        let notation := m_text notationMatch in
        let rest := trim (remove_first notation complexity) in
        notation ++ lit " - " ++ rest
      else complexity
  end.

(** [let c = dflt; const m = content.match(pattern); if (m && m[1]) {...}] *)
Definition extract_complexity (pattern : re) (dflt : str) (content : str)
  : str :=
  match exec pattern content with
  | Some m =>
      if truthy (group1 m) then ensure_notation (trim (group1 m)) else dflt
  | None => dflt
  end.

Definition processCodingSolution (responseContent : str) : Result :=
  let code :=
    match exec codeRegex responseContent with
    | Some codeMatch => trim (group1 codeMatch)
    | None => responseContent
    end in
  let thoughts := items_of_match (exec thoughtsRegex responseContent) in
  let timeComplexity :=
    extract_complexity timeComplexityPattern defaultTimeComplexity
      responseContent in
  let spaceComplexity :=
    extract_complexity spaceComplexityPattern defaultSpaceComplexity
      responseContent in
  Success
    {| code := code;
       thoughts :=
         non_empty_or "Solution approach based on efficiency and readability"
           thoughts;
       time_complexity := timeComplexity;
       space_complexity := spaceComplexity;
       extras := [] |}.

(** *** System design *)

Definition key_components : re :=                      (* (?:Key|Major) Components: *)
  Seq (Alt (texti "Key") (texti "Major")) (texti " Components:").

Definition not_colon_star : re := Star true (notc 58%N).  (* [^:]* *)

Definition processSystemDesignSolution (responseContent : str) : Result :=
  let architecture :=
    trimmed_group_or []
      (exec (seqs [alts [texti "System Architecture"; texti "Architecture";
                         texti "High-level design"];
                   chr 58%N; lazy_any; Alt key_components Eol])
            responseContent) in
  let components :=
    items_of_match
      (exec (seqs [key_components; lazy_any; Alt (texti "Data Model:") Eol])
            responseContent) in
  let dataModel :=
    trimmed_group_or []
      (exec (seqs [texti "Data Model:"; lazy_any;
                   Alt (texti "Scalability") Eol])
            responseContent) in
  let scalability :=
    trimmed_group_or []
      (exec (seqs [texti "Scalability"; not_colon_star; chr 58%N; lazy_any;
                   Alt (texti "Tradeoffs") Eol])
            responseContent) in
  let tradeoffs :=
    trimmed_group_or []
      (exec (seqs [texti "Tradeoffs"; not_colon_star; chr 58%N; lazy_any; Eol])
            responseContent) in
  Success
    {| code := [];
       thoughts :=
         non_empty_or "System design approach based on requirements"
           components;
       time_complexity := lit "N/A for system design";
       space_complexity := lit "N/A for system design";
       extras := [("diagram"%string, architecture);
                  ("architecture"%string, architecture);
                  ("data_model"%string, dataModel);
                  ("scalability"%string, scalability);
                  ("tradeoffs"%string, tradeoffs)] |}.

(** *** React *)

(** Pattern: "/```(?:jsx|tsx|javascript|js|react)?\s*([\s\S]*?)```/" *)
Definition reactCodeRegex : re :=
  seqs [text "```";
        opt (alts [text "jsx"; text "tsx"; text "javascript"; text "js";
                   text "react"]);
        Star true space; lazy_any; text "```"].

Definition processReactSolution (responseContent : str) : Result :=
  let code := trimmed_group_or [] (exec reactCodeRegex responseContent) in
  let structure :=
    items_of_match
      (exec (seqs [texti "Component Structure:"; lazy_any;
                   Alt (texti "State Management:") Eol])
            responseContent) in
  let stateManagement :=
    trimmed_group_or []
      (exec (seqs [texti "State Management:"; lazy_any;
                   Alt (texti "Key Features:") Eol])
            responseContent) in
  let features :=
    items_of_match
      (exec (seqs [texti "Key Features:"; lazy_any;
                   Alt (texti "Potential Improvements:") Eol])
            responseContent) in
  Success
    {| code := code;
       thoughts :=
         match structure with
         | _ :: _ => structure
         | [] =>
             non_empty_or "React component design based on requirements"
               features
         end;
       time_complexity := lit "N/A for React components";
       space_complexity := lit "N/A for React components";
       extras := [("component_structure"%string, join [nl] structure);
                  ("state_management"%string, stateManagement)] |}.

(** *** SQL *)

(** [if (m && m[1]) { xs = m[1].split('\n\n').filter(Boolean).map(trim) }] *)
Definition paragraphs_of_match (m : option mresult) : list str :=
  match m with
  | Some x =>
      if truthy (group1 x)
      then List.map trim (filter_truthy (split [nl; nl] (group1 x)))
      else []
  | None => []
  end.

(** Pattern: "/```(?:sql)?\s*([\s\S]*?)```/" *)
Definition sqlCodeRegex : re :=
  seqs [text "```"; opt (text "sql"); Star true space; lazy_any; text "```"].

Definition processSQLSolution (responseContent : str) : Result :=
  let sql := trimmed_group_or [] (exec sqlCodeRegex responseContent) in
  let explanation :=
    paragraphs_of_match
      (exec (seqs [texti "Explanation:"; lazy_any;
                   Alt (texti "Performance") Eol])
            responseContent) in
  let performance :=
    trimmed_group_or []
      (exec (seqs [texti "Performance"; not_colon_star; chr 58%N; lazy_any;
                   Alt (texti "Alternative") Eol])
            responseContent) in
  let alternatives :=
    trimmed_group_or []
      (exec (seqs [texti "Alternative"; not_colon_star; chr 58%N; lazy_any; Eol])
            responseContent) in
  Success
    {| code := sql;
       thoughts :=
         non_empty_or "SQL query design based on requirements" explanation;
       time_complexity :=
         or_else performance
           (lit "Depends on database indexes and query execution plan");
       space_complexity :=
         lit "Depends on result set size and temporary tables used";
       extras := [("alternatives"%string, alternatives)] |}.

(** *** Linux *)

Definition processLinuxSolution (responseContent : str) : Result :=
  let commands :=
    trimmed_group_or []
      (exec (seqs [alts [texti "Solution Commands"; texti "Commands";
                         texti "Command"];
                   chr 58%N; lazy_any; Alt (texti "Explanation:") Eol])
            responseContent) in
  let explanation :=
    items_of_match
      (exec (seqs [texti "Explanation:"; lazy_any;
                   Alt (texti "Verification:") Eol])
            responseContent) in
  let verification :=
    trimmed_group_or []
      (exec (seqs [texti "Verification:"; lazy_any;
                   Alt (texti "Alternative") Eol])
            responseContent) in
  let alternatives :=
    trimmed_group_or []
      (exec (seqs [texti "Alternative"; not_colon_star; chr 58%N; lazy_any; Eol])
            responseContent) in
  Success
    {| code := commands;
       thoughts :=
         non_empty_or "Linux commands based on requirements" explanation;
       time_complexity := lit "N/A for Linux commands";
       space_complexity := lit "N/A for Linux commands";
       extras := [("verification"%string, verification);
                  ("alternatives"%string, alternatives)] |}.

(** *** Certification *)

Definition processCertificationSolution (responseContent : str) : Result :=
  let answer :=
    trimmed_group_or []
      (exec (seqs [alts [texti "Answer"; texti "Correct Answer";
                         texti "Solution"];
                   chr 58%N; lazy_any; Alt (texti "Explanation:") Eol])
            responseContent) in
  let explanation :=
    paragraphs_of_match
      (exec (seqs [texti "Explanation:"; lazy_any;
                   Alt (texti "Additional Context:") Eol])
            responseContent) in
  let additionalContext :=
    trimmed_group_or []
      (exec (seqs [texti "Additional Context:"; lazy_any; Eol])
            responseContent) in
  Success
    {| code := answer;
       thoughts :=
         non_empty_or "Certification answer based on knowledge" explanation;
       time_complexity := lit "N/A for certification exam";
       space_complexity := lit "N/A for certification exam";
       extras := [("answer"%string, answer);
                  ("additional_context"%string, additionalContext)] |}.

(** *** Dispatch on the interview mode *)

Definition is_mode (name : string) (mode : str) : bool := JS.eqb mode (lit name).

Definition processSolutionResponse (responseContent mode : str) : Result :=
  if is_mode "coding" mode then processCodingSolution responseContent
  else if is_mode "system_design" mode
  then processSystemDesignSolution responseContent
  else if is_mode "react" mode then processReactSolution responseContent
  else if is_mode "sql" mode then processSQLSolution responseContent
  else if is_mode "linux" mode then processLinuxSolution responseContent
  else if is_mode "certification" mode
  then processCertificationSolution responseContent
  else processCodingSolution responseContent.

(** *** Debug pass: the formatting at the end of
    [processExtraScreenshotsHelper] *)

(** Pattern: "/```(?:[a-zA-Z]+)?([\s\S]*?)```/" *)
Definition debugCodeRegex : re :=
  seqs [text "```"; opt (plus true (Cls is_alpha)); lazy_any; text "```"].

Definition spaces (g : bool) : re := Star g (chr 32%N).   (* [ ]* *)

(** Pattern: "/(?:^|\n)[ ]*(?:[-*•]|\d+\.)[ ]+([^\n]+)/g" *)
Definition debugBulletRegex : re :=
  seqs [Alt Bol (chr nl); spaces true; bullet_mark; plus true (chr 32%N);
        Grp 1 (plus true not_nl)].

(** Pattern: "/^[ ]*(?:[-*•]|\d+\.)[ ]+/" *)
Definition debugBulletPrefixRegex : re :=
  seqs [Bol; spaces true; bullet_mark; plus true (chr 32%N)].

Definition debugThoughts (debugContent : str) : list str :=
  match match_all debugBulletRegex debugContent with
  | [] => [lit "Debug analysis based on your screenshots"]
  | bulletPoints =>
      slice0 5
        (List.map
           (fun point => trim (remove_match debugBulletPrefixRegex point))
           bulletPoints)
  end.

Definition formatDebugResponse (debugContent : str) : Result :=
  let extractedCode :=
    match exec debugCodeRegex debugContent with
    | Some codeMatch =>
        if truthy (group1 codeMatch) then trim (group1 codeMatch)
        else lit "// Debug mode - see analysis below"
    | None => lit "// Debug mode - see analysis below"
    end in
  Success
    {| code := extractedCode;
       thoughts := debugThoughts debugContent;
       time_complexity := lit "N/A - Debug mode";
       space_complexity := lit "N/A - Debug mode";
       extras := [("debug_analysis"%string, debugContent)] |}.

End Parser.

(** ** Prompt templates ([ProcessingHelper.ts]) *)

Module Prompts.

Import JS.
Export Parser.

(** The object parsed from the extraction response, as the templates read
    it: named string fields.  A field that is absent reads as
    [undefined]. *)
Abbreviation ProblemInfo := (gmap string str).

(** [${problemInfo.f}]: an absent field prints as the word undefined. *)
Definition field (problemInfo : ProblemInfo) (f : string) : str :=
  match problemInfo !! f with
  | Some v => v
  | None => lit "undefined"
  end.

(** [${problemInfo.f || "dflt"}]: an absent or empty field gives the
    default. *)
Definition field_or (problemInfo : ProblemInfo) (f dflt : string) : str :=
  match problemInfo !! f with
  | Some v => or_else v (lit dflt)
  | None => lit dflt
  end.

Definition createSystemPromptByMode (mode : str) : str :=
  if is_mode "coding" mode then
    lit "You are a coding challenge interpreter. Analyze the screenshot of the coding problem and extract all relevant information. Return the information in JSON format with these fields: problem_statement, constraints, example_input, example_output. Just return the structured JSON without any other text."
  else if is_mode "system_design" mode then
    lit "You are a system design interview assistant. Analyze the screenshot of the system design problem and extract all relevant information. Return the information in JSON format with these fields: problem_statement, requirements, constraints, scale, additional_context. Just return the structured JSON without any other text."
  else if is_mode "react" mode then
    lit "You are a React coding interview assistant. Analyze the screenshot of the React frontend problem and extract all relevant information. Return the information in JSON format with these fields: problem_statement, ui_requirements, functionality, constraints, sample_data. Just return the structured JSON without any other text."
  else if is_mode "sql" mode then
    lit "You are a SQL interview assistant. Analyze the screenshot of the SQL problem and extract all relevant information. Return the information in JSON format with these fields: problem_statement, table_schemas, sample_data, expected_output, constraints. Just return the structured JSON without any other text."
  else if is_mode "linux" mode then
    lit "You are a Linux/kernel interview assistant. Analyze the screenshot of the Linux/kernel problem and extract all relevant information. Return the information in JSON format with these fields: problem_statement, environment, command_requirements, expected_behavior, constraints. Just return the structured JSON without any other text."
  else if is_mode "certification" mode then
    lit "You are a certification exam assistant. Analyze the screenshot of the exam question and extract all relevant information. First determine the question type (multiple_choice, fill_in_blank, matching, arrange, other). Return the information in JSON format with these fields: question_type, question_text, options (if applicable), context. Just return the structured JSON without any other text."
  else
    lit "You are a coding challenge interpreter. Analyze the screenshot of the coding problem and extract all relevant information. Return the information in JSON format with these fields: problem_statement, constraints, example_input, example_output. Just return the structured JSON without any other text.".

Definition createSolutionPromptByMode (mode : str) (problemInfo : ProblemInfo) (language : str) : str :=
  if is_mode "coding" mode then
    lit "
Generate a detailed solution for the following coding problem:

PROBLEM STATEMENT:
" ++
    (field problemInfo "problem_statement") ++
    lit "

CONSTRAINTS:
" ++
    (field_or problemInfo "constraints" "No specific constraints provided.") ++
    lit "

EXAMPLE INPUT:
" ++
    (field_or problemInfo "example_input" "No example input provided.") ++
    lit "

EXAMPLE OUTPUT:
" ++
    (field_or problemInfo "example_output" "No example output provided.") ++
    lit "

LANGUAGE: " ++
    language ++
    lit "

I need the response in the following format:
1. Code: A clean, optimized implementation in " ++
    language ++
    lit "
2. Your Thoughts: A list of key insights and reasoning behind your approach
3. Time complexity: O(X) with a detailed explanation (at least 2 sentences)
4. Space complexity: O(X) with a detailed explanation (at least 2 sentences)

For complexity explanations, please be thorough. For example: " ++
    [quote] ++
    lit "Time complexity: O(n) because we iterate through the array only once. This is optimal as we need to examine each element at least once to find the solution." ++
    [quote] ++
    lit " or " ++
    [quote] ++
    lit "Space complexity: O(n) because in the worst case, we store all elements in the hashmap. The additional space scales linearly with the input size." ++
    [quote] ++
    lit "

Your solution should be efficient, well-commented, and handle edge cases.
"
  else if is_mode "system_design" mode then
    lit "
Generate a detailed solution for the following system design problem:

PROBLEM STATEMENT:
" ++
    (field problemInfo "problem_statement") ++
    lit "

REQUIREMENTS:
" ++
    (field_or problemInfo "requirements" "No specific requirements provided.") ++
    lit "

CONSTRAINTS:
" ++
    (field_or problemInfo "constraints" "No specific constraints provided.") ++
    lit "

SCALE:
" ++
    (field_or problemInfo "scale" "No specific scale information provided.") ++
    lit "

ADDITIONAL CONTEXT:
" ++
    (field_or problemInfo "additional_context" "No additional context provided.") ++
    lit "

I need the response in the following format:
1. System Architecture: High-level architecture with key components
2. Key Components: List each major component and its responsibility
3. Data Model: Describe the data schemas and storage choices
4. Scalability Considerations: How this design scales to handle growth
5. Tradeoffs: List of the key tradeoffs in your design

Your solution should be clear, efficient, and address all the requirements and constraints.
"
  else if is_mode "react" mode then
    lit "
Generate a detailed solution for the following React frontend coding problem:

PROBLEM STATEMENT:
" ++
    (field problemInfo "problem_statement") ++
    lit "

UI REQUIREMENTS:
" ++
    (field_or problemInfo "ui_requirements" "No specific UI requirements provided.") ++
    lit "

FUNCTIONALITY:
" ++
    (field_or problemInfo "functionality" "No specific functionality details provided.") ++
    lit "

CONSTRAINTS:
" ++
    (field_or problemInfo "constraints" "No specific constraints provided.") ++
    lit "

SAMPLE DATA:
" ++
    (field_or problemInfo "sample_data" "No sample data provided.") ++
    lit "

I need the response in the following format:
1. Code: A clean, optimized React implementation
2. Component Structure: Description of the component hierarchy
3. State Management: How state is handled in the solution
4. Key Features: Highlight of important implementation details
5. Potential Improvements: How the solution could be extended

Your solution should use modern React practices, be performant, and meet all requirements.
"
  else if is_mode "sql" mode then
    lit "
Generate a detailed solution for the following SQL problem:

PROBLEM STATEMENT:
" ++
    (field problemInfo "problem_statement") ++
    lit "

TABLE SCHEMAS:
" ++
    (field_or problemInfo "table_schemas" "No specific table schemas provided.") ++
    lit "

SAMPLE DATA:
" ++
    (field_or problemInfo "sample_data" "No sample data provided.") ++
    lit "

EXPECTED OUTPUT:
" ++
    (field_or problemInfo "expected_output" "No specific expected output provided.") ++
    lit "

CONSTRAINTS:
" ++
    (field_or problemInfo "constraints" "No specific constraints provided.") ++
    lit "

I need the response in the following format:
1. SQL Query: A clean, optimized SQL solution
2. Explanation: Step-by-step explanation of how the query works
3. Performance Considerations: Any indexes or optimizations to consider
4. Alternative Approaches: Other ways to solve this problem

Your solution should be efficient, follow best practices, and produce the expected output.
"
  else if is_mode "linux" mode then
    lit "
Generate a detailed solution for the following Linux/kernel problem:

PROBLEM STATEMENT:
" ++
    (field problemInfo "problem_statement") ++
    lit "

ENVIRONMENT:
" ++
    (field_or problemInfo "environment" "No specific environment details provided.") ++
    lit "

COMMAND REQUIREMENTS:
" ++
    (field_or problemInfo "command_requirements" "No specific command requirements provided.") ++
    lit "

EXPECTED BEHAVIOR:
" ++
    (field_or problemInfo "expected_behavior" "No specific expected behavior provided.") ++
    lit "

CONSTRAINTS:
" ++
    (field_or problemInfo "constraints" "No specific constraints provided.") ++
    lit "

I need the response in the following format:
1. Solution Commands: The exact commands to solve the problem
2. Explanation: Step-by-step explanation of what each command does
3. Verification: How to verify the solution works correctly
4. Alternative Approaches: Other ways to solve this problem

Your solution should be efficient, follow best practices, and meet all requirements.
"
  else if is_mode "certification" mode then
    lit "
Generate a detailed solution for the following certification exam question:

QUESTION TYPE:
" ++
    (field_or problemInfo "question_type" "Unknown") ++
    lit "

QUESTION TEXT:
" ++
    (field problemInfo "question_text") ++
    lit "

OPTIONS:
" ++
    (field_or problemInfo "options" "No options provided.") ++
    lit "

CONTEXT:
" ++
    (field_or problemInfo "context" "No specific context provided.") ++
    lit "

I need both the answer and a detailed explanation:
1. Answer: Clear, direct answer to the question
2. Explanation: Detailed explanation of why this is the correct answer
3. Additional Context: Any important information that helps understand the topic

Your solution should be accurate and comprehensive.
"
  else
    lit "
Generate a detailed solution for the following problem:

PROBLEM STATEMENT:
" ++
    (field problemInfo "problem_statement") ++
    lit "

I need a comprehensive solution with clear explanations.
".

Definition createDebugSystemPromptByMode (mode : str) : str :=
  if is_mode "coding" mode then
    lit "You are a coding interview assistant helping debug and improve solutions. Analyze these screenshots which include either error messages, incorrect outputs, or test cases, and provide detailed debugging help.

Your response MUST follow this exact structure with these section headers (use ### for headers):
### Issues Identified
- List each issue as a bullet point with clear explanation

### Specific Improvements and Corrections
- List specific code changes needed as bullet points

### Optimizations
- List any performance optimizations if applicable

### Explanation of Changes Needed
Here provide a clear explanation of why the changes are needed

### Key Points
- Summary bullet points of the most important takeaways

If you include code examples, use proper markdown code blocks with language specification (e.g. ```java)."
  else if is_mode "system_design" mode then
    lit "You are a system design interview assistant helping improve design solutions. Analyze these screenshots which include either system design diagrams, potential issues, or requirements, and provide detailed improvement suggestions.

Your response MUST follow this exact structure with these section headers (use ### for headers):
### Design Issues Identified
- List each issue as a bullet point with clear explanation

### Architecture Improvements
- List specific architecture changes needed as bullet points

### Scalability Enhancements
- Suggest ways to improve scalability

### Data Flow Optimizations
- Suggest improvements to data flow and processing

### Key Points
- Summary bullet points of the most important takeaways"
  else if is_mode "react" mode then
    lit "You are a React interview assistant helping debug and improve frontend solutions. Analyze these screenshots which include React code, UI issues, or requirements, and provide detailed debugging help.

Your response MUST follow this exact structure with these section headers (use ### for headers):
### UI/UX Issues Identified
- List each issue as a bullet point with clear explanation

### Component Structure Improvements
- Suggest better component organization if applicable

### State Management Optimizations
- Suggest improvements to how state is managed

### Performance Enhancements
- List ways to improve React performance

### Key Points
- Summary bullet points of the most important takeaways

If you include code examples, use proper markdown code blocks with language specification (e.g. ```jsx)."
  else if is_mode "sql" mode then
    lit "You are a SQL interview assistant helping debug and improve database queries. Analyze these screenshots which include SQL queries, error messages, or requirements, and provide detailed debugging help.

Your response MUST follow this exact structure with these section headers (use ### for headers):
### Query Issues Identified
- List each issue as a bullet point with clear explanation

### Query Improvements
- List specific SQL changes needed as bullet points

### Performance Optimizations
- Suggest indexes or query rewrites for better performance

### Alternative Approaches
- Suggest alternative query strategies if applicable

### Key Points
- Summary bullet points of the most important takeaways

If you include code examples, use proper markdown code blocks with language specification (e.g. ```sql)."
  else if is_mode "linux" mode then
    lit "You are a Linux/kernel interview assistant helping debug and improve command-line solutions. Analyze these screenshots which include commands, error messages, or requirements, and provide detailed debugging help.

Your response MUST follow this exact structure with these section headers (use ### for headers):
### Command Issues Identified
- List each issue as a bullet point with clear explanation

### Command Improvements
- List specific command changes needed as bullet points

### Alternative Commands
- Suggest alternative commands that might work better

### Verification Steps
- Suggest how to verify the solution works correctly

### Key Points
- Summary bullet points of the most important takeaways

If you include code examples, use proper markdown code blocks with language specification (e.g. ```bash)."
  else if is_mode "certification" mode then
    lit "You are a certification exam assistant helping clarify answers and explanations. Analyze these screenshots which include exam questions, answers, or explanations, and provide detailed help.

Your response MUST follow this exact structure with these section headers (use ### for headers):
### Answer Analysis
- Explain if the answer is correct or incorrect and why

### Correct Solution
- Provide the correct answer with explanation

### Key Concepts
- List the important concepts being tested in this question

### Related Knowledge
- Provide additional relevant information about the topic

### Study Resources
- Suggest what to study further on this topic

Ensure your explanations are clear, accurate, and educational."
  else
    lit "You are a coding interview assistant helping debug and improve solutions. Analyze these screenshots which include either error messages, incorrect outputs, or test cases, and provide detailed debugging help.

Your response MUST follow this exact structure with these section headers (use ### for headers):
### Issues Identified
- List each issue as a bullet point with clear explanation

### Specific Improvements and Corrections
- List specific code changes needed as bullet points

### Optimizations
- List any performance optimizations if applicable

### Explanation of Changes Needed
Here provide a clear explanation of why the changes are needed

### Key Points
- Summary bullet points of the most important takeaways

If you include code examples, use proper markdown code blocks with language specification (e.g. ```java).".

Definition createDebugUserPromptByMode (mode : str) (problemInfo : ProblemInfo) (language : str) : str :=
  if is_mode "coding" mode then
    lit "I'm solving this coding problem: " ++
    [quote] ++
    (field problemInfo "problem_statement") ++
    [quote] ++
    lit " in " ++
    language ++
    lit ". I need help with debugging or improving my solution. Here are screenshots of my code, the errors or test cases. Please provide a detailed analysis with:
1. What issues you found in my code
2. Specific improvements and corrections
3. Any optimizations that would make the solution better
4. A clear explanation of the changes needed"
  else if is_mode "system_design" mode then
    lit "I'm working on this system design problem: " ++
    [quote] ++
    (field problemInfo "problem_statement") ++
    [quote] ++
    lit ". I need help with improving my design solution. Here are screenshots of my current design, potential issues, or additional requirements. Please provide a detailed analysis with:
1. What design issues you identified
2. Specific architecture improvements
3. How to enhance scalability
4. Data flow optimizations"
  else if is_mode "react" mode then
    lit "I'm implementing this React frontend problem: " ++
    [quote] ++
    (field problemInfo "problem_statement") ++
    [quote] ++
    lit ". I need help with debugging or improving my solution. Here are screenshots of my React code, UI issues, or requirements. Please provide a detailed analysis with:
1. What UI/UX issues you identified
2. How to improve component structure
3. Better state management approaches
4. Performance enhancements"
  else if is_mode "sql" mode then
    lit "I'm solving this SQL problem: " ++
    [quote] ++
    (field problemInfo "problem_statement") ++
    [quote] ++
    lit ". I need help with debugging or improving my query. Here are screenshots of my SQL code, error messages, or requirements. Please provide a detailed analysis with:
1. What issues you found in my query
2. Specific improvements and corrections
3. Any performance optimizations
4. Alternative query approaches"
  else if is_mode "linux" mode then
    lit "I'm working on this Linux/kernel problem: " ++
    [quote] ++
    (field problemInfo "problem_statement") ++
    [quote] ++
    lit ". I need help with debugging or improving my command-line solution. Here are screenshots of my commands, error messages, or requirements. Please provide a detailed analysis with:
1. What issues you found in my commands
2. Specific command improvements
3. Alternative commands that might work better
4. How to verify the solution works"
  else if is_mode "certification" mode then
    lit "I'm studying for a certification exam and encountered this question: " ++
    [quote] ++
    (field problemInfo "question_text") ++
    [quote] ++
    lit ". I need help understanding the correct answer. Here are screenshots of the question, answer choices, or my attempt. Please provide a detailed analysis with:
1. Whether my answer is correct or not and why
2. The correct solution with explanation
3. Key concepts being tested
4. Related knowledge I should know
5. What I should study further on this topic"
  else
    lit "I need help with debugging or improving my solution. Here are screenshots of my code, the errors or test cases. Please provide a detailed analysis with:
1. What issues you found
2. Specific improvements and corrections
3. Any optimizations that would make the solution better
4. A clear explanation of the changes needed".

End Prompts.

(** ** Provider adapters ([ModelInterface.ts], [OpenAIAdapter.ts],
    [ClaudeAdapter.ts], [ModelFactory.ts]) *)

Module Adapters.

Import JS.

(** *** Messages, options and responses ([ModelInterface.ts]) *)

Inductive Role : Type := system | user | assistant.

Definition Role_eqb (a b : Role) : bool :=
  match a, b with
  | system, system | user, user | assistant, assistant => true
  | _, _ => false
  end.

Inductive MessageContent : Type :=
| TextContent (text : str)
| ImageContent (url : str).

(** [content: string | MessageContent[]] *)
Inductive Content : Type :=
| Plain (s : str)
| Parts (items : list MessageContent).

Record ModelMessage := mkMessage {
  role : Role;
  content : Content
}.

(** [signal] is a reference to an AbortSignal; the temperature is a
    decimal fraction. *)
Record ModelRequestOptions := mkOptions {
  signal : option nat;
  maxTokens : option N;
  temperature : option Q
}.

Record Usage := mkUsage {
  promptTokens : option N;
  completionTokens : option N;
  totalTokens : option N
}.

Record ModelResponse := mkResponse {
  response_content : str;
  usage : Usage
}.

(** A thrown value: an [Error] with its message, the [status] that the
    provider clients attach, the [response.status] that the orchestrator
    looks at, and whether [axios.isCancel] recognises it. *)
Record JsError := mkError {
  message : str;
  status : option N;
  response_status : option N;
  isCancel : bool
}.

(** [new Error(msg)] *)
Definition Error (msg : str) : JsError := mkError msg None None false.

(** *** What an adapter method does

    A method either throws before it reaches the provider, or it sends one
    request; the continuation turns the provider's answer into the value
    the method returns or the error it throws.  A request carries exactly
    the fields that the source hands to the client library. *)

Inductive Outcome : Type :=
| Returned (r : ModelResponse)
| Thrown (e : JsError).

Record OpenAIRequest := mkOpenAIRequest {
  oa_model : str;
  oa_messages : list ModelMessage;
  oa_max_tokens : option N;
  oa_temperature : Q;
  oa_stream : bool
}.

(** [response.choices[0].message.content] and [response.usage]. *)
Record OpenAIReply := mkOpenAIReply {
  oa_content : option str;
  oa_usage : option Usage
}.

Inductive ClaudeBlock : Type :=
| ClaudeText (text : str)
| ClaudeImage (source_type media_type data : str).

Record ClaudeMessage := mkClaudeMessage {
  c_role : Role;
  c_content : list ClaudeBlock
}.

Record ClaudeRequest := mkClaudeRequest {
  cl_model : str;
  cl_system : str;
  cl_messages : list ClaudeMessage;
  cl_max_tokens : N;
  cl_temperature : Q
}.

(** [response.content[0].text] and [response.usage]. *)
Record ClaudeReply := mkClaudeReply {
  cl_text : str;
  cl_input_tokens : N;
  cl_output_tokens : N
}.

Inductive Call : Type :=
| Throw (e : JsError)
| OpenAIChat (req : OpenAIRequest) (k : OpenAIReply + JsError -> Outcome)
| ClaudeCreate (req : ClaudeRequest) (k : ClaudeReply + JsError -> Outcome).

(** Whether the method reaches the provider. *)
Definition touches_network (c : Call) : bool :=
  match c with
  | Throw _ => false
  | OpenAIChat _ _ | ClaudeCreate _ _ => true
  end.

(** The [catch] block shared by [complete] and [vision] in both adapters. *)
Definition rethrow (error : JsError) : Outcome :=
  if bool_decide (status error = Some 401%N)
  then Thrown (Error (lit "Invalid API key"))
  else if bool_decide (status error = Some 429%N)
  then Thrown (Error (lit "Rate limit exceeded or insufficient quota"))
  else Thrown error.

(** [x ?? 0.7] *)
Definition temperature_or_default (options : option ModelRequestOptions) : Q :=
  match options with
  | Some o => match temperature o with Some t => t | None => (7 # 10)%Q end
  | None => (7 # 10)%Q
  end.

(** *** Model tables *)

Record ModelInfo := mkModelInfo {
  info_maxTokens : N;
  info_supportsVision : bool;
  info_description : str
}.

Definition OPENAI_MODELS : list (str * ModelInfo) :=
  [ (lit "gpt-4o",
     mkModelInfo 128000 true (lit "Best overall performance, supports images"));
    (lit "gpt-4o-mini",
     mkModelInfo 128000 true
       (lit "Faster, more cost-effective option with vision"));
    (lit "gpt-4-turbo",
     mkModelInfo 128000 true (lit "Advanced capabilities with vision support"));
    (lit "gpt-3.5-turbo",
     mkModelInfo 16385 false (lit "Fast and efficient for text-only tasks")) ].

Definition CLAUDE_MODELS : list (str * ModelInfo) :=
  [ (lit "claude-3-opus-20240229",
     mkModelInfo 200000 true (lit "Most powerful Claude model"));
    (lit "claude-3-sonnet-20240229",
     mkModelInfo 200000 true (lit "Great balance of intelligence and speed"));
    (lit "claude-3-haiku-20240307",
     mkModelInfo 200000 true
       (lit "Fastest Claude model, good for quick responses"));
    (lit "claude-3-5-sonnet-20240620",
     mkModelInfo 200000 true (lit "Latest Claude with improved capabilities")) ].

(** [table[model]] *)
Fixpoint model_info (table : list (str * ModelInfo)) (model : str)
  : option ModelInfo :=
  match table with
  | [] => None
  | (name, info) :: t =>
      if JS.eqb name model then Some info else model_info t model
  end.

(** [Object.keys(table)] *)
Definition model_names (table : list (str * ModelInfo)) : list str :=
  List.map fst table.

(** [Object.keys(table).includes(model) ? model : dflt] *)
Definition validate_in (table : list (str * ModelInfo)) (dflt model : str)
  : str :=
  if existsb (JS.eqb model) (model_names table) then model else dflt.

(** *** The adapter objects

    [apiKey] and [model] are the private fields; [client] is [None] for the
    null client.  The client object remembers the key it was built with. *)
Record Adapter := mkAdapter {
  apiKey : str;
  model : str;
  client : option str
}.

(** [initializeClient]: no client without a key; with a key the
    constructor of the client library is taken to succeed. *)
Definition initializeClient (key : str) : option str :=
  if truthy key then Some key else None.

(** The interface of [ModelInterface.ts], as far as the orchestrator and
    the claims use it. *)
Class ModelAdapter (tag : Type) := {
  provider : tag -> str;
  defaultModel : tag -> str;
  models : tag -> list (str * ModelInfo);
  complete :
    tag -> Adapter -> list ModelMessage -> option ModelRequestOptions -> Call;
  vision :
    tag -> Adapter -> list ModelMessage -> option ModelRequestOptions -> Call
}.

Definition validateModel `{ModelAdapter tag} (t : tag) (m : str) : str :=
  validate_in (models t) (defaultModel t) m.

(** [new XAdapter(apiKey, model)] *)
Definition construct `{ModelAdapter tag} (t : tag) (key m : str) : Adapter :=
  mkAdapter key (validateModel t m) (initializeClient key).

Definition setModel `{ModelAdapter tag} (t : tag) (m : str) (a : Adapter)
  : Adapter :=
  mkAdapter (apiKey a) (validateModel t m) (client a).

Definition setApiKey (key : str) (a : Adapter) : Adapter :=
  mkAdapter key (model a) (initializeClient key).

(** [supportsVision()]: the table entry of the current model, [false]
    when there is none. *)
Definition supportsVision `{ModelAdapter tag} (t : tag) (a : Adapter) : bool :=
  match model_info (models t) (model a) with
  | Some info => info_supportsVision info
  | None => false
  end.

Definition unsupported_vision (a : Adapter) : JsError :=
  Error (lit "Model " ++ model a ++ lit " does not support vision capabilities").

(** *** OpenAI *)

Inductive OpenAITag : Type := OpenAIProvider.

Definition openai_request (a : Adapter) (messages : list ModelMessage)
    (options : option ModelRequestOptions) : Call :=
  OpenAIChat
    {| oa_model := model a;
       oa_messages := messages;
       oa_max_tokens :=
         match options with Some o => maxTokens o | None => None end;
       oa_temperature := temperature_or_default options;
       oa_stream := false |}
    (fun reply =>
       match reply with
       | inl response =>
           Returned
             {| response_content :=
                  match oa_content response with
                  | Some c => or_else c []
                  | None => []
                  end;
                usage :=
                  match oa_usage response with
                  | Some u => u
                  | None => mkUsage None None None
                  end |}
       | inr error => rethrow error
       end).

Definition openai_complete (a : Adapter) (messages : list ModelMessage)
    (options : option ModelRequestOptions) : Call :=
  match client a with
  | None => Throw (Error (lit "OpenAI client not initialized"))
  | Some _ => openai_request a messages options
  end.

Definition openai_supportsVision (a : Adapter) : bool :=
  match model_info OPENAI_MODELS (model a) with
  | Some info => info_supportsVision info
  | None => false
  end.

Definition openai_vision (a : Adapter) (messages : list ModelMessage)
    (options : option ModelRequestOptions) : Call :=
  match client a with
  | None => Throw (Error (lit "OpenAI client not initialized"))
  | Some _ =>
      if negb (openai_supportsVision a) then Throw (unsupported_vision a)
      else openai_request a messages options
  end.

#[export] Instance OpenAIAdapter : ModelAdapter OpenAITag := {
  provider _ := lit "OpenAI";
  defaultModel _ := lit "gpt-4o";
  models _ := OPENAI_MODELS;
  complete _ := openai_complete;
  vision _ := openai_vision
}.

(** *** Claude *)

Inductive ClaudeTag : Type := ClaudeProvider.

Definition is_text (item : MessageContent) : bool :=
  match item with TextContent _ => true | ImageContent _ => false end.

Definition text_of (item : MessageContent) : str :=
  match item with TextContent t => t | ImageContent _ => [] end.

(** The text of a system message: the string itself, or the text parts
    joined by newlines. *)
Definition system_text (c : Content) : str :=
  match c with
  | Plain s => s
  | Parts items => join [nl] (List.map text_of (List.filter is_text items))
  end.

Definition convertItem (item : MessageContent) : ClaudeBlock :=
  match item with
  | TextContent t => ClaudeText t
  | ImageContent url =>
      ClaudeImage (lit "base64") (lit "image/png")
        (remove_first (lit "data:image/png;base64,") url)
  end.

Definition convertMessage (msg : ModelMessage) : ClaudeMessage :=
  {| c_role :=
       match role msg with assistant => assistant | _ => user end;
     c_content :=
       match content msg with
       | Parts items => List.map convertItem items
       | Plain s => [ClaudeText s]
       end |}.

Definition is_system (msg : ModelMessage) : bool := Role_eqb (role msg) system.

(** Returns [{ messages, system }]. *)
Definition convertToClaudeMessages (messages : list ModelMessage)
  : list ClaudeMessage * str :=
  let systemMessages := List.filter is_system messages in
  let systemPrompt :=
    match systemMessages with
    | first :: _ => system_text (content first)
    | [] => []
    end in
  let nonSystemMessages :=
    List.filter (fun msg => negb (is_system msg)) messages in
  (List.map convertMessage nonSystemMessages, systemPrompt).

Definition claude_complete (a : Adapter) (messages : list ModelMessage)
    (options : option ModelRequestOptions) : Call :=
  match client a with
  | None => Throw (Error (lit "Claude client not initialized"))
  | Some _ =>
      let '(claudeMessages, sys) := convertToClaudeMessages messages in
      ClaudeCreate
        {| cl_model := model a;
           cl_system := sys;
           cl_messages := claudeMessages;
           cl_max_tokens :=
             match options with
             | Some o =>
                 match maxTokens o with
                 | Some n => if N.eqb n 0 then 4000%N else n
                 | None => 4000%N
                 end
             | None => 4000%N
             end;
           cl_temperature := temperature_or_default options |}
        (fun reply =>
           match reply with
           | inl response =>
               Returned
                 {| response_content := cl_text response;
                    usage :=
                      mkUsage (Some (cl_input_tokens response))
                        (Some (cl_output_tokens response))
                        (Some (cl_input_tokens response
                               + cl_output_tokens response)%N) |}
           | inr error => rethrow error
           end)
  end.

Definition claude_supportsVision (a : Adapter) : bool :=
  match model_info CLAUDE_MODELS (model a) with
  | Some info => info_supportsVision info
  | None => false
  end.

Definition claude_vision (a : Adapter) (messages : list ModelMessage)
    (options : option ModelRequestOptions) : Call :=
  if negb (claude_supportsVision a) then Throw (unsupported_vision a)
  else claude_complete a messages options.

#[export] Instance ClaudeAdapter : ModelAdapter ClaudeTag := {
  provider _ := lit "Claude";
  defaultModel _ := lit "claude-3-sonnet-20240229";
  models _ := CLAUDE_MODELS;
  complete _ := claude_complete;
  vision _ := claude_vision
}.

(** *** An adapter of either provider, and the factory *)

Inductive AnyAdapter : Type :=
| OpenAI (a : Adapter)
| Claude (a : Adapter).

Definition any_provider (x : AnyAdapter) : str :=
  match x with
  | OpenAI _ => provider OpenAIProvider
  | Claude _ => provider ClaudeProvider
  end.

Definition any_supportsVision (x : AnyAdapter) : bool :=
  match x with
  | OpenAI a => supportsVision OpenAIProvider a
  | Claude a => supportsVision ClaudeProvider a
  end.

Definition any_has_client (x : AnyAdapter) : bool :=
  match x with
  | OpenAI a | Claude a => match client a with Some _ => true | None => false end
  end.

Definition any_model (x : AnyAdapter) : str :=
  match x with OpenAI a | Claude a => model a end.

Definition any_complete (x : AnyAdapter) (messages : list ModelMessage)
    (options : option ModelRequestOptions) : Call :=
  match x with
  | OpenAI a => complete OpenAIProvider a messages options
  | Claude a => complete ClaudeProvider a messages options
  end.

Definition any_vision (x : AnyAdapter) (messages : list ModelMessage)
    (options : option ModelRequestOptions) : Call :=
  match x with
  | OpenAI a => vision OpenAIProvider a messages options
  | Claude a => vision ClaudeProvider a messages options
  end.

(** [createModelAdapter(config)]: the provider names of the closed set, an
    error for any other. *)
Definition createModelAdapter (providerName key m : str)
  : AnyAdapter + JsError :=
  if JS.eqb providerName (lit "openai")
  then inl (OpenAI (construct OpenAIProvider key m))
  else if JS.eqb providerName (lit "claude")
  then inl (Claude (construct ClaudeProvider key m))
  else inr (Error (lit "Unsupported model provider: " ++ providerName)).

End Adapters.

(** ** Orchestrator ([ProcessingHelper.ts]) *)

Module Orchestrator.

Import JS Adapters.
Export Prompts.

(** *** Configuration, as far as the orchestrator reads it
    ([ConfigHelper.ts]) *)

Record ModelProviderConfig := mkProviderConfig {
  cfg_apiKey : str;
  cfg_model : str
}.

Record Config := mkConfig {
  activeProvider : str;
  providers_openai : ModelProviderConfig;
  providers_claude : ModelProviderConfig;
  language : str;
  interviewMode : str
}.

(** [config.providers[activeProvider]] *)
Definition active_provider_config (c : Config) : option ModelProviderConfig :=
  if JS.eqb (activeProvider c) (lit "openai") then Some (providers_openai c)
  else if JS.eqb (activeProvider c) (lit "claude")
  then Some (providers_claude c)
  else None.

(** *** Events sent to the main window *)

Inductive Payload : Type :=
| PayloadText (s : str)
| PayloadError (e : JsError).

Inductive Event : Type :=
| API_KEY_INVALID
| INITIAL_START
| NO_SCREENSHOTS
| INITIAL_SOLUTION_ERROR (p : Payload)
| SOLUTION_SUCCESS (data : SolutionData)
| PROBLEM_EXTRACTED (info : option ProblemInfo)
| DEBUG_START
| DEBUG_SUCCESS (data : SolutionData)
| DEBUG_ERROR (msg : str)
| processing_status (msg : str) (progress : N).

Definition is_success_event (e : Event) : bool :=
  match e with
  | SOLUTION_SUCCESS _ | DEBUG_SUCCESS _ => true
  | _ => false
  end.

Definition is_failure_event (e : Event) : bool :=
  match e with
  | API_KEY_INVALID | INITIAL_SOLUTION_ERROR _ | DEBUG_ERROR _ => true
  | _ => false
  end.

(** *** State of the helper and of the application around it *)

Inductive View : Type := queue | solutions.

Record State := mkState {
  (** what [configHelper.loadConfig()] returns *)
  config : Config;
  (** [window.__LANGUAGE__], when the window answers *)
  windowLanguage : option str;
  (** [deps.getMainWindow()] is not null *)
  mainWindow : bool;
  (** [mainWindow.isDestroyed()] *)
  windowDestroyed : bool;
  (** [deps.getView()] *)
  view : View;
  (** paths of the main queue *)
  screenshotQueue : list str;
  (** paths of the extra queue *)
  extraScreenshotQueue : list str;
  (** [deps.getProblemInfo()] *)
  problemInfo : option ProblemInfo;
  (** the flag behind [deps.setHasDebugged] *)
  hasDebugged : bool;
  (** the adapter objects created so far *)
  adapters : list AnyAdapter;
  (** [this.modelAdapter]: a reference into [adapters] *)
  modelAdapter : option nat;
  (** the AbortControllers created so far: aborted or not *)
  controllers : list bool;
  (** a reference into [controllers] *)
  currentProcessingAbortController : option nat;
  (** a reference into [controllers] *)
  currentExtraProcessingAbortController : option nat
}.

(** Field updates. *)
Definition set_config (v : Config) (s : State) : State :=
  mkState v (windowLanguage s) (mainWindow s) (windowDestroyed s) (view s)
    (screenshotQueue s) (extraScreenshotQueue s) (problemInfo s)
    (hasDebugged s) (adapters s) (modelAdapter s) (controllers s)
    (currentProcessingAbortController s)
    (currentExtraProcessingAbortController s).

Definition set_view (v : View) (s : State) : State :=
  mkState (config s) (windowLanguage s) (mainWindow s) (windowDestroyed s) v
    (screenshotQueue s) (extraScreenshotQueue s) (problemInfo s)
    (hasDebugged s) (adapters s) (modelAdapter s) (controllers s)
    (currentProcessingAbortController s)
    (currentExtraProcessingAbortController s).

Definition set_extraScreenshotQueue (v : list str) (s : State) : State :=
  mkState (config s) (windowLanguage s) (mainWindow s) (windowDestroyed s)
    (view s) (screenshotQueue s) v (problemInfo s) (hasDebugged s)
    (adapters s) (modelAdapter s) (controllers s)
    (currentProcessingAbortController s)
    (currentExtraProcessingAbortController s).

Definition set_problemInfo (v : option ProblemInfo) (s : State) : State :=
  mkState (config s) (windowLanguage s) (mainWindow s) (windowDestroyed s)
    (view s) (screenshotQueue s) (extraScreenshotQueue s) v (hasDebugged s)
    (adapters s) (modelAdapter s) (controllers s)
    (currentProcessingAbortController s)
    (currentExtraProcessingAbortController s).

Definition set_hasDebugged (v : bool) (s : State) : State :=
  mkState (config s) (windowLanguage s) (mainWindow s) (windowDestroyed s)
    (view s) (screenshotQueue s) (extraScreenshotQueue s) (problemInfo s) v
    (adapters s) (modelAdapter s) (controllers s)
    (currentProcessingAbortController s)
    (currentExtraProcessingAbortController s).

Definition set_adapters (v : list AnyAdapter) (s : State) : State :=
  mkState (config s) (windowLanguage s) (mainWindow s) (windowDestroyed s)
    (view s) (screenshotQueue s) (extraScreenshotQueue s) (problemInfo s)
    (hasDebugged s) v (modelAdapter s) (controllers s)
    (currentProcessingAbortController s)
    (currentExtraProcessingAbortController s).

Definition set_modelAdapter (v : option nat) (s : State) : State :=
  mkState (config s) (windowLanguage s) (mainWindow s) (windowDestroyed s)
    (view s) (screenshotQueue s) (extraScreenshotQueue s) (problemInfo s)
    (hasDebugged s) (adapters s) v (controllers s)
    (currentProcessingAbortController s)
    (currentExtraProcessingAbortController s).

Definition set_controllers (v : list bool) (s : State) : State :=
  mkState (config s) (windowLanguage s) (mainWindow s) (windowDestroyed s)
    (view s) (screenshotQueue s) (extraScreenshotQueue s) (problemInfo s)
    (hasDebugged s) (adapters s) (modelAdapter s) v
    (currentProcessingAbortController s)
    (currentExtraProcessingAbortController s).

Definition set_currentProcessingAbortController (v : option nat) (s : State) : State :=
  mkState (config s) (windowLanguage s) (mainWindow s) (windowDestroyed s)
    (view s) (screenshotQueue s) (extraScreenshotQueue s) (problemInfo s)
    (hasDebugged s) (adapters s) (modelAdapter s) (controllers s) v
    (currentExtraProcessingAbortController s).

Definition set_currentExtraProcessingAbortController (v : option nat) (s : State) : State :=
  mkState (config s) (windowLanguage s) (mainWindow s) (windowDestroyed s)
    (view s) (screenshotQueue s) (extraScreenshotQueue s) (problemInfo s)
    (hasDebugged s) (adapters s) (modelAdapter s) (controllers s)
    (currentProcessingAbortController s) v.

(** *** Operations: state passing, with the events sent on the way *)

Definition Op (A : Type) : Type := State -> A * State * list Event.

Definition ret {A} (a : A) : Op A := fun s => (a, s, []).

Definition bind {A B} (m : Op A) (f : A -> Op B) : Op B :=
  fun s =>
    let '(a, s1, e1) := m s in
    let '(b, s2, e2) := f a s1 in
    (b, s2, e1 ++ e2).

Notation "'let*' x ':=' m 'in' f" := (bind m (fun x => f))
  (at level 10, x name, m at level 100, f at level 200).
Notation "m ;;; f" := (bind m (fun _ => f))
  (at level 100, f at level 200, right associativity).

Definition get : Op State := fun s => (s, s, []).
Definition modify (f : State -> State) : Op unit := fun s => (tt, f s, []).
Definition send (e : Event) : Op unit := fun s => (tt, s, [e]).

(** [if (mainWindow) mainWindow.webContents.send(...)] *)
Definition send_if (w : bool) (e : Event) : Op unit :=
  if w then send e else ret tt.

Definition events_of {A} (r : A * State * list Event) : list Event := snd r.
Definition state_of {A} (r : A * State * list Event) : State := snd (fst r).
Definition value_of {A} (r : A * State * list Event) : A := fst (fst r).

(** *** Adapter initialisation *)

(** [initializeModelAdapter]: a new adapter object for the active provider
    when it has a key, the null adapter otherwise and when the factory
    throws. *)
Definition initializeModelAdapter : Op unit :=
  modify (fun s =>
    let cfg := config s in
    match active_provider_config cfg with
    | Some providerConfig =>
        if truthy (cfg_apiKey providerConfig) then
          match createModelAdapter (activeProvider cfg)
                  (cfg_apiKey providerConfig) (cfg_model providerConfig) with
          | inl adapter =>
              set_modelAdapter (Some (length (adapters s)))
                (set_adapters (adapters s ++ [adapter]) s)
          | inr _ => set_modelAdapter None s
          end
        else set_modelAdapter None s
    | None => set_modelAdapter None s
    end).

(** The listener registered in the constructor: the configuration changed
    on disk, the adapter is rebuilt. *)
Definition configUpdated (c : Config) : Op unit :=
  modify (set_config c) ;;; initializeModelAdapter.

(** The object behind [this.modelAdapter], with its reference. *)
Definition current_adapter (s : State) : option (nat * AnyAdapter) :=
  match modelAdapter s with
  | Some i =>
      match adapters s !! i with
      | Some a => Some (i, a)
      | None => None
      end
  | None => None
  end.

Definition getLanguage (s : State) : str :=
  if truthy (language (config s)) then language (config s)
  else if mainWindow s then
    match windowLanguage s with
    | Some l => l
    | None => lit "python"
    end
  else lit "python".

Definition getInterviewMode (s : State) : str :=
  or_else (or_else (interviewMode (config s)) (lit "coding")) (lit "coding").

(** *** A run between two suspension points

    The operations below take a run from one adapter call to the next in
    one step: nothing else happens between the start of a run and its
    first call, or between an answer and the next call.  The source also
    awaits before a call (the previews of the screenshots, [getLanguage],
    [getInterviewMode]); the module [Awaits] has the same code with these
    suspension points and the configuration changes that may arrive there.
    [Pending] holds what the suspended run keeps in local variables: which
    call it waits for, the adapter object the call was made on, the
    controller whose signal went into the call's options, the interview
    mode, the window it read, and the call itself. *)

Inductive Stage : Type := Extracting | Solving | Debugging.

Record Pending := mkPending {
  p_stage : Stage;
  p_adapter : nat;
  p_signal : nat;
  p_mode : str;
  p_window : bool;
  p_call : Call
}.

Inductive Progress : Type :=
| Finished
| Waiting (p : Pending).

(** [{ maxTokens: 4000, temperature: 0.2, signal }] *)
Definition request_options (signal : nat) : option ModelRequestOptions :=
  Some (mkOptions (Some signal) (Some 4000%N) (Some (2 # 10)%Q)).

Definition image_part (data : str) : MessageContent :=
  ImageContent (lit "data:image/png;base64," ++ data).

(** [new AbortController()] *)
Definition newController : Op nat :=
  let* s := get in
  modify (set_controllers (controllers s ++ [false])) ;;;
  ret (length (controllers s)).

(** [controller.abort()] *)
Definition abort (c : nat) : Op unit :=
  modify (fun s => set_controllers (<[c := true]> (controllers s)) s).

Definition aborted (s : State) (c : nat) : bool :=
  match controllers s !! c with
  | Some b => b
  | None => false
  end.

Section Run.

(** [JSON.parse] of the extraction text: [None] when it throws; the
    parsed value otherwise, [Some None] for a falsy one. *)
Variable JSON_parse : str -> option (option ProblemInfo).

(** Reading the queued files: their base64 data, or the error thrown. *)
Variable readScreenshots : list str -> list str + JsError.

(** **** The primary queue *)

(** The [catch] block of [processScreenshotsHelper]. *)
Definition extraction_catch (error : JsError) : Result :=
  if isCancel error
  then Failure (lit "Processing was canceled by the user.")
  else if bool_decide (response_status error = Some 401%N)
  then Failure (lit "Invalid API key. Please check your settings.")
  else if bool_decide (response_status error = Some 429%N)
  then Failure (lit "API rate limit exceeded or insufficient credits. Please try again later.")
  else if bool_decide (response_status error = Some 500%N)
  then Failure (lit "Server error. Please try again later.")
  else Failure (or_else (message error)
                  (lit "Failed to process screenshots. Please try again.")).

(** The [catch] block of [generateSolutionsHelper]. *)
Definition solutions_catch (error : JsError) : Result :=
  if bool_decide (response_status error = Some 401%N)
  then Failure (lit "Invalid API key. Please check your settings.")
  else if bool_decide (response_status error = Some 429%N)
  then Failure (lit "API rate limit exceeded or insufficient credits. Please try again later.")
  else Failure (or_else (message error) (lit "Failed to generate solution")).

(** [processScreenshots], after [processScreenshotsHelper] has returned:
    the event for the result, the view, and the [finally] block. *)
Definition finishPrimary (result : Result) : Op Progress :=
  match result with
  | Failure error =>
      (if includes (lit "API Key") error || includes (lit "API key") error
       then send API_KEY_INVALID
       else send (INITIAL_SOLUTION_ERROR (PayloadText error))) ;;;
      modify (set_view queue)
  | Success data =>
      send (SOLUTION_SUCCESS data) ;;;
      modify (set_view solutions)
  end ;;;
  modify (set_currentProcessingAbortController None) ;;;
  ret Finished.

(** [processScreenshotsHelper], after [generateSolutionsHelper] has
    returned. *)
Definition solutionsDone (solutionsResult : Result) : Op Progress :=
  match solutionsResult with
  | Success data =>
      modify (set_extraScreenshotQueue []) ;;;
      send (processing_status (lit "Solution generated successfully") 100) ;;;
      send (SOLUTION_SUCCESS data) ;;;
      finishPrimary (Success data)
  | Failure error =>
      finishPrimary
        (extraction_catch
           (Error (or_else error (lit "Failed to generate solutions"))))
  end.

(** The run resumes with the outcome of [modelAdapter.complete]. *)
Definition afterSolution (p : Pending) (o : Outcome) : Op Progress :=
  solutionsDone
    match o with
    | Returned solutionResponse =>
        processSolutionResponse (response_content solutionResponse)
          (p_mode p)
    | Thrown error => solutions_catch error
    end.

(** [generateSolutionsHelper] up to the call of [modelAdapter.complete]:
    the adapter is read from [this.modelAdapter] here, again. *)
Definition generateSolutionsHelper (signal : nat) (mode : str) (w : bool)
  : Op (Result + Pending) :=
  let* s := get in
  match problemInfo s with
  | None => ret (inl (solutions_catch (Error (lit "No problem info available"))))
  | Some info =>
      match current_adapter s with
      | None =>
          ret (inl (Failure
                     (lit "API key not configured. Please check your settings.")))
      | Some (ref, adapter) =>
          send_if (mainWindow s)
            (processing_status
               (lit "Creating optimal solution with detailed explanations...")
               60) ;;;
          let promptText :=
            createSolutionPromptByMode mode info (getLanguage s) in
          let call :=
            any_complete adapter
              [ mkMessage system
                  (Plain (lit "You are an expert coding interview assistant. Provide clear, optimal solutions with detailed explanations."));
                mkMessage user (Plain promptText) ]
              (request_options signal) in
          match call with
          | Throw error => ret (inl (solutions_catch error))
          | _ => ret (inr (mkPending Solving ref signal mode w call))
          end
      end
  end.

(** Pattern, with the [g] flag: "/```json|```/" *)
Definition jsonFenceRegex : Regex.re :=
  Regex.Alt (Regex.text "```json") (Regex.text "```").

(** The run resumes with the outcome of the extraction call. *)
Definition afterExtraction (p : Pending) (o : Outcome) : Op Progress :=
  match o with
  | Thrown error => finishPrimary (extraction_catch error)
  | Returned extractionResponse =>
      let jsonText :=
        trim (Regex.remove_all jsonFenceRegex
                (response_content extractionResponse)) in
      match JSON_parse jsonText with
      | None =>
          finishPrimary
            (Failure (lit "Failed to parse problem information. Please try again or use clearer screenshots."))
      | Some info =>
          send_if (p_window p)
            (processing_status
               (lit "Problem analyzed successfully. Preparing to generate solution...")
               40) ;;;
          modify (set_problemInfo info) ;;;
          if p_window p then
            send (PROBLEM_EXTRACTED info) ;;;
            let* r := generateSolutionsHelper (p_signal p) (p_mode p)
                        (p_window p) in
            match r with
            | inl solutionsResult => solutionsDone solutionsResult
            | inr pending => ret (Waiting pending)
            end
          else finishPrimary (Failure (lit "Failed to process screenshots"))
      end
  end.

(** [processScreenshotsHelper] up to the call of [modelAdapter.vision]. *)
Definition processScreenshotsHelper (imageDataList : list str) (signal : nat)
  : Op Progress :=
  let* s0 := get in
  let language := getLanguage s0 in
  let interviewMode := getInterviewMode s0 in
  let w := mainWindow s0 in
  (match modelAdapter s0 with
   | None => initializeModelAdapter
   | Some _ => ret tt
   end) ;;;
  let* s := get in
  match current_adapter s with
  | None =>
      finishPrimary
        (Failure
           (lit "API key not configured or invalid. Please check your settings."))
  | Some (ref, adapter) =>
      send_if w
        (processing_status (lit "Analyzing problem from screenshots...") 20) ;;;
      let messages :=
        [ mkMessage system (Plain (createSystemPromptByMode interviewMode));
          mkMessage user
            (Parts
               (TextContent
                  (lit "Extract the problem details from these screenshots. Return in JSON format. Preferred coding language is "
                   ++ language ++ lit ".")
                :: List.map image_part imageDataList)) ] in
      let call := any_vision adapter messages (request_options signal) in
      let p := mkPending Extracting ref signal interviewMode w call in
      match call with
      | Throw error => afterExtraction p (Thrown error)
      | _ => ret (Waiting p)
      end
  end.

(** The [catch] block of the queue branch of [processScreenshots]. *)
Definition primary_catch (error : JsError) : Op Progress :=
  send (INITIAL_SOLUTION_ERROR (PayloadError error)) ;;;
  (if isCancel error
   then send (INITIAL_SOLUTION_ERROR
                (PayloadText (lit "Processing was canceled by the user.")))
   else send (INITIAL_SOLUTION_ERROR
                (PayloadText
                   (or_else (message error)
                      (lit "Server error. Please try again."))))) ;;;
  modify (set_view queue) ;;;
  modify (set_currentProcessingAbortController None) ;;;
  ret Finished.

(** **** The debug queue *)

(** The [catch] block of [processExtraScreenshotsHelper]. *)
Definition debug_catch (error : JsError) : Result :=
  if bool_decide (response_status error = Some 401%N)
  then Failure (lit "Invalid API key. Please check your settings.")
  else if bool_decide (response_status error = Some 429%N)
  then Failure (lit "API rate limit exceeded or insufficient credits. Please try again later.")
  else Failure (or_else (message error)
                  (lit "Failed to process debug request")).

(** The solutions branch of [processScreenshots], after
    [processExtraScreenshotsHelper] has returned. *)
Definition finishDebug (result : Result) : Op Progress :=
  match result with
  | Success data =>
      modify (set_hasDebugged true) ;;;
      send (DEBUG_SUCCESS data)
  | Failure error => send (DEBUG_ERROR error)
  end ;;;
  modify (set_currentExtraProcessingAbortController None) ;;;
  ret Finished.

(** The run resumes with the outcome of the debug call. *)
Definition afterDebug (p : Pending) (o : Outcome) : Op Progress :=
  match o with
  | Thrown error => finishDebug (debug_catch error)
  | Returned debugResponse =>
      send_if (p_window p)
        (processing_status (lit "Debug analysis complete") 100) ;;;
      finishDebug (formatDebugResponse (response_content debugResponse))
  end.

(** [processExtraScreenshotsHelper] up to the call of
    [modelAdapter.vision]. *)
Definition processExtraScreenshotsHelper (imageDataList : list str)
    (signal : nat) : Op Progress :=
  let* s := get in
  let language := getLanguage s in
  let interviewMode := getInterviewMode s in
  let w := mainWindow s in
  match problemInfo s with
  | None => finishDebug (debug_catch (Error (lit "No problem info available")))
  | Some info =>
      match current_adapter s with
      | None =>
          finishDebug
            (Failure
               (lit "API key not configured. Please check your settings."))
      | Some (ref, adapter) =>
          send_if w
            (processing_status (lit "Processing debug screenshots...") 30) ;;;
          let messages :=
            [ mkMessage system
                (Plain (createDebugSystemPromptByMode interviewMode));
              mkMessage user
                (Parts
                   (TextContent
                      (createDebugUserPromptByMode interviewMode info
                         language)
                    :: List.map image_part imageDataList)) ] in
          send_if w
            (processing_status
               (lit "Analyzing code and generating debug feedback...") 60) ;;;
          let call := any_vision adapter messages (request_options signal) in
          let p := mkPending Debugging ref signal interviewMode w call in
          match call with
          | Throw error => afterDebug p (Thrown error)
          | _ => ret (Waiting p)
          end
      end
  end.

(** The [catch] block of the solutions branch of [processScreenshots]. *)
Definition debug_outer_catch (error : JsError) : Op Progress :=
  (if isCancel error
   then send (DEBUG_ERROR
                (lit "Extra processing was canceled by the user."))
   else send (DEBUG_ERROR (message error))) ;;;
  modify (set_currentExtraProcessingAbortController None) ;;;
  ret Finished.

(** **** Entry points *)

(** [processScreenshots] up to the first adapter call. *)
Definition processScreenshots : Op Progress :=
  let* s0 := get in
  if negb (mainWindow s0) then ret Finished else
  (match modelAdapter s0 with
   | None => initializeModelAdapter
   | Some _ => ret tt
   end) ;;;
  let* s := get in
  match modelAdapter s with
  | None => send API_KEY_INVALID ;;; ret Finished
  | Some _ =>
      match view s with
      | queue =>
          send INITIAL_START ;;;
          match screenshotQueue s with
          | [] => send NO_SCREENSHOTS ;;; ret Finished
          | _ :: _ =>
              let* c := newController in
              modify (set_currentProcessingAbortController (Some c)) ;;;
              match readScreenshots (screenshotQueue s) with
              | inr error => primary_catch error
              | inl imageDataList => processScreenshotsHelper imageDataList c
              end
          end
      | solutions =>
          match extraScreenshotQueue s with
          | [] => send NO_SCREENSHOTS ;;; ret Finished
          | _ :: _ =>
              send DEBUG_START ;;;
              let* c := newController in
              modify (set_currentExtraProcessingAbortController (Some c)) ;;;
              match readScreenshots
                      (screenshotQueue s ++ extraScreenshotQueue s) with
              | inr error => debug_outer_catch error
              | inl imageDataList =>
                  processExtraScreenshotsHelper imageDataList c
              end
          end
      end
  end.

(** What the provider sends back for a pending call. *)
Inductive Reply : Type :=
| FromOpenAI (r : OpenAIReply + JsError)
| FromClaude (r : ClaudeReply + JsError).

Definition outcome_of (c : Call) (r : Reply) : option Outcome :=
  match c, r with
  | OpenAIChat _ k, FromOpenAI x => Some (k x)
  | ClaudeCreate _ k, FromClaude x => Some (k x)
  | _, _ => None
  end.

(** The provider answers: the suspended run goes on from where it
    stopped.  An answer of the other provider's shape is not for this
    call, the run keeps waiting. *)
Definition resume (p : Pending) (r : Reply) : Op Progress :=
  match outcome_of (p_call p) r with
  | None => ret (Waiting p)
  | Some o =>
      match p_stage p with
      | Extracting => afterExtraction p o
      | Solving => afterSolution p o
      | Debugging => afterDebug p o
      end
  end.

(** [cancelOngoingRequests] *)
Definition cancelOngoingRequests : Op unit :=
  let* s := get in
  let wasCancelled :=
    match currentProcessingAbortController s,
          currentExtraProcessingAbortController s with
    | None, None => false
    | _, _ => true
    end in
  (match currentProcessingAbortController s with
   | Some c =>
       abort c ;;; modify (set_currentProcessingAbortController None)
   | None => ret tt
   end) ;;;
  (match currentExtraProcessingAbortController s with
   | Some c =>
       abort c ;;; modify (set_currentExtraProcessingAbortController None)
   | None => ret tt
   end) ;;;
  modify (set_hasDebugged false) ;;;
  modify (set_problemInfo None) ;;;
  if wasCancelled && mainWindow s && negb (windowDestroyed s)
  then send NO_SCREENSHOTS
  else ret tt.

End Run.

End Orchestrator.

(** ** Vocabulary of the statements and the scenarios they are tried on *)

Module Scenarios.

Import JS Adapters Orchestrator.

(** The interview modes that the [switch] statements name. *)
Definition recognized_modes : list string :=
  ["coding"; "system_design"; "react"; "sql"; "linux"; "certification"]%string.

Definition recognized (mode : str) : bool :=
  existsb (fun name => is_mode name mode) recognized_modes.

(** The fields of a parser result; a failure has none. *)
Definition code_of (r : Result) : str :=
  match r with Success d => code d | Failure _ => [] end.

Definition thoughts_of (r : Result) : list str :=
  match r with Success d => thoughts d | Failure _ => [] end.

Definition time_complexity_of (r : Result) : str :=
  match r with Success d => time_complexity d | Failure _ => [] end.

Definition space_complexity_of (r : Result) : str :=
  match r with Success d => space_complexity d | Failure _ => [] end.

Definition fence : str := lit "```".

(** A label occurs in a text, letters compared without case as the [i] flag
    does. *)
Fixpoint starts_with_ci (p s : str) : bool :=
  match p, s with
  | [], _ => true
  | x :: p', y :: s' => char_eqb (canon y) (canon x) && starts_with_ci p' s'
  | _ :: _, [] => false
  end.

Fixpoint includes_ci (p s : str) : bool :=
  starts_with_ci p s ||
  match s with
  | [] => false
  | _ :: t => includes_ci p t
  end.

Definition has_label (name : string) (content : str) : bool :=
  includes_ci (lit name) content.

(** None of the labels that the coding parser looks for. *)
Definition no_coding_label (content : str) : bool :=
  negb (has_label "Thoughts:" content)
  && negb (has_label "Key Insights:" content)
  && negb (has_label "Reasoning:" content)
  && negb (has_label "Approach:" content)
  && negb (has_label "Time complexity" content)
  && negb (has_label "Space complexity" content).

(** None of the labels that open the commands section of the linux mode,
    and none of those that open the answer of the certification mode. *)
Definition no_commands_label (content : str) : bool :=
  negb (has_label "Solution Commands" content)
  && negb (has_label "Commands" content)
  && negb (has_label "Command" content).

Definition no_answer_label (content : str) : bool :=
  negb (has_label "Answer" content)
  && negb (has_label "Correct Answer" content)
  && negb (has_label "Solution" content).

Definition codingFallbackThoughts : list str :=
  [lit "Solution approach based on efficiency and readability"].

(** A response with one fenced block after some prose: the first fence of
    the response is the one after [pre], the language tag is a run of word
    characters ended by a newline, and the first fence after the tag is the
    one that follows [body]. *)
Definition well_formed_fence (pre tag body : str) : Prop :=
  includes fence (pre ++ lit "``") = false
  /\ forallb is_word tag = true
  /\ includes fence (body ++ lit "``") = false.

Definition fenced (pre tag body post : str) : str :=
  pre ++ fence ++ tag ++ [nl] ++ body ++ fence ++ post.

(** The characters one of which every bullet or numbered item has. *)
Definition is_item_mark (c : char) : bool :=
  char_eqb c 45%N || char_eqb c 42%N || char_eqb c bullet || char_eqb c 46%N.

Definition no_item_mark (s : str) : bool :=
  forallb (fun c => negb (is_item_mark c)) s.

Definition debugFallbackThoughts : list str :=
  [lit "Debug analysis based on your screenshots"].

(** The templates that an unrecognised mode gets from the two builders
    that take the problem. *)
Definition genericSolutionPrompt (problemInfo : ProblemInfo) : str :=
  lit "
Generate a detailed solution for the following problem:

PROBLEM STATEMENT:
" ++ field problemInfo "problem_statement" ++ lit "

I need a comprehensive solution with clear explanations.
".

Definition genericDebugUserPrompt : str :=
  lit "I need help with debugging or improving my solution. Here are screenshots of my code, the errors or test cases. Please provide a detailed analysis with:
1. What issues you found
2. Specific improvements and corrections
3. Any optimizations that would make the solution better
4. A clear explanation of the changes needed".

(** *** A session: OpenAI active, one screenshot queued *)

Definition openaiConfig : Config :=
  mkConfig (lit "openai")
    (mkProviderConfig (lit "sk-openai") (lit "gpt-4o"))
    (mkProviderConfig (lit "sk-ant-claude") (lit "claude-3-opus-20240229"))
    (lit "python") (lit "coding").

(** The same configuration after the user made Claude the provider. *)
Definition claudeConfig : Config :=
  mkConfig (lit "claude")
    (providers_openai openaiConfig) (providers_claude openaiConfig)
    (language openaiConfig) (interviewMode openaiConfig).

Definition idle : State :=
  mkState openaiConfig None true false queue [lit "shot-1.png"] [] None false
    [] None [] None None.

Definition sumProblem : ProblemInfo :=
  {[ "problem_statement"%string := lit "Sum two numbers" ]}.

(** The extraction text parses to [sumProblem]. *)
Definition parseSum (_ : str) : option (option ProblemInfo) :=
  Some (Some sumProblem).

Definition readAll (paths : list str) : list str + JsError :=
  inl (List.map (fun _ => lit "iVBORw0KGgo=") paths).

Definition extractionReply : Reply :=
  FromOpenAI (inl (mkOpenAIReply (Some (lit "{}")) None)).

Definition solutionText : str :=
  lit "```python
def add(a, b):
    return a + b
```
Time complexity: O(1) - constant work
".

Definition openaiSolutionReply : Reply :=
  FromOpenAI (inl (mkOpenAIReply (Some solutionText) None)).

Definition claudeSolutionReply : Reply :=
  FromClaude (inl (mkClaudeReply solutionText 10 20)).

(** The message of the helper for a cancelled request. *)
Definition cancelMessage : str := lit "Processing was canceled by the user.".

(** An error that [axios.isCancel] recognises. *)
Definition cancelError : JsError := mkError (lit "canceled") None None true.

(** Runs an operation on the state that an earlier step left. *)
Definition step {A B} (r : A * State * list Event) (f : A -> Op B)
  : B * State * list Event :=
  f (value_of r) (state_of r).

(** The pending call of a step, when the run is suspended. *)
Definition pending_of (r : Progress * State * list Event) : option Pending :=
  match value_of r with Waiting p => Some p | Finished => None end.

Definition resume_with (reply : Reply) (pr : Progress) : Op Progress :=
  match pr with
  | Waiting p => resume parseSum p reply
  | Finished => ret Finished
  end.

(** The run on [idle] up to the extraction call. *)
Definition started := processScreenshots parseSum readAll idle.

(** The provider is switched while the extraction call is out, then the
    extraction answer arrives. *)
Definition switched :=
  configUpdated claudeConfig (state_of started).
Definition extractedAfterSwitch :=
  resume_with extractionReply (value_of started) (state_of switched).

(** The extraction answer arrives; [cancelOngoingRequests] while the
    solution call is out; the solution answer arrives all the same. *)
Definition extracted := step started (resume_with extractionReply).
Definition cancelledWhileSolving := cancelOngoingRequests (state_of extracted).
Definition solvedAfterLateCancel :=
  resume_with openaiSolutionReply (value_of extracted)
    (state_of cancelledWhileSolving).

(** [cancelOngoingRequests] while the extraction call is out; the answers
    of the provider arrive all the same. *)
Definition cancelled := cancelOngoingRequests (state_of started).
Definition extractedAfterCancel :=
  resume_with extractionReply (value_of started) (state_of cancelled).
Definition solvedAfterCancel :=
  step extractedAfterCancel (resume_with openaiSolutionReply).

(** The provider of an adapter object of the state. *)
Definition provider_at (s : State) (ref : nat) : option str :=
  option_map any_provider (adapters s !! ref).

(** A conversation with two system messages, the first of them in parts:
    two texts around an image. *)
Definition mixedSystemContent : Content :=
  Parts [ TextContent (lit "Be terse");
          ImageContent (lit "data:image/png;base64,AAAA");
          TextContent (lit "Answer in English") ].

Definition mixedConversation : list ModelMessage :=
  [ mkMessage user (Plain (lit "Hello"));
    mkMessage system mixedSystemContent;
    mkMessage assistant (Plain (lit "Hi"));
    mkMessage system (Plain (lit "Be verbose"));
    mkMessage user
      (Parts [ TextContent (lit "Read this");
               ImageContent (lit "data:image/png;base64,QUJD") ]) ].

(** An OpenAI adapter without a key on the model without vision. *)
Definition keylessTextAdapter : Adapter :=
  construct OpenAIProvider [] (lit "gpt-3.5-turbo").

Definition textAdapter : Adapter :=
  construct OpenAIProvider (lit "sk-openai") (lit "gpt-3.5-turbo").

End Scenarios.

(** ** The awaits of a run before its adapter calls
    ([ProcessingHelper.ts])

    Between the start of a run and its first adapter call the source
    awaits three times: the previews of the screenshots ([Promise.all] in
    [processScreenshots]), [getLanguage] and [getInterviewMode] (in the two
    helpers); between the extraction answer and the solution call it
    awaits [getLanguage] (in [generateSolutionsHelper]).  While the run is
    suspended there the [config-updated] listener may run.  The operations
    below are those of [Orchestrator] with these suspension points: each
    takes the configuration changes that arrive during each await, in
    their order.  Only the changes of the configuration are followed; they
    are what replaces [this.modelAdapter]. *)

Module Awaits.

Import JS Adapters Orchestrator.

(** The listener runs once for each change. *)
Fixpoint whileSuspended (changes : list Config) : Op unit :=
  match changes with
  | [] => ret tt
  | c :: later => configUpdated c ;;; whileSuspended later
  end.

Section Run.

Variable JSON_parse : str -> option (option ProblemInfo).
Variable readScreenshots : list str -> list str + JsError.

(** [generateSolutionsHelper] up to the call of [modelAdapter.complete]:
    the problem and the language are read, the run waits for
    [getLanguage], and then it reads [this.modelAdapter]. *)
Definition generateSolutionsHelper (duringLanguage : list Config)
    (signal : nat) (mode : str) (w : bool) : Op (Result + Pending) :=
  let* s0 := get in
  let problemInfo := problemInfo s0 in
  let language := getLanguage s0 in
  whileSuspended duringLanguage ;;;
  let* s := get in
  match problemInfo with
  | None => ret (inl (solutions_catch (Error (lit "No problem info available"))))
  | Some info =>
      match current_adapter s with
      | None =>
          ret (inl (Failure
                     (lit "API key not configured. Please check your settings.")))
      | Some (ref, adapter) =>
          send_if (mainWindow s)
            (processing_status
               (lit "Creating optimal solution with detailed explanations...")
               60) ;;;
          let promptText := createSolutionPromptByMode mode info language in
          let call :=
            any_complete adapter
              [ mkMessage system
                  (Plain (lit "You are an expert coding interview assistant. Provide clear, optimal solutions with detailed explanations."));
                mkMessage user (Plain promptText) ]
              (request_options signal) in
          match call with
          | Throw error => ret (inl (solutions_catch error))
          | _ => ret (inr (mkPending Solving ref signal mode w call))
          end
      end
  end.

(** The run resumes with the outcome of the extraction call. *)
Definition afterExtraction (duringLanguage : list Config) (p : Pending)
    (o : Outcome) : Op Progress :=
  match o with
  | Thrown error => finishPrimary (extraction_catch error)
  | Returned extractionResponse =>
      let jsonText :=
        trim (Regex.remove_all jsonFenceRegex
                (response_content extractionResponse)) in
      match JSON_parse jsonText with
      | None =>
          finishPrimary
            (Failure (lit "Failed to parse problem information. Please try again or use clearer screenshots."))
      | Some info =>
          send_if (p_window p)
            (processing_status
               (lit "Problem analyzed successfully. Preparing to generate solution...")
               40) ;;;
          modify (set_problemInfo info) ;;;
          if p_window p then
            send (PROBLEM_EXTRACTED info) ;;;
            let* r := generateSolutionsHelper duringLanguage (p_signal p)
                        (p_mode p) (p_window p) in
            match r with
            | inl solutionsResult => solutionsDone solutionsResult
            | inr pending => ret (Waiting pending)
            end
          else finishPrimary (Failure (lit "Failed to process screenshots"))
      end
  end.

(** [processScreenshotsHelper] up to the call of [modelAdapter.vision]:
    the run waits for [getLanguage] and for [getInterviewMode], and then
    it reads [this.modelAdapter]. *)
Definition processScreenshotsHelper (duringLanguage duringMode : list Config)
    (imageDataList : list str) (signal : nat) : Op Progress :=
  let* s0 := get in
  let language := getLanguage s0 in
  whileSuspended duringLanguage ;;;
  let* s1 := get in
  let interviewMode := getInterviewMode s1 in
  whileSuspended duringMode ;;;
  let* s2 := get in
  let w := mainWindow s2 in
  (match modelAdapter s2 with
   | None => initializeModelAdapter
   | Some _ => ret tt
   end) ;;;
  let* s := get in
  match current_adapter s with
  | None =>
      finishPrimary
        (Failure
           (lit "API key not configured or invalid. Please check your settings."))
  | Some (ref, adapter) =>
      send_if w
        (processing_status (lit "Analyzing problem from screenshots...") 20) ;;;
      let messages :=
        [ mkMessage system (Plain (createSystemPromptByMode interviewMode));
          mkMessage user
            (Parts
               (TextContent
                  (lit "Extract the problem details from these screenshots. Return in JSON format. Preferred coding language is "
                   ++ language ++ lit ".")
                :: List.map image_part imageDataList)) ] in
      let call := any_vision adapter messages (request_options signal) in
      let p := mkPending Extracting ref signal interviewMode w call in
      match call with
      | Throw error => afterExtraction [] p (Thrown error)
      | _ => ret (Waiting p)
      end
  end.

(** [processExtraScreenshotsHelper] up to the call of
    [modelAdapter.vision]: the problem is read first, the run waits for
    [getLanguage] and for [getInterviewMode], and then it reads
    [this.modelAdapter]. *)
Definition processExtraScreenshotsHelper
    (duringLanguage duringMode : list Config) (imageDataList : list str)
    (signal : nat) : Op Progress :=
  let* s0 := get in
  let problemInfo := problemInfo s0 in
  let language := getLanguage s0 in
  whileSuspended duringLanguage ;;;
  let* s1 := get in
  let interviewMode := getInterviewMode s1 in
  whileSuspended duringMode ;;;
  let* s := get in
  let w := mainWindow s in
  match problemInfo with
  | None => finishDebug (debug_catch (Error (lit "No problem info available")))
  | Some info =>
      match current_adapter s with
      | None =>
          finishDebug
            (Failure
               (lit "API key not configured. Please check your settings."))
      | Some (ref, adapter) =>
          send_if w
            (processing_status (lit "Processing debug screenshots...") 30) ;;;
          let messages :=
            [ mkMessage system
                (Plain (createDebugSystemPromptByMode interviewMode));
              mkMessage user
                (Parts
                   (TextContent
                      (createDebugUserPromptByMode interviewMode info
                         language)
                    :: List.map image_part imageDataList)) ] in
          send_if w
            (processing_status
               (lit "Analyzing code and generating debug feedback...") 60) ;;;
          let call := any_vision adapter messages (request_options signal) in
          let p := mkPending Debugging ref signal interviewMode w call in
          match call with
          | Throw error => afterDebug p (Thrown error)
          | _ => ret (Waiting p)
          end
      end
  end.

(** [processScreenshots] up to the first adapter call: the run waits for
    the previews of the screenshots, then for what the helper awaits. *)
Definition processScreenshots
    (duringRead duringLanguage duringMode : list Config) : Op Progress :=
  let* s0 := get in
  if negb (mainWindow s0) then ret Finished else
  (match modelAdapter s0 with
   | None => initializeModelAdapter
   | Some _ => ret tt
   end) ;;;
  let* s := get in
  match modelAdapter s with
  | None => send API_KEY_INVALID ;;; ret Finished
  | Some _ =>
      match view s with
      | queue =>
          send INITIAL_START ;;;
          match screenshotQueue s with
          | [] => send NO_SCREENSHOTS ;;; ret Finished
          | _ :: _ =>
              let* c := newController in
              modify (set_currentProcessingAbortController (Some c)) ;;;
              whileSuspended duringRead ;;;
              match readScreenshots (screenshotQueue s) with
              | inr error => primary_catch error
              | inl imageDataList =>
                  processScreenshotsHelper duringLanguage duringMode
                    imageDataList c
              end
          end
      | solutions =>
          match extraScreenshotQueue s with
          | [] => send NO_SCREENSHOTS ;;; ret Finished
          | _ :: _ =>
              send DEBUG_START ;;;
              let* c := newController in
              modify (set_currentExtraProcessingAbortController (Some c)) ;;;
              whileSuspended duringRead ;;;
              match readScreenshots
                      (screenshotQueue s ++ extraScreenshotQueue s) with
              | inr error => debug_outer_catch error
              | inl imageDataList =>
                  processExtraScreenshotsHelper duringLanguage duringMode
                    imageDataList c
              end
          end
      end
  end.

(** The provider answers a pending call; [duringLanguage] are the changes
    that arrive while the run, resumed after its extraction call, waits
    for [getLanguage]. *)
Definition resume (duringLanguage : list Config) (p : Pending) (r : Reply)
  : Op Progress :=
  match outcome_of (p_call p) r with
  | None => ret (Waiting p)
  | Some o =>
      match p_stage p with
      | Extracting => afterExtraction duringLanguage p o
      | Solving => afterSolution p o
      | Debugging => afterDebug p o
      end
  end.

End Run.

End Awaits.

(** ** The configuration store ([ConfigHelper.ts]) *)

Module ConfigHelper.

Import JS Adapters.

Definition ModelProviderConfig := Orchestrator.ModelProviderConfig.
Definition mkProviderConfig := Orchestrator.mkProviderConfig.
Definition cfg_apiKey := Orchestrator.cfg_apiKey.
Definition cfg_model := Orchestrator.cfg_model.

Inductive LaunchMode : Type := visible | invisible.

(** The interface [Config].  The two last fields are the keys [apiKey]
    and [extractionModel] of the single-provider format: the interface
    does not declare them, an object read from an old file carries them
    along. *)
Record Config := mkConfig {
  activeProvider : str;
  openai : ModelProviderConfig;
  claude : ModelProviderConfig;
  language : str;
  opacity : Q;
  interviewMode : str;
  launchMode : LaunchMode;
  old_apiKey : option str;
  old_extractionModel : option str
}.

(** The object that [JSON.parse] yields for the file: any key may be
    absent, a key that is there holds a value of its type. *)
Record FileProviders := mkFileProviders {
  file_openai : option ModelProviderConfig;
  file_claude : option ModelProviderConfig
}.

Record FileConfig := mkFileConfig {
  file_activeProvider : option str;
  file_providers : option FileProviders;
  file_language : option str;
  file_opacity : option Q;
  file_interviewMode : option str;
  file_launchMode : option LaunchMode;
  file_apiKey : option str;
  file_extractionModel : option str
}.

(** [JSON.stringify(config)] read back. *)
Definition stringify (c : Config) : FileConfig :=
  {| file_activeProvider := Some (activeProvider c);
     file_providers := Some (mkFileProviders (Some (openai c)) (Some (claude c)));
     file_language := Some (language c);
     file_opacity := Some (opacity c);
     file_interviewMode := Some (interviewMode c);
     file_launchMode := Some (launchMode c);
     file_apiKey := old_apiKey c;
     file_extractionModel := old_extractionModel c |}.

(** [Partial<ModelProviderConfig>] *)
Record ProviderUpdate := mkProviderUpdate {
  upd_apiKey : option str;
  upd_model : option str
}.

(** [updates.providers]: the entries it names. *)
Record ProvidersUpdate := mkProvidersUpdate {
  upd_openai : option ProviderUpdate;
  upd_claude : option ProviderUpdate
}.

(** [Partial<Config>]: the argument of [updateConfig]. *)
Record Update := mkUpdate {
  upd_activeProvider : option str;
  upd_providers : option ProvidersUpdate;
  upd_language : option str;
  upd_opacity : option Q;
  upd_interviewMode : option str;
  upd_launchMode : option LaunchMode
}.

(** The file at [configPath]: absent, not parseable, or holding an
    object. *)
Inductive Disk : Type :=
| Missing
| Unreadable
| Stored (c : FileConfig).

(** The helper object.  [defaultConfig] is a field of it, and
    [loadConfig] hands out that very object when it has no file to read;
    the only assignments that reach the object are those to the two
    entries of its [providers], so these are what the helper holds, and
    the other keys are the ones of the initializer. *)
Record Helper := mkHelper {
  default_openai : ModelProviderConfig;
  default_claude : ModelProviderConfig;
  disk : Disk
}.

Definition defaultConfig (h : Helper) : Config :=
  {| activeProvider := lit "openai";
     openai := default_openai h;
     claude := default_claude h;
     language := lit "python";
     opacity := (1 # 1)%Q;
     interviewMode := lit "coding";
     launchMode := invisible;
     old_apiKey := None;
     old_extractionModel := None |}.

(** The initializer of [defaultConfig]. *)
Definition initialDefaultConfig : Config :=
  {| activeProvider := lit "openai";
     openai := mkProviderConfig [] (lit "gpt-4o");
     claude := mkProviderConfig [] (lit "claude-3-sonnet-20240229");
     language := lit "python";
     opacity := (1 # 1)%Q;
     interviewMode := lit "coding";
     launchMode := invisible;
     old_apiKey := None;
     old_extractionModel := None |}.

(** The helper as its field initializers leave it. *)
Definition new_helper (d : Disk) : Helper :=
  mkHelper (mkProviderConfig [] (lit "gpt-4o"))
    (mkProviderConfig [] (lit "claude-3-sonnet-20240229")) d.

(** One key of [{...a, ...b}]: the value of [b] when [b] has the key. *)
Definition over {A} (a : A) (b : option A) : A :=
  match b with
  | Some x => x
  | None => a
  end.

(** [{...dflt, ...config, providers: {...dflt.providers,
    ...config.providers}}] *)
Definition merge (dflt : Config) (config : FileConfig) : Config :=
  {| activeProvider := over (activeProvider dflt) (file_activeProvider config);
     openai :=
       match file_providers config with
       | Some ps => over (openai dflt) (file_openai ps)
       | None => openai dflt
       end;
     claude :=
       match file_providers config with
       | Some ps => over (claude dflt) (file_claude ps)
       | None => claude dflt
       end;
     language := over (language dflt) (file_language config);
     opacity := over (opacity dflt) (file_opacity config);
     interviewMode := over (interviewMode dflt) (file_interviewMode config);
     launchMode := over (launchMode dflt) (file_launchMode config);
     old_apiKey :=
       match file_apiKey config with
       | Some k => Some k
       | None => old_apiKey dflt
       end;
     old_extractionModel :=
       match file_extractionModel config with
       | Some m => Some m
       | None => old_extractionModel dflt
       end |}.

(** [saveConfig]: the directory is made and the file written; both are
    taken to succeed. *)
Definition saveConfig (config : Config) (h : Helper) : Helper :=
  mkHelper (default_openai h) (default_claude h) (Stored (stringify config)).

(** [loadRawConfig]: [None] is [null]. *)
Definition loadRawConfig (h : Helper) : option FileConfig :=
  match disk h with
  | Stored c => Some c
  | Missing | Unreadable => None
  end.

(** [o || dflt] for a string that may be absent. *)
Definition string_or (o : option str) (dflt : str) : str :=
  match o with
  | Some s => or_else s dflt
  | None => dflt
  end.

(** [o || 1.0] *)
Definition opacity_or_one (o : option Q) : Q :=
  match o with
  | Some q => if Qeq_bool q (0 # 1) then (1 # 1)%Q else q
  | None => (1 # 1)%Q
  end.

(** The object that [migrateConfig] builds from an old one. *)
Definition migrated (oldConfig : FileConfig) : Config :=
  {| activeProvider := lit "openai";
     openai :=
       mkProviderConfig
         (string_or (file_apiKey oldConfig) [])
         (string_or (file_extractionModel oldConfig) (lit "gpt-4o"));
     claude := mkProviderConfig [] (lit "claude-3-sonnet-20240229");
     language := string_or (file_language oldConfig) (lit "python");
     opacity := opacity_or_one (file_opacity oldConfig);
     interviewMode := lit "coding";
     launchMode := invisible;
     old_apiKey := None;
     old_extractionModel := None |}.

(** [migrateConfig]: a file of the old format, with [apiKey] and without
    [providers], is rewritten in the new one. *)
Definition migrateConfig (h : Helper) : Helper :=
  match loadRawConfig h with
  | Some oldConfig =>
      match file_apiKey oldConfig, file_providers oldConfig with
      | Some _, None => saveConfig (migrated oldConfig) h
      | _, _ => h
      end
  | None => h
  end.

(** [ensureConfigExists] *)
Definition ensureConfigExists (h : Helper) : Helper :=
  match disk h with
  | Missing => saveConfig (defaultConfig h) h
  | Unreadable | Stored _ => migrateConfig h
  end.

(** [new ConfigHelper()] over the file system as it is found. *)
Definition construct (d : Disk) : Helper :=
  ensureConfigExists (new_helper d).

(** Whether the object that [loadConfig] returned is [this.defaultConfig]
    itself or a new one. *)
Inductive Origin : Type := Fresh | TheDefault.

(** [loadConfig], with the identity of the object it returns. *)
Definition loadConfig_object (h : Helper) : Config * Origin * Helper :=
  match disk h with
  | Stored config => (merge (defaultConfig h) config, Fresh, h)
  | Missing => (defaultConfig h, TheDefault, saveConfig (defaultConfig h) h)
  | Unreadable => (defaultConfig h, TheDefault, h)
  end.

Definition loadConfig (h : Helper) : Config * Helper :=
  let '(c, _, h') := loadConfig_object h in (c, h').

(** [{...providerConfig, ...updates}] *)
Definition update_provider (p : ModelProviderConfig) (u : ProviderUpdate)
  : ModelProviderConfig :=
  mkProviderConfig (over (cfg_apiKey p) (upd_apiKey u))
    (over (cfg_model p) (upd_model u)).

(** One round of the loop of [updateConfig]. *)
Definition update_entry (current : ModelProviderConfig)
    (u : option ProviderUpdate) : ModelProviderConfig :=
  match u with
  | Some u => update_provider current u
  | None => current
  end.

Definition set_providers (o c : ModelProviderConfig) (cfg : Config) : Config :=
  mkConfig (activeProvider cfg) o c (language cfg) (opacity cfg)
    (interviewMode cfg) (launchMode cfg) (old_apiKey cfg)
    (old_extractionModel cfg).

(** An assignment to [currentConfig.providers[provider]] reaches
    [defaultConfig] when [currentConfig] is that object. *)
Definition assign_providers (origin : Origin) (o c : ModelProviderConfig)
    (h : Helper) : Helper :=
  match origin with
  | TheDefault => mkHelper o c (disk h)
  | Fresh => h
  end.

(** What an operation of the helper yields: its value, the helper
    afterwards, and the payloads of the [config-updated] events it
    emitted. *)
Definition Outcome (A : Type) : Type := A * Helper * list Config.

Definition value {A} (r : Outcome A) : A := fst (fst r).
Definition helper_after {A} (r : Outcome A) : Helper := snd (fst r).
Definition emitted {A} (r : Outcome A) : list Config := snd r.

(** [updateConfig]; nothing in its [try] block throws here, so the
    [catch] block is not reached. *)
Definition updateConfig (updates : Update) (h : Helper) : Outcome Config :=
  let '(loaded, origin, h1) := loadConfig_object h in
  let '(currentConfig, h2) :=
    match upd_providers updates with
    | Some ps =>
        let o := update_entry (openai loaded) (upd_openai ps) in
        let c := update_entry (claude loaded) (upd_claude ps) in
        (set_providers o c loaded, assign_providers origin o c h1)
    | None => (loaded, h1)
    end in
  let newConfig :=
    {| activeProvider :=
         over (activeProvider currentConfig) (upd_activeProvider updates);
       openai := openai currentConfig;
       claude := claude currentConfig;
       language := over (language currentConfig) (upd_language updates);
       opacity := over (opacity currentConfig) (upd_opacity updates);
       interviewMode :=
         over (interviewMode currentConfig) (upd_interviewMode updates);
       launchMode := over (launchMode currentConfig) (upd_launchMode updates);
       old_apiKey := old_apiKey currentConfig;
       old_extractionModel := old_extractionModel currentConfig |} in
  (newConfig, saveConfig newConfig h2, [newConfig]).

(** [config.providers[provider]] for a provider name; [None] is
    [undefined].  The parameter has the type [ModelProvider], whose values
    are the two names below, and [providers] is an object with these two
    keys.  A name outside the type is given [undefined] here; on the
    object of the source a name that [Object.prototype] supplies, such as
    [constructor], is not [undefined], so the statements about this lookup
    are made for the names of the type. *)
Definition provider_entry (c : Config) (provider : str)
  : option ModelProviderConfig :=
  if JS.eqb provider (lit "openai") then Some (openai c)
  else if JS.eqb provider (lit "claude") then Some (claude c)
  else None.

(** [updateProviderConfig] *)
Definition updateProviderConfig (provider : str) (updates : ProviderUpdate)
    (h : Helper) : Outcome Config :=
  let '(loaded, origin, h1) := loadConfig_object h in
  match provider_entry loaded provider with
  | Some providerConfig =>
      let entry := update_provider providerConfig updates in
      let o :=
        if JS.eqb provider (lit "openai") then entry else openai loaded in
      let c :=
        if JS.eqb provider (lit "openai") then claude loaded else entry in
      let currentConfig := set_providers o c loaded in
      (currentConfig,
       saveConfig currentConfig (assign_providers origin o c h1),
       [currentConfig])
  | None => (loaded, h1, [])
  end.

Definition only_activeProvider (provider : str) : Update :=
  mkUpdate (Some provider) None None None None None.
Definition only_language (l : str) : Update :=
  mkUpdate None None (Some l) None None None.
Definition only_interviewMode (mode : str) : Update :=
  mkUpdate None None None None (Some mode) None.
Definition only_launchMode (mode : LaunchMode) : Update :=
  mkUpdate None None None None None (Some mode).

Definition discard {A} (r : Outcome A) : Outcome unit :=
  let '(_, h, e) := r in (tt, h, e).

Definition getActiveProvider (h : Helper) : str * Helper :=
  let '(c, h') := loadConfig h in (activeProvider c, h').

Definition setActiveProvider (provider : str) (h : Helper) : Outcome unit :=
  discard (updateConfig (only_activeProvider provider) h).

Definition getProviderConfig (provider : str) (h : Helper)
  : option ModelProviderConfig * Helper :=
  let '(c, h') := loadConfig h in (provider_entry c provider, h').

(** [hasApiKey(provider?)] *)
Definition hasApiKey (provider : option str) (h : Helper) : bool * Helper :=
  let '(config, h') := loadConfig h in
  let providerToCheck :=
    match provider with
    | Some p => or_else p (activeProvider config)
    | None => activeProvider config
    end in
  (match provider_entry config providerToCheck with
   | Some providerConfig =>
       truthy (cfg_apiKey providerConfig)
       && (0 <? length (trim (cfg_apiKey providerConfig)))
   | None => false
   end, h').

(** [a{n,}] *)
Fixpoint at_least (n : nat) (a : Regex.re) : Regex.re :=
  match n with
  | O => Regex.Star true a
  | S n' => Regex.Seq a (at_least n' a)
  end.

(** [a-zA-Z0-9] *)
Definition is_alnum (c : char) : bool := is_lower c || is_upper c || is_digit c.

(** Pattern: "/^sk-[a-zA-Z0-9]{32,}$/" *)
Definition openaiKeyRegex : Regex.re :=
  Regex.seqs [Regex.Bol; Regex.text "sk-"; at_least 32 (Regex.Cls is_alnum);
              Regex.Eol].

(** Pattern: "/^sk-ant-[a-zA-Z0-9]{24,}$/" *)
Definition claudeKeyRegex : Regex.re :=
  Regex.seqs [Regex.Bol; Regex.text "sk-ant-";
              at_least 24 (Regex.Cls is_alnum); Regex.Eol].

(** [r.test(s)] *)
Definition test (r : Regex.re) (s : str) : bool :=
  match Regex.exec r s with
  | Some _ => true
  | None => false
  end.

(** [isValidApiKeyFormat] *)
Definition isValidApiKeyFormat (apiKey provider : str) : bool :=
  if negb (truthy apiKey) || Nat.eqb (length (trim apiKey)) 0 then false
  else if JS.eqb provider (lit "openai") then test openaiKeyRegex (trim apiKey)
  else if JS.eqb provider (lit "claude") then test claudeKeyRegex (trim apiKey)
  else 10 <? length (trim apiKey).

Definition getLanguage (h : Helper) : str * Helper :=
  let '(c, h') := loadConfig h in (or_else (language c) (lit "python"), h').

Definition setLanguage (l : str) (h : Helper) : Outcome unit :=
  discard (updateConfig (only_language l) h).

Definition getInterviewMode (h : Helper) : str * Helper :=
  let '(c, h') := loadConfig h in
  (or_else (interviewMode c) (lit "coding"), h').

Definition setInterviewMode (mode : str) (h : Helper) : Outcome unit :=
  discard (updateConfig (only_interviewMode mode) h).

(** Both launch modes are truthy strings. *)
Definition getLaunchMode (h : Helper) : LaunchMode * Helper :=
  let '(c, h') := loadConfig h in (launchMode c, h').

Definition setLaunchMode (mode : LaunchMode) (h : Helper) : Outcome unit :=
  discard (updateConfig (only_launchMode mode) h).

(** What the orchestrator reads of a loaded configuration. *)
Definition for_orchestrator (c : Config) : Orchestrator.Config :=
  Orchestrator.mkConfig (activeProvider c) (openai c) (claude c) (language c)
    (interviewMode c).

End ConfigHelper.

(** ** Showing and testing API keys *)

Module Keys.

Import JS Adapters.

(** [s.substring(a)] and [s.substring(0, b)]; an index below zero counts
    as zero, which is what the truncated subtraction gives. *)
Definition substring_from (a : nat) (s : str) : str := skipn a s.
Definition substring_to (b : nat) (s : str) : str := firstn b s.

(** [getApiKey] of both adapters. *)
Definition getApiKey (a : Adapter) : str :=
  if negb (truthy (apiKey a)) then []
  else substring_to 4 (apiKey a) ++ lit "..."
       ++ substring_from (length (apiKey a) - 4) (apiKey a).

(** [maskApiKey] of the settings dialog. *)
Definition maskApiKey (key : str) : str :=
  if negb (truthy key) || (length key <? 10) then []
  else substring_to 4 key ++ lit "..." ++ substring_from (length key - 4) key.

(** [{ valid, error? }] *)
Record KeyTest := mkKeyTest {
  valid : bool;
  error : option str
}.

(** The request of a key test, with the key of the client that sends it:
    [models.list()] for OpenAI, a short message for Claude. *)
Inductive ProbeRequest : Type :=
| ModelsList (key : str)
| TestMessage (key : str) (model : str) (max_tokens : N)
    (messages : list (Role * str)).

(** A key test answers at once, or sends one request and answers from
    what comes back: [None] when the request succeeds, the error
    otherwise. *)
Inductive Probe : Type :=
| Answered (r : KeyTest)
| Probing (req : ProbeRequest) (k : option JsError -> KeyTest).

(** The [catch] block of [testApiKey]; the two adapters differ in the
    message for status 500. *)
Definition test_catch (serverError : string) (error : JsError) : KeyTest :=
  mkKeyTest false
    (Some
       (if bool_decide (status error = Some 401%N)
        then lit "Invalid API key. Please check your key and try again."
        else if bool_decide (status error = Some 429%N)
        then lit "Rate limit exceeded. Your API key has reached its request limit or has insufficient quota."
        else if bool_decide (status error = Some 500%N)
        then lit serverError
        else if truthy (message error)
        then lit "Error: " ++ message error
        else lit "Unknown error validating API key")).

Definition after_probe (serverError : string) (r : option JsError) : KeyTest :=
  match r with
  | None => mkKeyTest true None
  | Some error => test_catch serverError error
  end.

(** [OpenAIAdapter.testApiKey] *)
Definition openai_testApiKey (key : str) : Probe :=
  Probing (ModelsList key)
    (after_probe "OpenAI server error. Please try again later.").

(** [ClaudeAdapter.testApiKey] *)
Definition claude_testApiKey (key : str) : Probe :=
  Probing
    (TestMessage key (lit "claude-3-haiku-20240307") 10 [(user, lit "Test")])
    (after_probe "Claude API server error. Please try again later.").

Definition any_testApiKey (x : AnyAdapter) (key : str) : Probe :=
  match x with
  | OpenAI _ => openai_testApiKey key
  | Claude _ => claude_testApiKey key
  end.

(** [ConfigHelper.testApiKey] *)
Definition testApiKey (key provider : str) : Probe :=
  let model :=
    if JS.eqb provider (lit "openai") then lit "gpt-4o"
    else lit "claude-3-haiku-20240307" in
  match createModelAdapter provider key model with
  | inl adapter => any_testApiKey adapter key
  | inr error =>
      Answered
        (mkKeyTest false
           (Some (or_else (message error)
                    (lit "Unknown error testing " ++ provider
                     ++ lit " API key"))))
  end.

(** The result once the provider has answered the request, if one was
    sent. *)
Definition conclude (p : Probe) (answer : option JsError) : KeyTest :=
  match p with
  | Answered r => r
  | Probing _ k => k answer
  end.

Definition probe_request (p : Probe) : option ProbeRequest :=
  match p with
  | Answered _ => None
  | Probing req _ => Some req
  end.

Definition request_key (req : ProbeRequest) : str :=
  match req with
  | ModelsList key | TestMessage key _ _ _ => key
  end.

End Keys.

(** ** The model lists of the factory ([ModelFactory.ts]) *)

Module ModelFactory.

Import JS Adapters.

(** [{ id, name, description }] *)
Record Choice := mkChoice {
  id : str;
  name : str;
  description : str
}.

Definition choice (i n d : string) : Choice := mkChoice (lit i) (lit n) (lit d).

Definition getDefaultModel (provider : str) : str + JsError :=
  if JS.eqb provider (lit "openai") then inl (lit "gpt-4o")
  else if JS.eqb provider (lit "claude")
  then inl (lit "claude-3-sonnet-20240229")
  else inr (Error (lit "Unsupported model provider: " ++ provider)).

Definition claudeChoices : list Choice :=
  [ choice "claude-3-opus-20240229" "Claude 3 Opus"
      "Most powerful Claude model";
    choice "claude-3-sonnet-20240229" "Claude 3 Sonnet"
      "Great balance of intelligence and speed";
    choice "claude-3-haiku-20240307" "Claude 3 Haiku"
      "Fastest Claude model, good for quick responses";
    choice "claude-3-5-sonnet-20240620" "Claude 3.5 Sonnet"
      "Latest Claude with improved capabilities" ].

Definition getAvailableModels (provider : str) : list Choice :=
  if JS.eqb provider (lit "openai") then
    [ choice "gpt-4o" "GPT-4o" "Best overall performance, supports images";
      choice "gpt-4o-mini" "GPT-4o Mini"
        "Faster, more cost-effective option with vision";
      choice "gpt-4-turbo" "GPT-4 Turbo"
        "Advanced capabilities with vision support";
      choice "gpt-3.5-turbo" "GPT-3.5 Turbo"
        "Fast and efficient for text-only tasks" ]
  else if JS.eqb provider (lit "claude") then claudeChoices
  else [].

End ModelFactory.

(** ** The handlers of the main process ([ipcHandlers.ts]) *)

Module Ipc.

Import JS Adapters Orchestrator.

(** The two singletons that the handlers work on: the configuration
    store, and the processing helper with what it reads through [deps]. *)
Record Main := mkMain {
  store : ConfigHelper.Helper;
  processing : State
}.

(** The processing helper calls [configHelper.loadConfig()]: its view of
    the configuration is what the store returns now. *)
Definition reload (m : Main) : Main :=
  let '(c, h) := ConfigHelper.loadConfig (store m) in
  mkMain h (set_config (ConfigHelper.for_orchestrator c) (processing m)).

(** The listener for [config-updated] that the processing helper
    registers: it loads the configuration and rebuilds the adapter. *)
Definition on_config_updated (m : Main) : Main :=
  let m1 := reload m in
  mkMain (store m1) (state_of (initializeModelAdapter (processing m1))).

(** ["get-config"] *)
Definition get_config (m : Main) : ConfigHelper.Config * Main :=
  let '(c, h) := ConfigHelper.loadConfig (store m) in
  (c, mkMain h (processing m)).

(** ["update-config"]: the listener runs once for every event emitted. *)
Definition update_config (updates : ConfigHelper.Update) (m : Main)
  : ConfigHelper.Config * Main :=
  let '(c, h, emitted) := ConfigHelper.updateConfig updates (store m) in
  (c, fold_left (fun m _ => on_config_updated m) emitted
        (mkMain h (processing m))).

(** ["check-api-key"] *)
Definition check_api_key (m : Main) : bool * Main :=
  let '(b, h) := ConfigHelper.hasApiKey None (store m) in
  (b, mkMain h (processing m)).

(** ["validate-api-key"]; the provider defaults to OpenAI. *)
Definition validate_api_key (key : str) (provider : option str)
  : Keys.Probe :=
  let provider := ConfigHelper.over (lit "openai") provider in
  if negb (ConfigHelper.isValidApiKeyFormat key provider) then
    Keys.Answered
      (Keys.mkKeyTest false
         (Some
            (if JS.eqb provider (lit "openai")
             then lit "Invalid API key format. OpenAI API keys start with 'sk-'"
             else if JS.eqb provider (lit "claude")
             then lit "Invalid API key format. Claude API keys start with 'sk-ant-'"
             else lit "Invalid API key format.")))
  else Keys.testApiKey key provider.

Section Handlers.

Variable JSON_parse : str -> option (option ProblemInfo).
Variable readScreenshots : list str -> list str + JsError.

(** ["process-screenshots"] and ["trigger-process-screenshots"] up to the
    first adapter call: the key of the active provider is checked before
    the processing helper is called. *)
Definition process_screenshots (m : Main) : Progress * Main * list Event :=
  let '(config, h) := ConfigHelper.loadConfig (store m) in
  let activeProvider := ConfigHelper.activeProvider config in
  let '(hasKey, h) := ConfigHelper.hasApiKey (Some activeProvider) h in
  if negb hasKey then
    let '(_, s, e) := send_if (mainWindow (processing m)) API_KEY_INVALID
                        (processing m) in
    (Finished, mkMain h s, e)
  else
    let m1 := reload (mkMain h (processing m)) in
    let '(p, s, e) :=
      processScreenshots JSON_parse readScreenshots (processing m1) in
    (p, mkMain (store m1) s, e).

End Handlers.

(** ["get-available-models"] *)
Definition get_available_models (provider : str) : list ModelFactory.Choice :=
  if JS.eqb provider (lit "openai") then
    [ ModelFactory.choice "gpt-4o" "GPT-4o"
        "Best overall performance, supports images";
      ModelFactory.choice "gpt-4o-mini" "GPT-4o Mini"
        "Faster, more cost-effective option";
      ModelFactory.choice "gpt-4-turbo" "GPT-4 Turbo"
        "Advanced capabilities with vision support";
      ModelFactory.choice "gpt-3.5-turbo" "GPT-3.5 Turbo"
        "Fast and efficient for text-only tasks" ]
  else if JS.eqb provider (lit "claude") then ModelFactory.claudeChoices
  else [].

(** ["get-interview-modes"] *)
Definition get_interview_modes : list ModelFactory.Choice :=
  [ ModelFactory.choice "coding" "Coding Algorithms"
      "Standard coding algorithm problems";
    ModelFactory.choice "system_design" "System Design"
      "System architecture and design questions";
    ModelFactory.choice "react" "React Frontend"
      "React component and UI implementation";
    ModelFactory.choice "sql" "SQL"
      "Database query and schema design questions";
    ModelFactory.choice "linux" "Linux/Kernel"
      "Command-line and system administration problems";
    ModelFactory.choice "certification" "Certification Exam"
      "Multiple choice, fill-in-blank, and other exam formats" ].

(** ["set-interview-mode"] and ["get-interview-mode"] *)
Definition set_interview_mode (mode : str) (m : Main) : Main :=
  let '(_, h, emitted) := ConfigHelper.setInterviewMode mode (store m) in
  fold_left (fun m _ => on_config_updated m) emitted
    (mkMain h (processing m)).

Definition get_interview_mode (m : Main) : str * Main :=
  let '(mode, h) := ConfigHelper.getInterviewMode (store m) in
  (mode, mkMain h (processing m)).

End Ipc.

(** ** Waiting for the window ([waitForInitialization]) *)

Module Startup.

Import JS Adapters.

(** [polls i] is what the window answers to the read of
    [window.__IS_INITIALIZED__] after [i] waits of 100 ms; the reads
    themselves are taken to succeed.  The loop returns the number of
    waits it made, or throws. *)
Fixpoint wait_loop (polls : nat -> bool) (attempts remaining : nat)
  : nat + JsError :=
  match remaining with
  | O => inr (Error (lit "App failed to initialize after 5 seconds"))
  | S remaining' =>
      if polls attempts then inl attempts
      else wait_loop polls (S attempts) remaining'
  end.

Definition maxAttempts : nat := 50.

Definition waitForInitialization (polls : nat -> bool) : nat + JsError :=
  wait_loop polls 0 maxAttempts.

(** [getCredits] *)
Definition getCredits (mainWindow : bool) (polls : nat -> bool) : N :=
  if negb mainWindow then 999%N
  else match waitForInitialization polls with
       | inl _ => 999%N
       | inr _ => 999%N
       end.

End Startup.

(** ** Vocabulary of the statements about the code above *)

Module Terms.

Import JS Adapters.

(** A text that starts with [pre] and goes on to its end with characters
    of the class [p], at least [m] of them. *)
Definition prefixed (pre : string) (p : char -> bool) (m : nat) (s : str)
  : bool :=
  starts_with (lit pre) s
  && forallb p (skipn (length (lit pre)) s)
  && (m <=? length s - length (lit pre)).

(** [config.providers[provider]] of the object read from a file, for the
    two providers that the configuration declares; [None] when the file
    has no [providers] or its [providers] has no such key. *)
Definition file_entry (f : ConfigHelper.FileConfig) (provider : str)
  : option ConfigHelper.ModelProviderConfig :=
  match ConfigHelper.file_providers f with
  | Some ps =>
      if JS.eqb provider (lit "openai") then ConfigHelper.file_openai ps
      else if JS.eqb provider (lit "claude") then ConfigHelper.file_claude ps
      else None
  | None => None
  end.

(** A file written before the Claude entry existed: its [providers] has
    the OpenAI entry only. *)
Definition openaiOnlyFile : ConfigHelper.FileConfig :=
  ConfigHelper.mkFileConfig (Some (lit "openai"))
    (Some (ConfigHelper.mkFileProviders
             (Some (ConfigHelper.mkProviderConfig (lit "sk-openai")
                      (lit "gpt-4o")))
             None))
    (Some (lit "python")) None None None None None.

(** The adapter objects number at least [n], and the current one, if
    there is one, is not among the first [n]: it was built after them. *)
Definition built_since (n : nat) (s : Orchestrator.State) : Prop :=
  n <= length (Orchestrator.adapters s)
  /\ forall i, Orchestrator.modelAdapter s = Some i -> n <= i.

(** The state after the check [if (!this.modelAdapter)
    this.initializeModelAdapter()]. *)
Definition ensure_adapter (s : Orchestrator.State) : Orchestrator.State :=
  Orchestrator.state_of
    ((match Orchestrator.modelAdapter s with
      | None => Orchestrator.initializeModelAdapter
      | Some _ => Orchestrator.ret tt
      end) s).

(** The session of [Scenarios.idle] once its adapter is built: the
    OpenAI adapter is the current one. *)
Definition ready : Orchestrator.State :=
  Orchestrator.state_of (Orchestrator.initializeModelAdapter Scenarios.idle).

(** A run starts on [ready]; the provider is switched to Claude while the
    run waits for the previews of its screenshots. *)
Definition startedDuringSwitch :=
  Awaits.processScreenshots Scenarios.parseSum Scenarios.readAll
    [Scenarios.claudeConfig] [] [] ready.

(** The call that the run of [startedDuringSwitch] waits for. *)
Definition switchedPending : Orchestrator.Pending :=
  match Orchestrator.value_of startedDuringSwitch with
  | Orchestrator.Waiting p => p
  | Orchestrator.Finished =>
      Orchestrator.mkPending Orchestrator.Extracting 0 0 [] false
        (Throw Scenarios.cancelError)
  end.

(** *** The items of a debug response

    What the item pattern of the debug pass,
    "/(?:^|\n)[ ]*(?:[-*•]|\d+\.)[ ]+([^\n]+)/g", asks of a line. *)

Fixpoint drop_while (p : char -> bool) (s : str) : str :=
  match s with
  | c :: t => if p c then drop_while p t else s
  | [] => []
  end.

(** A dash, a star or a bullet. *)
Definition marker_class (c : char) : bool :=
  char_eqb c 45%N || char_eqb c 42%N || char_eqb c bullet.

(** What follows the marker at the start of a text: one character of the
    marker class, or digits and a dot. *)
Definition after_marker (s : str) : option str :=
  match s with
  | c :: t =>
      if marker_class c then Some t
      else if is_digit c then
        match drop_while is_digit t with
        | d :: t' => if char_eqb 46%N d then Some t' else None
        | [] => None
        end
      else None
  | [] => None
  end.

(** A line is an item when, after spaces if any, it has a marker, a space
    and at least one more character.  Its text is what follows the spaces
    after the marker. *)
Definition item_text (line : str) : option str :=
  match after_marker (drop_while (char_eqb 32%N) line) with
  | Some (b :: c :: t) =>
      if char_eqb 32%N b then Some (drop_while (char_eqb 32%N) (c :: t))
      else None
  | _ => None
  end.

Definition is_item (line : str) : bool :=
  match item_text line with Some _ => true | None => false end.

(** The lines of a text: the pieces between its newlines. *)
Fixpoint lines_of (s : str) : list str :=
  match s with
  | [] => [[]]
  | c :: t =>
      if char_eqb c nl then [] :: lines_of t
      else match lines_of t with
           | l :: ls => (c :: l) :: ls
           | [] => [[c]]
           end
  end.

Definition no_newline (line : str) : bool :=
  forallb (fun c => negb (char_eqb c nl)) line.

(** What comes after a line: the end of the text, or a newline. *)
Definition at_line_end (t : str) : Prop :=
  match t with
  | d :: _ => d = nl
  | [] => True
  end.

(** The text after the first line: each later line with the newline
    before it. *)
Definition following_lines (lines : list str) : str :=
  flat_map (cons nl) lines.

(** The texts that the item pattern matches in a text with these lines:
    the item lines, each but the first line of the text with the newline
    before it. *)
Definition item_matches (lines : list str) : list str :=
  match lines with
  | [] => []
  | first :: others =>
      (if is_item first then [first] else [])
      ++ List.map (cons nl) (List.filter is_item others)
  end.

(** The entries that the debug pass makes of the item lines: the text of
    an item on the first line of the response, and the whole line, marker
    included, of an item on a later line; each trimmed. *)
Definition debug_items (lines : list str) : list str :=
  match lines with
  | [] => []
  | first :: others =>
      match item_text first with
      | Some t => [trim t]
      | None => []
      end
      ++ List.map trim (List.filter is_item others)
  end.

(** A debug response: a sentence, a bulleted list and a numbered list. *)
Definition debugReport : str :=
  lit "Two problems were found:
- the loop starts at 1
  * the sum is never returned
Fixes:
1. start at 0
2. return the sum
3. add a test
4. run it".

(** A debug response that starts with its first item. *)
Definition debugList : str :=
  lit "- off by one
- missing return".

(** A configuration file of the single-provider format. *)
Definition oldFormatFile : ConfigHelper.FileConfig :=
  ConfigHelper.mkFileConfig None None (Some (lit "java")) None None None
    (Some (lit "sk-old")) (Some (lit "gpt-4-turbo")).

(** The main process after a start on a store that holds an OpenAI key,
    one screenshot in the queue. *)
Definition configuredMain : Ipc.Main :=
  Ipc.mkMain
    (ConfigHelper.helper_after
       (ConfigHelper.updateProviderConfig (lit "openai")
          (ConfigHelper.mkProviderUpdate (Some (lit "sk-openai")) None)
          (ConfigHelper.construct ConfigHelper.Missing)))
    Scenarios.idle.

(** A key of the OpenAI format: the prefix and 36 letters and digits. *)
Definition wellFormedOpenAIKey : str :=
  lit "sk-abcdefghijklmnopqrstuvwxyz0123456789".

(** The request of a call that goes to Claude. *)
Definition claude_request_of (c : Call) : option ClaudeRequest :=
  match c with
  | ClaudeCreate req _ => Some req
  | Throw _ | OpenAIChat _ _ => None
  end.

(** The provider of an adapter answers a call with an error. *)
Definition error_reply (x : AnyAdapter) (e : JsError) : Orchestrator.Reply :=
  match x with
  | OpenAI _ => Orchestrator.FromOpenAI (inr e)
  | Claude _ => Orchestrator.FromClaude (inr e)
  end.

(** An SQL answer whose explanation has a paragraph of white space. *)
Definition blankParagraph : str :=
  lit "Explanation: join the tables

  

then filter
Performance: uses the index".

(** A text shows an order notation: a letter O of either case, an opening
    parenthesis, one or more characters other than the closing
    parenthesis, and the closing one. *)
Definition has_order_notation (s : str) : Prop :=
  exists pre o body post,
    s = pre ++ o :: 40%N :: body ++ 41%N :: post
    /\ (o = 79%N \/ o = 111%N)
    /\ body <> []
    /\ forallb (fun x => negb (char_eqb x 41%N)) body = true.

(** The call that the run of [Scenarios.started] waits for. *)
Definition startedPending : Orchestrator.Pending :=
  match Orchestrator.value_of Scenarios.started with
  | Orchestrator.Waiting p => p
  | Orchestrator.Finished =>
      Orchestrator.mkPending Orchestrator.Extracting 0 0 [] false
        (Throw Scenarios.cancelError)
  end.

(** The field of the extracted object that holds the text of the problem:
    the system prompt of each mode names it. *)
Definition problem_key (mode : str) : string :=
  if Parser.is_mode "certification" mode then "question_text"%string
  else "problem_statement"%string.

End Terms.

(** ** Facts about strings *)

Module StringFacts.

Import JS.

Lemma eqb_eq (a b : str) : JS.eqb a b = true <-> a = b.
Proof.
  revert b; induction a as [|x a IH]; intros [|y b]; simpl; try easy.
  unfold char_eqb. rewrite andb_true_iff, N.eqb_eq, IH.
  split; [intros [-> ->]; reflexivity | intros [= -> ->]; auto].
Qed.

Lemma eqb_neq (a b : str) : JS.eqb a b = false -> a <> b.
Proof.
  intros H Hab. apply eqb_eq in Hab. congruence.
Qed.

Lemma eqb_refl (a : str) : JS.eqb a a = true.
Proof. apply eqb_eq. reflexivity. Qed.

Lemma starts_with_app (p x y : str) :
  length p <= length x -> starts_with p (x ++ y) = starts_with p x.
Proof.
  revert x; induction p as [|c p IH]; intros [|d x] Hlen; simpl in *;
    try reflexivity; try lia.
  rewrite IH by lia. reflexivity.
Qed.

Lemma includes_cons_false (p : str) (c : char) (s : str) :
  includes p (c :: s) = false ->
  starts_with p (c :: s) = false /\ includes p s = false.
Proof.
  simpl. intros H. apply orb_false_elim in H. exact H.
Qed.

Lemma includes_false_starts_with (p s : str) :
  includes p s = false -> starts_with p s = false.
Proof.
  destruct s; simpl; intros H; apply orb_false_elim in H; tauto.
Qed.

Lemma trim_start_space (c : char) (s : str) :
  is_space c = true -> trim_start (c :: s) = trim_start s.
Proof. simpl. intros ->. reflexivity. Qed.

Lemma trim_start_head (s : str) :
  match trim_start s with
  | c :: _ => is_space c = false
  | [] => True
  end.
Proof.
  induction s as [|c s IH]; simpl; [exact I|].
  destruct (is_space c) eqn:E; [exact IH | exact E].
Qed.

Lemma trim_start_idem (s : str) : trim_start (trim_start s) = trim_start s.
Proof.
  pose proof (trim_start_head s) as H.
  destruct (trim_start s) as [|c t]; [reflexivity|].
  simpl. rewrite H. reflexivity.
Qed.

(** The input is its leading white space followed by what [trim_start]
    leaves. *)
Lemma trim_start_split (s : str) :
  exists ws, s = ws ++ trim_start s /\ forallb is_space ws = true.
Proof.
  induction s as [|c s (ws & Hs & Hws)]; simpl.
  - exists []. split; reflexivity.
  - destruct (is_space c) eqn:E.
    + exists (c :: ws). simpl. rewrite E, Hws. split; [congruence | reflexivity].
    + exists []. split; reflexivity.
Qed.

(** When what follows does not start with white space, [trim_start] does
    not look at it. *)
Lemma trim_start_app (s t : str) :
  match t with c :: _ => is_space c = false | [] => True end ->
  trim_start (s ++ t) = trim_start s ++ t.
Proof.
  intros Ht. induction s as [|c s IH]; simpl.
  - destruct t as [|d t]; [reflexivity|]. simpl. rewrite Ht. reflexivity.
  - destruct (is_space c); [exact IH | reflexivity].
Qed.

Lemma includes_suffix (p ws s : str) :
  includes p (ws ++ s) = false -> includes p s = false.
Proof.
  induction ws as [|c ws IH]; simpl; [auto|].
  intros H. apply orb_false_elim in H. tauto.
Qed.

End StringFacts.

(** ** The templates of an unrecognised mode *)

Module PromptFacts.

Import JS Orchestrator Scenarios StringFacts.

Lemma unrecognized_modes (mode : str) :
  recognized mode = false ->
  is_mode "coding" mode = false /\ is_mode "system_design" mode = false
  /\ is_mode "react" mode = false /\ is_mode "sql" mode = false
  /\ is_mode "linux" mode = false /\ is_mode "certification" mode = false.
Proof.
  unfold recognized, recognized_modes. cbn [existsb].
  intros H.
  repeat (apply orb_false_elim in H; destruct H as [? H]).
  repeat split; assumption.
Qed.

(** C1, as amended: for a mode outside the recognised set the extraction
    system prompt, the debug system prompt and the response processing are
    those of the coding mode; the solution prompt builder and the debug user
    prompt builder give their own generic templates, which read the problem
    statement at most.  All of them are total, no error is raised. *)
Theorem C1_unrecognized_mode (mode : str) :
  recognized mode = false ->
  createSystemPromptByMode mode = createSystemPromptByMode (lit "coding")
  /\ createDebugSystemPromptByMode mode
     = createDebugSystemPromptByMode (lit "coding")
  /\ (forall content,
        processSolutionResponse content mode
        = processSolutionResponse content (lit "coding"))
  /\ (forall problemInfo language,
        createSolutionPromptByMode mode problemInfo language
        = genericSolutionPrompt problemInfo)
  /\ (forall problemInfo language,
        createDebugUserPromptByMode mode problemInfo language
        = genericDebugUserPrompt).
Proof.
  intros H.
  destruct (unrecognized_modes mode H) as (H1 & H2 & H3 & H4 & H5 & H6).
  repeat split.
  - unfold createSystemPromptByMode. rewrite H1, H2, H3, H4, H5, H6.
    vm_compute. reflexivity.
  - unfold createDebugSystemPromptByMode. rewrite H1, H2, H3, H4, H5, H6.
    vm_compute. reflexivity.
  - intros content. unfold processSolutionResponse.
    rewrite H1, H2, H3, H4, H5, H6.
    change (is_mode "coding" (lit "coding")) with true. reflexivity.
  - intros problemInfo language. unfold createSolutionPromptByMode.
    rewrite H1, H2, H3, H4, H5, H6. reflexivity.
  - intros problemInfo language. unfold createDebugUserPromptByMode.
    rewrite H1, H2, H3, H4, H5, H6. reflexivity.
Qed.

Lemma C1_unrecognized_mode_witness :
  recognized (lit "behavioral") = false
  /\ createSystemPromptByMode (lit "behavioral")
     = createSystemPromptByMode (lit "coding").
Proof.
  split; [reflexivity|].
  apply (C1_unrecognized_mode (lit "behavioral")). reflexivity.
Defined.

(** C1 as stated fails: for the unrecognised mode "behavioral" the solution
    prompt is not the coding template. *)
Lemma C1_counterexample :
  recognized (lit "behavioral") = false
  /\ createSolutionPromptByMode (lit "behavioral") sumProblem (lit "python")
     <> createSolutionPromptByMode (lit "coding") sumProblem (lit "python")
  /\ createDebugUserPromptByMode (lit "behavioral") sumProblem (lit "python")
     <> createDebugUserPromptByMode (lit "coding") sumProblem (lit "python").
Proof.
  split; [reflexivity|].
  split; apply eqb_neq; vm_compute; reflexivity.
Qed.

End PromptFacts.

(** ** The adapters *)

Module AdapterFacts.

Import JS Adapters Scenarios StringFacts.

Lemma role_is_system (m : ModelMessage) :
  is_system m = match role m with system => true | _ => false end.
Proof. unfold is_system. destruct (role m); reflexivity. Qed.

Lemma others_are_not_system (messages : list ModelMessage) :
  List.filter (fun m => negb (is_system m)) messages
  = List.filter (fun m => match role m with system => false | _ => true end)
      messages.
Proof.
  apply List.filter_ext. intros m. rewrite role_is_system.
  destruct (role m); reflexivity.
Qed.

Lemma system_filter_first (pre rest : list ModelMessage) (first : ModelMessage) :
  Forall (fun m => role m <> system) pre ->
  role first = system ->
  List.filter is_system (pre ++ first :: rest)
  = first :: List.filter is_system rest.
Proof.
  intros Hpre Hfirst. induction Hpre as [|m pre Hm _ IH].
  - cbn [app List.filter]. rewrite role_is_system, Hfirst. reflexivity.
  - cbn [app List.filter]. rewrite role_is_system.
    destruct (role m); [contradiction|exact IH|exact IH].
Qed.

Lemma system_filter_none (messages : list ModelMessage) :
  Forall (fun m => role m <> system) messages ->
  List.filter is_system messages = [].
Proof.
  intros H. induction H as [|m l Hm _ IH]; [reflexivity|].
  cbn [List.filter]. rewrite role_is_system.
  destruct (role m); [contradiction|exact IH|exact IH].
Qed.

Lemma text_parts (items : list MessageContent) :
  List.map text_of (List.filter is_text items)
  = flat_map
      (fun item =>
         match item with TextContent t => [t] | ImageContent _ => [] end)
      items.
Proof.
  induction items as [|[t|url] items IH]; [reflexivity| |];
    cbn [List.filter is_text List.map text_of flat_map app];
    rewrite IH; reflexivity.
Qed.

(** C9: the conversion for Claude keeps one system prompt, the content of
    the first message with the role system: the string itself when the
    content is a string, the texts of its text parts joined by newlines
    when it is a list of parts, and the empty string when no message has
    the role system.  What follows the first system message has no
    influence on the prompt.  The converted messages are the messages with
    another role, one for one and in their order; each keeps its role,
    which is user or assistant; a string becomes one text block, and a
    list of parts becomes the list of its parts, a text as a text block
    and an image as a base64 PNG block with the data of its URL. *)
Theorem C9_claude_conversion (messages : list ModelMessage) :
  let others :=
    List.filter
      (fun m => match role m with system => false | _ => true end) messages in
  let systems :=
    List.filter
      (fun m => match role m with system => true | _ => false end) messages in
  let out := fst (convertToClaudeMessages messages) in
  let prompt := snd (convertToClaudeMessages messages) in
  (Forall (fun m => role m <> system) messages -> prompt = [])
  /\ (forall pre first rest,
        messages = pre ++ first :: rest ->
        Forall (fun m => role m <> system) pre ->
        role first = system ->
        prompt
        = match content first with
          | Plain s => s
          | Parts items =>
              join [nl]
                (flat_map
                   (fun item =>
                      match item with
                      | TextContent t => [t]
                      | ImageContent _ => []
                      end)
                   items)
          end)
  /\ length out + length systems = length messages
  /\ List.map c_role out = List.map role others
  /\ Forall2
       (fun m c =>
          c_role c = role m
          /\ c_content c
             = match content m with
               | Plain s => [ClaudeText s]
               | Parts items =>
                   List.map
                     (fun item =>
                        match item with
                        | TextContent t => ClaudeText t
                        | ImageContent url =>
                            ClaudeImage (lit "base64") (lit "image/png")
                              (remove_first (lit "data:image/png;base64,") url)
                        end)
                     items
               end)
       others out
  /\ Forall (fun c => c_role c = user \/ c_role c = assistant) out.
Proof.
  cbn zeta. rewrite <- others_are_not_system.
  unfold convertToClaudeMessages. cbn [fst snd].
  split; [|split; [|split; [|split; [|split]]]].
  - intros H. rewrite (system_filter_none messages H). reflexivity.
  - intros pre first rest -> Hpre Hfirst.
    rewrite (system_filter_first pre rest first Hpre Hfirst).
    unfold system_text. destruct (content first) as [s|items]; [reflexivity|].
    rewrite text_parts. reflexivity.
  - rewrite length_map.
    induction messages as [|m l IH]; [reflexivity|].
    cbn [List.filter]. rewrite role_is_system.
    destruct (role m); cbn [negb length]; lia.
  - rewrite List.map_map.
    induction messages as [|m l IH]; [reflexivity|].
    cbn [List.filter]. unfold is_system at 1 3.
    destruct m as [[] c]; cbn; try exact IH; f_equal; exact IH.
  - induction messages as [|m l IH]; [constructor|].
    cbn [List.filter]. rewrite role_is_system.
    destruct m as [[] c]; cbn [role negb List.map]; [exact IH| |];
      (constructor; [|exact IH]); (split; [reflexivity|]);
      destruct c as [s|items]; cbn [convertMessage c_content content];
      try reflexivity; apply List.map_ext; intros [t|url]; reflexivity.
  - apply Forall_forall. intros c Hc.
    apply list_elem_of_In, in_map_iff in Hc. destruct Hc as (m & <- & _).
    destruct m as [[] c']; cbn; auto.
Qed.

Lemma C9_claude_conversion_witness :
  role (mkMessage system mixedSystemContent) = system
  /\ snd (convertToClaudeMessages mixedConversation)
     = lit "Be terse
Answer in English".
Proof.
  split; [reflexivity|].
  assert (Hpre : Forall (fun m : ModelMessage => role m <> system)
                   [mkMessage user (Plain (lit "Hello"))])
    by (repeat constructor; discriminate).
  exact (proj1 (proj2 (C9_claude_conversion mixedConversation))
           [mkMessage user (Plain (lit "Hello"))]
           (mkMessage system mixedSystemContent)
           [ mkMessage assistant (Plain (lit "Hi"));
             mkMessage system (Plain (lit "Be verbose"));
             mkMessage user
               (Parts [ TextContent (lit "Read this");
                        ImageContent (lit "data:image/png;base64,QUJD") ]) ]
           eq_refl Hpre eq_refl).
Defined.

(** C8, as amended: when the current model has no vision support, [vision]
    fails at once and nothing is sent to the provider.  The error is the
    unsupported-capability one for every Claude adapter and for an OpenAI
    adapter that has a client; an OpenAI adapter without a client fails on
    the missing client first. *)
Theorem C8_vision_unsupported_fails_before_network
    (x : AnyAdapter) (messages : list ModelMessage)
    (options : option ModelRequestOptions) :
  any_supportsVision x = false ->
  touches_network (any_vision x messages options) = false
  /\ any_vision x messages options
     = match x with
       | Claude a => Throw (unsupported_vision a)
       | OpenAI a =>
           match client a with
           | Some _ => Throw (unsupported_vision a)
           | None => Throw (Error (lit "OpenAI client not initialized"))
           end
       end.
Proof.
  destruct x as [a|a]; cbn [any_supportsVision any_vision];
    unfold supportsVision; cbn [vision models OpenAIAdapter ClaudeAdapter];
    intros H.
  - unfold openai_vision, openai_supportsVision.
    destruct (client a); [rewrite H|]; split; reflexivity.
  - unfold claude_vision, claude_supportsVision. rewrite H.
    split; reflexivity.
Qed.

Lemma C8_vision_unsupported_fails_before_network_witness :
  any_supportsVision (OpenAI textAdapter) = false
  /\ any_vision (OpenAI textAdapter) [] None
     = Throw (unsupported_vision textAdapter).
Proof.
  split; [reflexivity|].
  apply (C8_vision_unsupported_fails_before_network (OpenAI textAdapter) [] None).
  reflexivity.
Defined.

(** C8 as stated fails: an OpenAI adapter without a key, on the model
    without vision, does not fail with the unsupported-capability error. *)
Lemma C8_counterexample :
  any_supportsVision (OpenAI keylessTextAdapter) = false
  /\ any_vision (OpenAI keylessTextAdapter) [] None
     = Throw (Error (lit "OpenAI client not initialized"))
  /\ Error (lit "OpenAI client not initialized")
     <> unsupported_vision keylessTextAdapter.
Proof.
  split; [reflexivity|]. split; [reflexivity|].
  intros H. apply (f_equal message) in H. revert H.
  apply eqb_neq. vm_compute. reflexivity.
Qed.

(** Neither adapter looks at the signal in the options: a call is the same
    request, with the same handling of the answer, whatever the signal. *)
Lemma adapter_calls_ignore_signal (x : AnyAdapter)
    (messages : list ModelMessage) (signal1 signal2 : option nat)
    (tokens : option N) (temp : option Q) :
  any_vision x messages (Some (mkOptions signal1 tokens temp))
  = any_vision x messages (Some (mkOptions signal2 tokens temp))
  /\ any_complete x messages (Some (mkOptions signal1 tokens temp))
     = any_complete x messages (Some (mkOptions signal2 tokens temp)).
Proof. destruct x; split; reflexivity. Qed.

End AdapterFacts.

(** ** Facts about the matcher *)

Module RegexFacts.

Import JS Regex Parser Scenarios StringFacts.

(** When the continuation fails on every state that holds a suffix of the
    input, so does the match: the matcher only moves forward. *)
Lemma star_loop_none step g k :
  (forall s k',
     (forall s', rest s' `suffix_of` rest s -> k' s' = None) ->
     step s k' = None) ->
  forall fuel s,
    (forall s', rest s' `suffix_of` rest s -> k s' = None) ->
    star_loop step g k fuel s = None.
Proof.
  intros Hstep fuel. induction fuel as [|fuel IH]; intros s Hk; simpl.
  - apply Hk. reflexivity.
  - assert (Hiter :
      step s (fun s' => if pos s <? pos s' then star_loop step g k fuel s'
                        else None) = None).
    { apply Hstep. intros s' Hs'. destruct (pos s <? pos s'); [|reflexivity].
      apply IH. intros s'' Hs''. apply Hk. etransitivity; eassumption. }
    rewrite Hiter, (Hk s) by reflexivity. destruct g; reflexivity.
Qed.

Lemma run_none (r : re) :
  forall s k,
    (forall s', rest s' `suffix_of` rest s -> k s' = None) ->
    run r s k = None.
Proof.
  induction r as [p| |a IHa b IHb|a IHa b IHb|g a IHa|i a IHa|a IHa| |];
    intros s k Hk; cbn [run].
  - destruct (rest s) as [|c t] eqn:E; [reflexivity|].
    destruct (p c); [|reflexivity].
    apply Hk. cbn [rest]. apply suffix_cons_r. reflexivity.
  - apply Hk. reflexivity.
  - apply IHa. intros s' Hs'. apply IHb. intros s'' Hs''.
    apply Hk. etransitivity; eassumption.
  - rewrite IHa by assumption. apply IHb. assumption.
  - apply star_loop_none; assumption.
  - apply IHa. intros s' Hs'. apply Hk. exact Hs'.
  - destruct (run a s Some); [|reflexivity]. apply Hk. reflexivity.
  - destruct (Nat.eqb (pos s) 0); [|reflexivity]. apply Hk. reflexivity.
  - destruct (rest s) eqn:E; [|reflexivity]. apply Hk. rewrite E. reflexivity.
Qed.

(** No match at any position when the pattern fails on every suffix. *)
Lemma exec_from_none (r : re) (s : str) :
  (forall p s', s' `suffix_of` s -> run r (MState p s' []) Some = None) ->
  forall p, exec_from r p s = None.
Proof.
  induction s as [|c s IH]; intros H p; cbn [exec_from].
  - rewrite H by reflexivity. reflexivity.
  - rewrite H by reflexivity. apply IH.
    intros p' s' Hs'. apply H. apply suffix_cons_r. exact Hs'.
Qed.

(** A match at the first position tried. *)
Lemma exec_from_here (r : re) (p : nat) (s : str) (e : mstate) :
  run r (MState p s []) Some = Some e ->
  exec_from r p s
  = Some (MResult p (firstn (pos e - p) s) (caps e) (rest e)).
Proof.
  intros H. destruct s; cbn [exec_from]; rewrite H; reflexivity.
Qed.

Lemma match_all_none (r : re) (s : str) :
  exec_from r 0 s = None -> match_all r s = [].
Proof.
  unfold match_all. cbn [match_all_from]. intros ->. reflexivity.
Qed.

(** *** The fence *)

Lemma text_fence :
  text "```" = Seq (chr backtick) (Seq (chr backtick) (chr backtick)).
Proof. reflexivity. Qed.

Lemma run_fence_fail (s : mstate) k :
  starts_with fence (rest s) = false -> run (text "```") s k = None.
Proof.
  rewrite text_fence. cbn [run chr].
  destruct (rest s) as [|a [|b [|c t]]]; cbn [rest];
    change fence with [backtick; backtick; backtick]; cbn [starts_with];
    intros H;
    repeat match goal with
      | |- context [char_eqb backtick ?x] =>
          let E := fresh "E" in
          destruct (char_eqb backtick x) eqn:E; cbn [rest andb] in *
      end; try reflexivity; try discriminate.
Qed.

Lemma run_fence_ok (p : nat) (t : str) (c : list (nat * str)) k :
  run (text "```") (MState p (fence ++ t) c) k
  = k (MState (S (S (S p))) t c).
Proof. reflexivity. Qed.

(** A fenced pattern finds nothing in a text without a fence. *)
Lemma exec_from_no_fence (r : re) (s : str) :
  includes fence s = false ->
  forall p, exec_from (Seq (text "```") r) p s = None.
Proof.
  intros H. apply exec_from_none. intros p s' [w ->].
  cbn [run]. apply run_fence_fail. cbn [rest].
  apply includes_false_starts_with. eapply includes_suffix. exact H.
Qed.

(** The fence does not begin inside [x] when [x] followed by two backticks
    does not hold one. *)
Lemma no_fence_inside (c : char) (x y : str) :
  includes fence ((c :: x) ++ lit "``") = false ->
  starts_with fence ((c :: x) ++ fence ++ y) = false.
Proof.
  intros H. apply includes_false_starts_with in H.
  change fence with (lit "``" ++ [backtick]) at 2.
  rewrite <- (app_assoc (lit "``")), (app_assoc (c :: x)).
  rewrite starts_with_app; [exact H|].
  rewrite length_app. cbn. lia.
Qed.

(** *** Greedy repetition of one character class *)

Lemma run_class_cons (p : char -> bool) (n : nat) (d : char) (t : str)
    (c : list (nat * str)) k :
  run (Cls p) (MState n (d :: t) c) k
  = if p d then k (MState (S n) t c) else None.
Proof. reflexivity. Qed.

Lemma run_class_stop (p : char -> bool) (n : nat) (t : str)
    (c : list (nat * str)) k :
  match t with d :: _ => p d = false | [] => True end ->
  run (Cls p) (MState n t c) k = None.
Proof.
  destruct t as [|d t]; [reflexivity|].
  intros H. rewrite run_class_cons, H. reflexivity.
Qed.

(** The star takes the whole run [w] of characters of the class when what
    follows is not in the class and the continuation accepts there. *)
Lemma star_greedy_class (p : char -> bool) k (t : str) (c : list (nat * str)) :
  match t with d :: _ => p d = false | [] => True end ->
  forall w fuel n,
    length w < fuel ->
    forallb p w = true ->
    is_Some (k (MState (n + length w) t c)) ->
    star_loop (run (Cls p)) true k fuel (MState n (w ++ t) c)
    = k (MState (n + length w) t c).
Proof.
  intros Ht w. induction w as [|d w IH]; intros fuel n Hfuel Hw [e He].
  - destruct fuel as [|fuel]; [cbn in Hfuel; lia|].
    cbn [star_loop app length]. rewrite Nat.add_0_r in *.
    rewrite run_class_stop by exact Ht. reflexivity.
  - destruct fuel as [|fuel]; [cbn in Hfuel; lia|].
    cbn [forallb] in Hw. apply andb_true_iff in Hw. destruct Hw as [Hd Hw].
    cbn [star_loop app]. rewrite run_class_cons, Hd. cbn [pos].
    replace (n <? S n) with true by (symmetry; apply Nat.ltb_lt; lia).
    cbn [length] in *. rewrite Nat.add_succ_r in *.
    rewrite (IH fuel (S n));
      [cbn [Nat.add]; rewrite He; reflexivity|lia|exact Hw|].
    cbn [Nat.add]. rewrite He. eexists; reflexivity.
Qed.

Lemma run_star_greedy_class (p : char -> bool) k (w t : str) (n : nat)
    (c : list (nat * str)) :
  match t with d :: _ => p d = false | [] => True end ->
  forallb p w = true ->
  is_Some (k (MState (n + length w) t c)) ->
  run (Star true (Cls p)) (MState n (w ++ t) c) k
  = k (MState (n + length w) t c).
Proof.
  intros Ht Hw Hk. cbn [run rest]. apply star_greedy_class; try assumption.
  pose proof (length_app w t). unfold str, char in *. lia.
Qed.

(** The optional language tag: [(?:X+)?] takes the whole run as well. *)
Lemma run_opt_plus_class (p : char -> bool) k (w t : str) (n : nat)
    (c : list (nat * str)) :
  match t with d :: _ => p d = false | [] => True end ->
  forallb p w = true ->
  is_Some (k (MState (n + length w) t c)) ->
  run (opt (plus true (Cls p))) (MState n (w ++ t) c) k
  = k (MState (n + length w) t c).
Proof.
  intros Ht Hw Hk. unfold opt, plus.
  change (run (Alt ?a Emp) ?s k)
    with (match run a s k with Some x => Some x | None => k s end).
  change (run (Seq ?a ?b) ?s k) with (run a s (fun s' => run b s' k)).
  destruct w as [|d w].
  - cbn [app length]. rewrite Nat.add_0_r in *.
    rewrite run_class_stop by exact Ht. reflexivity.
  - cbn [forallb] in Hw. apply andb_true_iff in Hw. destruct Hw as [Hd Hw].
    cbn [app length] in *. rewrite run_class_cons, Hd.
    rewrite Nat.add_succ_r in *.
    rewrite (run_star_greedy_class p k w t (S n) c Ht Hw) by exact Hk.
    cbn [Nat.add]. destruct Hk as [e ->]. reflexivity.
Qed.

(** *** Lazy repetition up to the next fence

    When the continuation needs a fence, the lazy star over any character
    stops at the first one. *)
Lemma star_lazy_until_fence k (post : str) (c : list (nat * str)) :
  (forall s, starts_with fence (rest s) = false -> k s = None) ->
  forall b fuel n,
    length b < fuel ->
    includes fence (b ++ lit "``") = false ->
    is_Some (k (MState (n + length b) (fence ++ post) c)) ->
    star_loop (run any) false k fuel (MState n (b ++ fence ++ post) c)
    = k (MState (n + length b) (fence ++ post) c).
Proof.
  intros Hk b. induction b as [|d b IH]; intros fuel n Hfuel Hb [e He].
  - destruct fuel as [|fuel]; [cbn in Hfuel; lia|].
    cbn [star_loop app length]. rewrite Nat.add_0_r in *.
    rewrite He. reflexivity.
  - destruct fuel as [|fuel]; [cbn in Hfuel; lia|].
    cbn [star_loop].
    rewrite (Hk (MState n ((d :: b) ++ fence ++ post) c))
      by (cbn [rest]; apply no_fence_inside; exact Hb).
    cbn [app]. unfold any at 1. rewrite run_class_cons. cbn [pos].
    replace (n <? S n) with true by (symmetry; apply Nat.ltb_lt; lia).
    cbn [length] in *. rewrite Nat.add_succ_r in *.
    apply IH; [lia| |cbn [Nat.add]; rewrite He; eexists; reflexivity].
    cbn [app] in Hb. apply includes_cons_false in Hb. tauto.
Qed.

End RegexFacts.

(** ** The response parser *)

Module ParserFacts.

Import JS Regex Parser Scenarios StringFacts RegexFacts.

(** *** Labels that are not there *)

Lemma run_class_stop_state (p : char -> bool) (s : mstate) k :
  match rest s with d :: _ => p d = false | [] => True end ->
  run (Cls p) s k = None.
Proof. destruct s as [n t c]. apply run_class_stop. Qed.

Lemma run_texti_fail (l : str) :
  l <> [] ->
  forall s k,
    starts_with_ci l (rest s) = false ->
    run (seqs (List.map chri l)) s k = None.
Proof.
  induction l as [|c l IH]; [congruence|]. intros _ s k H.
  destruct l as [|c' l'].
  - cbn [List.map seqs]. unfold chri. apply run_class_stop_state.
    destruct (rest s) as [|y t]; [exact I|].
    cbn [starts_with_ci] in H. rewrite andb_true_r in H. exact H.
  - cbn [List.map seqs].
    change (run (Seq ?a ?b) s k) with (run a s (fun s' => run b s' k)).
    unfold chri at 1. destruct s as [n [|y t] cs]; [reflexivity|].
    rewrite run_class_cons. cbn [rest starts_with_ci] in H.
    destruct (char_eqb (canon y) (canon c)); [|reflexivity].
    apply (IH ltac:(discriminate)). exact H.
Qed.

Lemma includes_ci_suffix (p ws s : str) :
  includes_ci p (ws ++ s) = false -> includes_ci p s = false.
Proof.
  induction ws as [|c ws IH]; cbn [app includes_ci]; [auto|].
  intros H. apply orb_false_elim in H. tauto.
Qed.

Lemma includes_ci_starts_with (p s : str) :
  includes_ci p s = false -> starts_with_ci p s = false.
Proof.
  destruct s; cbn [includes_ci]; intros H; apply orb_false_elim in H; tauto.
Qed.

Lemma run_label_fail (name : string) (content : str) (s : mstate) k :
  lit name <> [] ->
  has_label name content = false ->
  rest s `suffix_of` content ->
  run (texti name) s k = None.
Proof.
  intros Hne H [w Hw]. unfold texti. apply run_texti_fail; [exact Hne|].
  apply includes_ci_starts_with. apply (includes_ci_suffix _ w).
  rewrite <- Hw. exact H.
Qed.

(** A pattern that begins with a label finds nothing where the label does
    not occur. *)
Lemma exec_without_label (name : string) (r : re) (content : str) :
  lit name <> [] ->
  has_label name content = false ->
  exec (Seq (texti name) r) content = None.
Proof.
  intros Hne H. apply exec_from_none. intros p s' Hs'.
  change (run (Seq ?a ?b) ?s ?k) with (run a s (fun s' => run b s' k)).
  apply (run_label_fail name content); assumption.
Qed.

Lemma exec_thoughtsRegex_without_labels (content : str) :
  has_label "Thoughts:" content = false ->
  has_label "Key Insights:" content = false ->
  has_label "Reasoning:" content = false ->
  has_label "Approach:" content = false ->
  exec thoughtsRegex content = None.
Proof.
  intros H1 H2 H3 H4. apply exec_from_none. intros p s' Hs'.
  unfold thoughtsRegex. cbn [seqs alts].
  change (run (Seq ?a ?b) ?s ?k) with (run a s (fun s' => run b s' k)).
  repeat (change (run (Alt ?a ?b) ?s ?k)
            with (match run a s k with Some x => Some x | None => run b s k end)).
  rewrite (run_label_fail "Thoughts:" content) by (assumption || discriminate).
  rewrite (run_label_fail "Key Insights:" content)
    by (assumption || discriminate).
  rewrite (run_label_fail "Reasoning:" content) by (assumption || discriminate).
  apply (run_label_fail "Approach:" content); assumption || discriminate.
Qed.

(** A pattern that begins with a choice of three labels. *)
Lemma exec_without_three_labels (a b c : string) (r : re) (content : str) :
  lit a <> [] -> lit b <> [] -> lit c <> [] ->
  has_label a content = false ->
  has_label b content = false ->
  has_label c content = false ->
  exec (Seq (Alt (texti a) (Alt (texti b) (texti c))) r) content = None.
Proof.
  intros Na Nb Nc Ha Hb Hc. apply exec_from_none. intros p s' Hs'.
  change (run (Seq ?x ?y) ?s ?k) with (run x s (fun s' => run y s' k)).
  repeat (change (run (Alt ?x ?y) ?s ?k)
            with (match run x s k with Some z => Some z | None => run y s k end)).
  rewrite (run_label_fail a content) by assumption.
  rewrite (run_label_fail b content) by assumption.
  apply (run_label_fail c content); assumption.
Qed.

(** *** The code field *)

Lemma exec_from_skip_prose (r : re) (rest0 : str) :
  forall pre p,
    includes fence (pre ++ lit "``") = false ->
    exec_from (Seq (text "```") r) p (pre ++ fence ++ rest0)
    = exec_from (Seq (text "```") r) (p + length pre) (fence ++ rest0).
Proof.
  induction pre as [|c pre IH]; intros p H.
  - cbn [app length]. rewrite Nat.add_0_r. reflexivity.
  - assert (Hrun :
      run (Seq (text "```") r) (MState p ((c :: pre) ++ fence ++ rest0) [])
          Some = None).
    { cbn [run]. apply run_fence_fail. cbn [rest].
      apply no_fence_inside. exact H. }
    cbn [app] in *. cbn [exec_from]. rewrite Hrun.
    rewrite IH by (apply includes_cons_false in H; tauto).
    cbn [length]. f_equal. lia.
Qed.

(** The capture and the closing fence, from the start of the capture. *)
Lemma run_capture_to_fence (n : nat) (b post : str) (c : list (nat * str)) :
  includes fence (b ++ lit "``") = false ->
  run (Seq lazy_any (text "```")) (MState n (b ++ fence ++ post) c) Some
  = Some (MState (S (S (S (n + length b)))) post ((1, b) :: c)).
Proof.
  intros Hb. unfold lazy_any.
  change (run (Seq (Grp 1 ?a) ?f) ?s Some)
    with (run a s (fun s' =>
            run f (MState (pos s') (rest s')
                     ((1, firstn (pos s' - pos s) (rest s)) :: caps s'))
              Some)).
  cbn [pos rest caps].
  change (run (Star false any) ?s ?k)
    with (star_loop (run any) false k (S (length (Regex.rest s))) s).
  cbn [rest].
  rewrite star_lazy_until_fence.
  - cbn [pos rest caps]. rewrite run_fence_ok.
    replace (n + length b - n) with (length b) by lia.
    rewrite take_app_length. reflexivity.
  - intros s Hs. apply run_fence_fail. exact Hs.
  - pose proof (length_app b (fence ++ post)). unfold str, char in *. lia.
  - exact Hb.
  - cbn [pos rest caps]. rewrite run_fence_ok. eexists; reflexivity.
Qed.

(** White space, then the capture and the closing fence. *)
Lemma run_space_capture (n : nat) (ws b post : str) (c : list (nat * str)) :
  forallb is_space ws = true ->
  match b with d :: _ => is_space d = false | [] => True end ->
  includes fence (b ++ lit "``") = false ->
  run (Seq (Star true space) (Seq lazy_any (text "```")))
      (MState n (ws ++ b ++ fence ++ post) c) Some
  = Some (MState (S (S (S (n + length ws + length b)))) post ((1, b) :: c)).
Proof.
  intros Hws Hb Hfence.
  change (run (Seq ?a ?f) ?s Some) with (run a s (fun s' => run f s' Some)).
  unfold space. rewrite run_star_greedy_class.
  - apply run_capture_to_fence. exact Hfence.
  - destruct b as [|d b]; [reflexivity | exact Hb].
  - exact Hws.
  - rewrite run_capture_to_fence by exact Hfence. eexists; reflexivity.
Qed.

(** On a well-formed response the coding pattern matches the first fenced
    block and captures its inner text from the first character that is not
    white space. *)
Lemma exec_codeRegex_fenced (pre tag body post : str) :
  well_formed_fence pre tag body ->
  exists m,
    exec codeRegex (fenced pre tag body post) = Some m
    /\ group1 m = trim_start body.
Proof.
  intros (Hpre & Htag & Hbody).
  destruct (trim_start_split body) as (ws & Hsplit & Hws).
  set (b := trim_start body) in *.
  assert (Hb : includes fence (b ++ lit "``") = false).
  { rewrite Hsplit, <- app_assoc in Hbody.
    eapply includes_suffix. exact Hbody. }
  assert (Hhead : match b with d :: _ => is_space d = false | [] => True end)
    by apply trim_start_head.
  unfold exec, fenced.
  change codeRegex
    with (Seq (text "```")
            (Seq (opt (plus true word))
               (Seq (Star true space) (Seq lazy_any (text "```"))))).
  rewrite exec_from_skip_prose by exact Hpre.
  cbn [Nat.add].
  set (r := Seq (opt (plus true word)) _).
  assert (Hrun :
    run (Seq (text "```") r)
        (MState (length pre) (fence ++ tag ++ [nl] ++ body ++ fence ++ post) [])
        Some
    = Some (MState (S (S (S (S (S (S (length pre)) + length tag
                                  + length (nl :: ws) + length b)))))
              post [(1, b)])).
  { change (run (Seq ?a ?f) ?s Some) with (run a s (fun s' => run f s' Some)).
    rewrite run_fence_ok. subst r.
    change (run (Seq ?a ?f) ?s Some) with (run a s (fun s' => run f s' Some)).
    assert (Hrest :
      [nl] ++ body ++ fence ++ post = (nl :: ws) ++ b ++ fence ++ post).
    { rewrite Hsplit at 1. rewrite <- app_assoc. reflexivity. }
    rewrite Hrest. unfold word. rewrite run_opt_plus_class.
    - apply run_space_capture; [|exact Hhead|exact Hb].
      cbn [forallb]. rewrite Hws. reflexivity.
    - reflexivity.
    - exact Htag.
    - rewrite run_space_capture; [eexists; reflexivity| |exact Hhead|exact Hb].
      cbn [forallb]. rewrite Hws. reflexivity. }
  rewrite (exec_from_here _ _ _ _ Hrun). eexists; split; reflexivity.
Qed.

(** The three fenced patterns find nothing in a text without a fence. *)
Lemma exec_fenced_patterns_none (content : str) :
  includes fence content = false ->
  exec codeRegex content = None
  /\ exec reactCodeRegex content = None
  /\ exec sqlCodeRegex content = None.
Proof.
  intros H. unfold exec, codeRegex, reactCodeRegex, sqlCodeRegex.
  cbn [seqs]. repeat split; apply exec_from_no_fence; exact H.
Qed.

Lemma trim_trim_start (s : str) : trim (trim_start s) = trim s.
Proof. unfold trim. rewrite trim_start_idem. reflexivity. Qed.

Lemma process_unrecognized (content mode : str) :
  is_mode "coding" mode = true \/ recognized mode = false ->
  processSolutionResponse content mode = processCodingSolution content.
Proof.
  unfold processSolutionResponse. intros [->|H]; [reflexivity|].
  destruct (PromptFacts.unrecognized_modes mode H)
    as (-> & -> & -> & -> & -> & ->).
  reflexivity.
Qed.




(** Without any of its labels the coding parser returns its fallbacks. *)
Lemma coding_fallbacks (content : str) :
  no_coding_label content = true ->
  thoughts_of (processCodingSolution content) = codingFallbackThoughts
  /\ time_complexity_of (processCodingSolution content) = defaultTimeComplexity
  /\ space_complexity_of (processCodingSolution content)
     = defaultSpaceComplexity.
Proof.
  unfold no_coding_label. intros H.
  repeat (apply andb_true_iff in H; destruct H as [H ?]).
  repeat match goal with
    | H : negb _ = true |- _ => apply negb_true_iff in H
    end.
  unfold processCodingSolution.
  cbn [thoughts_of time_complexity_of space_complexity_of thoughts
       time_complexity space_complexity].
  rewrite exec_thoughtsRegex_without_labels by assumption.
  unfold extract_complexity, timeComplexityPattern, spaceComplexityPattern.
  cbn [seqs].
  rewrite !exec_without_label by (assumption || discriminate).
  repeat split; reflexivity.
Qed.

(** *** The solution pass never fails *)

Lemma non_empty_or_ne (fallback : string) (xs : list str) :
  non_empty_or fallback xs <> [].
Proof. destruct xs; discriminate. Qed.

Lemma or_else_ne (a b : str) : b <> [] -> or_else a b <> [].
Proof. destruct a; [auto | discriminate]. Qed.

(** A literal of the source that is not the empty string. *)
Ltac literal_ne :=
  let E := fresh "E" in
  intros E; apply (f_equal (@length _)) in E; vm_compute in E; discriminate E.

Lemma ensure_notation_ne (complexity : str) : ensure_notation complexity <> [].
Proof.
  unfold ensure_notation.
  destruct (exec bigORegex complexity) as [m|] eqn:E; [|discriminate].
  destruct (negb (includes (lit "-") complexity)
            && negb (includes (lit "because") complexity)).
  - intros H. apply app_eq_nil in H. destruct H as [_ H].
    apply app_eq_nil in H. destruct H as [H _]. revert H. literal_ne.
  - destruct complexity; [discriminate E | discriminate].
Qed.

Lemma extract_complexity_ne (pattern : re) (dflt content : str) :
  dflt <> [] -> extract_complexity pattern dflt content <> [].
Proof.
  intros H. unfold extract_complexity.
  destruct (exec pattern content) as [m|]; [|exact H].
  destruct (truthy (group1 m)); [apply ensure_notation_ne | exact H].
Qed.

(** C6: whatever the response and the mode, the solution pass returns a
    successful result; its thoughts list and its two complexity statements
    are never empty.  Under the coding rules a response with none of the
    labels gets the fallback sentence and the two default statements. *)
Theorem C6_solution_pass_never_fails (content mode : str) :
  (exists d,
     processSolutionResponse content mode = Success d
     /\ thoughts d <> []
     /\ time_complexity d <> []
     /\ space_complexity d <> [])
  /\ (is_mode "coding" mode = true \/ recognized mode = false ->
      no_coding_label content = true ->
      let r := processSolutionResponse content mode in
      thoughts_of r = codingFallbackThoughts
      /\ time_complexity_of r = defaultTimeComplexity
      /\ space_complexity_of r = defaultSpaceComplexity).
Proof.
  split.
  2:{ intros Hmode Hlabels. cbn zeta.
      rewrite process_unrecognized by exact Hmode.
      apply coding_fallbacks. exact Hlabels. }
  assert (Hcoding : exists d,
    processCodingSolution content = Success d
    /\ thoughts d <> [] /\ time_complexity d <> []
    /\ space_complexity d <> []).
  { eexists. split; [reflexivity|]. cbn [thoughts time_complexity
      space_complexity]. split; [apply non_empty_or_ne|].
    split; apply extract_complexity_ne; literal_ne. }
  unfold processSolutionResponse.
  destruct (is_mode "coding" mode); [exact Hcoding|].
  destruct (is_mode "system_design" mode).
  { eexists. split; [reflexivity|]. cbn [thoughts time_complexity
      space_complexity]. split; [apply non_empty_or_ne|]. split; literal_ne. }
  destruct (is_mode "react" mode).
  { eexists. split; [reflexivity|]. cbn [thoughts time_complexity
      space_complexity]. split; [|split; literal_ne].
    destruct (items_of_match _); [apply non_empty_or_ne | discriminate]. }
  destruct (is_mode "sql" mode).
  { eexists. split; [reflexivity|]. cbn [thoughts time_complexity
      space_complexity]. split; [apply non_empty_or_ne|].
    split; [apply or_else_ne|]; literal_ne. }
  destruct (is_mode "linux" mode).
  { eexists. split; [reflexivity|]. cbn [thoughts time_complexity
      space_complexity]. split; [apply non_empty_or_ne|]. split; literal_ne. }
  destruct (is_mode "certification" mode); [|exact Hcoding].
  eexists. split; [reflexivity|]. cbn [thoughts time_complexity
    space_complexity]. split; [apply non_empty_or_ne|]. split; literal_ne.
Qed.

Lemma C6_solution_pass_never_fails_witness :
  no_coding_label (lit "x = a + b") = true
  /\ thoughts_of (processSolutionResponse (lit "x = a + b") (lit "coding"))
     = codingFallbackThoughts.
Proof.
  split; [reflexivity|].
  apply (C6_solution_pass_never_fails (lit "x = a + b") (lit "coding"));
    [left|]; reflexivity.
Defined.

(** *** The thoughts of the debug pass *)

Lemma no_item_mark_suffix (s t : str) :
  t `suffix_of` s -> no_item_mark s = true -> no_item_mark t = true.
Proof.
  intros [w ->]. unfold no_item_mark. rewrite forallb_app.
  intros H. apply andb_true_iff in H. tauto.
Qed.

Lemma no_item_mark_head (s : str) (p : char -> bool) :
  (forall c, p c = true -> is_item_mark c = true) ->
  no_item_mark s = true ->
  match s with d :: _ => p d = false | [] => True end.
Proof.
  intros Hp. destruct s as [|d t]; [easy|].
  unfold no_item_mark. cbn [forallb]. intros H.
  apply andb_true_iff in H. destruct H as [H _].
  destruct (p d) eqn:E; [|reflexivity].
  rewrite (Hp d E) in H. discriminate.
Qed.

Lemma bullet_class_is_mark (c : char) :
  char_eqb c 45%N || char_eqb c 42%N || char_eqb c bullet = true ->
  is_item_mark c = true.
Proof. unfold is_item_mark. intros ->. reflexivity. Qed.

Lemma dot_is_mark (c : char) : char_eqb 46%N c = true -> is_item_mark c = true.
Proof.
  unfold is_item_mark, char_eqb. rewrite N.eqb_sym. intros ->.
  rewrite !orb_true_r. reflexivity.
Qed.

(** Every item needs a dash, a star, a bullet or the dot of a number. *)
Lemma run_bullet_mark_none (s : mstate) k :
  no_item_mark (rest s) = true -> run bullet_mark s k = None.
Proof.
  intros H. unfold bullet_mark.
  change (run (Alt ?a ?b) s k)
    with (match run a s k with Some x => Some x | None => run b s k end).
  rewrite run_class_stop_state
    by (apply no_item_mark_head; [apply bullet_class_is_mark | exact H]).
  change (run (Seq ?a ?b) s k) with (run a s (fun s' => run b s' k)).
  apply run_none. intros s' Hs'. unfold chr.
  apply run_class_stop_state, no_item_mark_head; [apply dot_is_mark|].
  eapply no_item_mark_suffix; eassumption.
Qed.

Lemma debug_items_none (content : str) :
  no_item_mark content = true -> match_all debugBulletRegex content = [].
Proof.
  intros H. apply match_all_none, exec_from_none. intros p s' Hs'.
  unfold debugBulletRegex. cbn [seqs].
  change (run (Seq ?a ?b) ?s ?k) with (run a s (fun s' => run b s' k)).
  apply run_none. intros s1 Hs1.
  change (run (Seq ?a ?b) ?s ?k) with (run a s (fun s' => run b s' k)).
  apply run_none. intros s2 Hs2.
  change (run (Seq ?a ?b) ?s ?k) with (run a s (fun s' => run b s' k)).
  apply run_bullet_mark_none.
  eapply no_item_mark_suffix; [|exact H].
  cbn [rest] in Hs1. do 2 (etransitivity; [eassumption|]). exact Hs'.
Qed.

(** *** The complexity fields of the coding parser *)

(** An extracted text without an order notation gets one in front. *)
Lemma ensure_notation_synthesized (complexity : str) :
  exec bigORegex complexity = None ->
  ensure_notation complexity = lit "O(n) - " ++ complexity.
Proof. unfold ensure_notation. intros ->. reflexivity. Qed.

(** An extracted text with a notation, but with neither a dash nor a
    "because", is the notation, the separator and what is left. *)
Lemma ensure_notation_separator (complexity : str) (m : mresult) :
  exec bigORegex complexity = Some m ->
  includes (lit "-") complexity = false ->
  includes (lit "because") complexity = false ->
  ensure_notation complexity
  = m_text m ++ lit " - " ++ trim (remove_first (m_text m) complexity).
Proof. unfold ensure_notation. intros -> -> ->. reflexivity. Qed.

(** When the label is followed by its text and a line break, and the space
    label comes next, the text is retained. *)
Example time_complexity_retained :
  time_complexity_of
    (processCodingSolution (lit "Time complexity: O(n), linear scan
Space complexity: O(1)
"))
  = lit "O(n) - , linear scan".
Proof. vm_compute. reflexivity. Qed.

(** C7 fails on the code: the label is there, on the last line of a response
    that does not end with a line break, and the field is the default
    statement; it has neither the notation nor the explanation of the
    response. *)
Theorem C7_label_on_last_line_gets_default :
  let response := lit "Time complexity: O(log n) - binary search" in
  let field := time_complexity_of (processSolutionResponse response (lit "coding")) in
  includes (lit "Time complexity") response = true
  /\ field = defaultTimeComplexity
  /\ includes (lit "O(log n)") field = false
  /\ includes (lit "binary search") field = false.
Proof. cbn zeta. repeat split; vm_compute; reflexivity. Qed.

End ParserFacts.

(** ** The orchestrator *)

Module OrchestratorFacts.

Import JS Adapters Orchestrator Scenarios StringFacts.

(** *** Holding a finished or suspended run *)

Ltac op_unfold :=
  unfold bind, get, modify, send, send_if, ret, value_of, state_of, events_of.

Lemma finishPrimary_finished (r : Result) (s : State) :
  value_of (finishPrimary r s) = Finished.
Proof.
  destruct r as [d|e]; unfold finishPrimary; op_unfold; [reflexivity|].
  destruct (includes _ e || includes _ e); reflexivity.
Qed.

Lemma solutionsDone_finished (r : Result) (s : State) :
  value_of (solutionsDone r s) = Finished.
Proof.
  destruct r as [d|e]; [reflexivity|].
  unfold solutionsDone. apply finishPrimary_finished.
Qed.

Lemma finishDebug_finished (r : Result) (s : State) :
  value_of (finishDebug r s) = Finished.
Proof. destruct r; reflexivity. Qed.

Lemma generateSolutionsHelper_waits (signal : nat) (mode : str) (w : bool)
    (s : State) (p : Pending) :
  value_of (generateSolutionsHelper signal mode w s) = inr p ->
  state_of (generateSolutionsHelper signal mode w s) = s
  /\ modelAdapter s = Some (p_adapter p)
  /\ is_Some (adapters s !! p_adapter p)
  /\ p_stage p = Solving
  /\ p_signal p = signal.
Proof.
  unfold generateSolutionsHelper, current_adapter. op_unfold.
  destruct (problemInfo s) as [info|]; [|intros [=]].
  destruct (modelAdapter s) as [i|]; [|intros [=]].
  destruct (adapters s !! i) as [a|] eqn:Ea; [|intros [=]].
  destruct (mainWindow s); cbn [fst snd];
    destruct (any_complete a _ _) eqn:Ec; cbn [fst snd];
    intros [= <-]; cbn [p_adapter p_stage p_signal];
    repeat split; eauto.
Qed.

(** *** Projections of composed operations *)

Lemma value_of_bind {A B} (m : Op A) (f : A -> Op B) (s : State) :
  value_of (bind m f s) = value_of (f (value_of (m s)) (state_of (m s))).
Proof.
  unfold bind, value_of, state_of.
  destruct (m s) as [[a s1] e1]. cbn [fst snd].
  destruct (f a s1) as [[b s2] e2]. reflexivity.
Qed.

Lemma state_of_bind {A B} (m : Op A) (f : A -> Op B) (s : State) :
  state_of (bind m f s) = state_of (f (value_of (m s)) (state_of (m s))).
Proof.
  unfold bind, value_of, state_of.
  destruct (m s) as [[a s1] e1]. cbn [fst snd].
  destruct (f a s1) as [[b s2] e2]. reflexivity.
Qed.

Lemma events_of_bind {A B} (m : Op A) (f : A -> Op B) (s : State) :
  events_of (bind m f s)
  = events_of (m s) ++ events_of (f (value_of (m s)) (state_of (m s))).
Proof.
  unfold bind, value_of, state_of, events_of.
  destruct (m s) as [[a s1] e1]. cbn [fst snd].
  destruct (f a s1) as [[b s2] e2]. reflexivity.
Qed.

Lemma state_of_send_if (w : bool) (e : Event) (s : State) :
  state_of (send_if w e s) = s.
Proof. destruct w; reflexivity. Qed.

Lemma state_of_send (e : Event) (s : State) : state_of (send e s) = s.
Proof. reflexivity. Qed.

Lemma state_of_modify (f : State -> State) (s : State) :
  state_of (modify f s) = f s.
Proof. reflexivity. Qed.

Lemma state_of_get (s : State) : state_of (get s) = s.
Proof. reflexivity. Qed.

Lemma value_of_get (s : State) : value_of (get s) = s.
Proof. reflexivity. Qed.

Lemma value_of_ret {A} (a : A) (s : State) : value_of (ret a s) = a.
Proof. reflexivity. Qed.

Lemma state_of_ret {A} (a : A) (s : State) : state_of (ret a s) = s.
Proof. reflexivity. Qed.

Create Rewrite HintDb op.

#[local] Hint Rewrite @value_of_bind @state_of_bind @state_of_send_if
  state_of_send state_of_modify state_of_get value_of_get @value_of_ret
  @state_of_ret : op.

(** The run that [afterExtraction] leaves suspended waits for a solution
    call, made on the adapter that [this.modelAdapter] references when the
    extraction answer is handled. *)
Lemma afterExtraction_waits JSON_parse (p : Pending) (o : Outcome) (s : State)
    (p2 : Pending) :
  value_of (afterExtraction JSON_parse p o s) = Waiting p2 ->
  modelAdapter s = Some (p_adapter p2)
  /\ is_Some (adapters s !! p_adapter p2)
  /\ p_stage p2 = Solving
  /\ p_signal p2 = p_signal p.
Proof.
  unfold afterExtraction. destruct o as [r|e].
  2:{ rewrite finishPrimary_finished. intros [=]. }
  destruct (JSON_parse _) as [info|].
  2:{ rewrite finishPrimary_finished. intros [=]. }
  destruct (p_window p).
  2:{ autorewrite with op. rewrite finishPrimary_finished. intros [=]. }
  autorewrite with op.
  destruct (value_of (generateSolutionsHelper _ _ _ _)) as [r'|p'] eqn:E.
  { rewrite solutionsDone_finished. intros [=]. }
  autorewrite with op. intros [= <-].
  apply generateSolutionsHelper_waits in E.
  destruct E as (_ & E1 & E2 & E3 & E4). auto.
Qed.

(** The run that [processScreenshotsHelper] leaves suspended waits for the
    extraction call, made on the adapter that [this.modelAdapter]
    references. *)
Lemma processScreenshotsHelper_waits JSON_parse (images : list str)
    (signal : nat) (s : State) (p : Pending) :
  let r := processScreenshotsHelper JSON_parse images signal s in
  value_of r = Waiting p ->
  modelAdapter (state_of r) = Some (p_adapter p)
  /\ is_Some (adapters (state_of r) !! p_adapter p)
  /\ p_stage p = Extracting
  /\ p_signal p = signal
  /\ (forall i, modelAdapter s = Some i -> p_adapter p = i).
Proof.
  cbn zeta. unfold processScreenshotsHelper. autorewrite with op.
  set (s1 := state_of (match modelAdapter s with
                       | Some _ => ret tt
                       | None => initializeModelAdapter
                       end s)).
  assert (Hs1 : forall i, modelAdapter s = Some i -> modelAdapter s1 = Some i).
  { intros i Hi. subst s1. rewrite Hi. exact Hi. }
  unfold current_adapter.
  destruct (modelAdapter s1) as [i|] eqn:Ei.
  2:{ rewrite finishPrimary_finished. intros [=]. }
  destruct (adapters s1 !! i) as [a|] eqn:Ea.
  2:{ rewrite finishPrimary_finished. intros [=]. }
  autorewrite with op.
  destruct (any_vision a _ _) eqn:Ev.
  { unfold afterExtraction. rewrite finishPrimary_finished. intros [=]. }
  all: autorewrite with op; intros [= <-]; cbn [p_adapter p_stage p_signal];
    rewrite Ei, Ea; repeat split; eauto;
    intros j Hj; apply Hs1 in Hj; congruence.
Qed.

Lemma initializeModelAdapter_adapters (s : State) :
  let s' := state_of (initializeModelAdapter s) in
  (forall i a, adapters s !! i = Some a -> adapters s' !! i = Some a)
  /\ currentProcessingAbortController s' = currentProcessingAbortController s
  /\ currentExtraProcessingAbortController s'
     = currentExtraProcessingAbortController s
  /\ controllers s' = controllers s
  /\ config s' = config s.
Proof.
  cbn zeta. unfold initializeModelAdapter. rewrite state_of_modify.
  destruct (active_provider_config (config s)) as [pc|]; [|auto].
  destruct (truthy (cfg_apiKey pc)); [|auto].
  destruct (createModelAdapter _ _ _) as [a|e]; [|auto].
  cbn. repeat split. intros i b Hi. apply lookup_app_l_Some. exact Hi.
Qed.

Lemma createModelAdapter_known (c : Config) (pc : ModelProviderConfig) :
  active_provider_config c = Some pc ->
  exists a,
    createModelAdapter (activeProvider c) (cfg_apiKey pc) (cfg_model pc)
    = inl a.
Proof.
  unfold active_provider_config, createModelAdapter.
  destruct (JS.eqb (activeProvider c) (lit "openai")); [eauto|].
  destruct (JS.eqb (activeProvider c) (lit "claude")); [eauto|].
  intros [=].
Qed.

(** A configuration change with a key for the active provider installs a
    new adapter object, built for that configuration. *)
Lemma configUpdated_installs (c : Config) (s : State)
    (pc : ModelProviderConfig) :
  active_provider_config c = Some pc ->
  truthy (cfg_apiKey pc) = true ->
  exists a,
    createModelAdapter (activeProvider c) (cfg_apiKey pc) (cfg_model pc)
    = inl a
    /\ current_adapter (state_of (configUpdated c s))
       = Some (length (adapters s), a).
Proof.
  intros Hpc Hkey. destruct (createModelAdapter_known c pc Hpc) as [a Ha].
  exists a. split; [exact Ha|].
  unfold configUpdated, initializeModelAdapter. autorewrite with op.
  cbn [set_config config adapters]. rewrite Hpc, Hkey, Ha.
  unfold current_adapter. cbn [set_modelAdapter set_adapters modelAdapter
    adapters].
  rewrite lookup_app_r by lia. rewrite Nat.sub_diag. reflexivity.
Qed.

Lemma configUpdated_keeps (c : Config) (s : State) (i : nat) (a : AnyAdapter) :
  adapters s !! i = Some a ->
  adapters (state_of (configUpdated c s)) !! i = Some a.
Proof.
  intros H. unfold configUpdated. autorewrite with op.
  apply (initializeModelAdapter_adapters (set_config c s)). exact H.
Qed.

Lemma primary_catch_finished (e : JsError) (s : State) :
  value_of (primary_catch e s) = Finished.
Proof. unfold primary_catch. destruct (isCancel e); reflexivity. Qed.

Lemma debug_outer_catch_finished (e : JsError) (s : State) :
  value_of (debug_outer_catch e s) = Finished.
Proof. unfold debug_outer_catch. destruct (isCancel e); reflexivity. Qed.

Lemma processScreenshots_waits JSON_parse readScreenshots (s : State)
    (p : Pending) :
  let r := processScreenshots JSON_parse readScreenshots s in
  value_of r = Waiting p ->
  modelAdapter (state_of r) = Some (p_adapter p)
  /\ is_Some (adapters (state_of r) !! p_adapter p)
  /\ (forall i, modelAdapter s = Some i -> p_adapter p = i).
Proof.
  cbn zeta. unfold processScreenshots. autorewrite with op.
  destruct (mainWindow s); cbn [negb]; [|intros [=]].
  autorewrite with op.
  set (s1 := state_of (match modelAdapter s with
                       | Some _ => ret tt
                       | None => initializeModelAdapter
                       end s)).
  assert (Hs1 : forall i, modelAdapter s = Some i -> modelAdapter s1 = Some i).
  { intros i Hi. subst s1. rewrite Hi. exact Hi. }
  destruct (modelAdapter s1) as [i|] eqn:Ei; [|intros [=]].
  destruct (view s1).
  - autorewrite with op.
    destruct (screenshotQueue s1); [intros [=]|].
    unfold newController. autorewrite with op.
    destruct (readScreenshots _) as [images|e];
      [|rewrite primary_catch_finished; intros [=]].
    intros H. apply processScreenshotsHelper_waits in H.
    destruct H as (? & ? & _ & _ & Hi). repeat split; auto.
    intros j Hj. apply Hs1 in Hj.
    apply Hi. cbn [set_currentProcessingAbortController set_controllers
      modelAdapter]. congruence.
  - destruct (extraScreenshotQueue s1); [intros [=]|].
    unfold newController. autorewrite with op.
    destruct (readScreenshots _) as [images|e];
      [|rewrite debug_outer_catch_finished; intros [=]].
    unfold processExtraScreenshotsHelper. autorewrite with op.
    set (s2 := set_currentExtraProcessingAbortController _ _).
    assert (Hs2 : modelAdapter s2 = modelAdapter s1) by reflexivity.
    destruct (problemInfo s2) as [info|];
      [|rewrite finishDebug_finished; intros [=]].
    unfold current_adapter.
    destruct (modelAdapter s2) as [j|] eqn:Ej;
      [|rewrite finishDebug_finished; intros [=]].
    destruct (adapters s2 !! j) as [a|] eqn:Ea;
      [|rewrite finishDebug_finished; intros [=]].
    autorewrite with op.
    destruct (any_vision a _ _) eqn:Ev.
    { unfold afterDebug. rewrite finishDebug_finished. intros [=]. }
    all: autorewrite with op; intros [= <-]; cbn [p_adapter];
      rewrite Ej, Ea; repeat split; eauto;
      intros i' Hi'; apply Hs1 in Hi'; congruence.
Qed.

(** C2 as stated fails: the provider is switched to Claude while the
    extraction call of a run is out; the run made that call on the OpenAI
    adapter and makes its solution call on the Claude adapter. *)
Lemma C2_counterexample :
  option_map p_stage (pending_of started) = Some Extracting
  /\ option_map p_adapter (pending_of started) = Some 0
  /\ provider_at (state_of extractedAfterSwitch) 0 = Some (lit "OpenAI")
  /\ option_map p_stage (pending_of extractedAfterSwitch) = Some Solving
  /\ option_map p_adapter (pending_of extractedAfterSwitch) = Some 1
  /\ provider_at (state_of extractedAfterSwitch) 1 = Some (lit "Claude").
Proof. repeat split; vm_compute; reflexivity. Qed.
(** *** Cancellation *)

Lemma finishPrimary_failure_events (error : str) (s : State) :
  exists ev,
    events_of (finishPrimary (Failure error) s) = [ev]
    /\ is_failure_event ev = true.
Proof.
  unfold finishPrimary. op_unfold. cbn [fst snd].
  destruct (includes _ error || includes _ error); cbn [snd app];
    eexists; split; reflexivity.
Qed.

Lemma extraction_catch_failure (e : JsError) :
  exists msg, extraction_catch e = Failure msg.
Proof.
  unfold extraction_catch.
  repeat match goal with
    | |- context [if ?b then _ else _] => destruct b
    end; eexists; reflexivity.
Qed.

Lemma solutions_catch_failure (e : JsError) :
  exists msg, solutions_catch e = Failure msg.
Proof.
  unfold solutions_catch.
  repeat match goal with
    | |- context [if ?b then _ else _] => destruct b
    end; eexists; reflexivity.
Qed.

Lemma debug_catch_failure (e : JsError) :
  exists msg, debug_catch e = Failure msg.
Proof.
  unfold debug_catch.
  repeat match goal with
    | |- context [if ?b then _ else _] => destruct b
    end; eexists; reflexivity.
Qed.

(** What each stage sends when its adapter call ends with an error that
    [axios.isCancel] recognises. *)
Lemma afterExtraction_cancelled JSON_parse (p : Pending) (e : JsError)
    (s : State) :
  isCancel e = true ->
  events_of (afterExtraction JSON_parse p (Thrown e) s)
  = [INITIAL_SOLUTION_ERROR (PayloadText cancelMessage)].
Proof.
  intros H. unfold afterExtraction, extraction_catch. rewrite H.
  vm_compute. reflexivity.
Qed.

Lemma afterSolution_thrown (p : Pending) (e : JsError) (s : State) :
  exists ev,
    events_of (afterSolution p (Thrown e) s) = [ev]
    /\ is_failure_event ev = true.
Proof.
  unfold afterSolution, solutionsDone.
  destruct (solutions_catch_failure e) as [msg ->].
  destruct (extraction_catch_failure
              (Error (or_else msg (lit "Failed to generate solutions"))))
    as [msg' ->].
  apply finishPrimary_failure_events.
Qed.

Lemma afterDebug_thrown (p : Pending) (e : JsError) (s : State) :
  exists ev,
    events_of (afterDebug p (Thrown e) s) = [ev]
    /\ is_failure_event ev = true.
Proof.
  unfold afterDebug. destruct (debug_catch_failure e) as [msg ->].
  eexists; split; reflexivity.
Qed.

(** [cancelOngoingRequests] aborts the controller of the primary run,
    drops the reference to it and clears the problem. *)
Lemma cancel_aborts_and_clears (s : State) (c : nat) :
  currentProcessingAbortController s = Some c ->
  c < length (controllers s) ->
  let s' := state_of (cancelOngoingRequests s) in
  aborted s' c = true
  /\ currentProcessingAbortController s' = None
  /\ currentExtraProcessingAbortController s' = None
  /\ problemInfo s' = None
  /\ hasDebugged s' = false.
Proof.
  destruct s as [cfg wl mw wd v q xq info dbg ads ma cs cur extra].
  cbn [currentProcessingAbortController controllers].
  intros -> Hlen. cbn zeta. unfold cancelOngoingRequests, abort. op_unfold.
  unfold aborted.
  assert (Hc : <[c:=true]> cs !! c = Some true)
    by (apply list_lookup_insert_eq; exact Hlen).
  assert (Hc' : forall c', <[c':=true]> (<[c:=true]> cs) !! c = Some true).
  { intros c'. destruct (decide (c' = c)) as [->|Hne].
    - apply list_lookup_insert_eq. rewrite length_insert. exact Hlen.
    - rewrite list_lookup_insert_ne by exact Hne. exact Hc. }
  destruct extra as [c'|], mw, wd; cbn; repeat split;
    rewrite ?Hc', ?Hc; reflexivity.
Qed.

(** A second [cancelOngoingRequests] changes nothing and sends nothing. *)
Lemma cancel_idempotent (s : State) :
  let first := cancelOngoingRequests s in
  let second := cancelOngoingRequests (state_of first) in
  state_of second = state_of first /\ events_of second = [].
Proof.
  cbn zeta. destruct s as [cfg wl mw wd v q xq info dbg ads ma cs cur extra].
  unfold cancelOngoingRequests, abort. op_unfold.
  destruct cur, extra, mw, wd; split; reflexivity.
Qed.

(** C4 fails on the code: the signal of the aborted controller is in the
    options of the adapter call, and the adapters send requests that do not
    carry it.  A run in its extraction call is cancelled: the controller is
    aborted, the problem is cleared.  The provider answers all the same and
    the run goes on: the problem is stored again, the solution call is made,
    and the success event is sent. *)
Theorem C4_cancel_does_not_stop_the_run :
  (forall x messages signal1 signal2,
     any_vision x messages (Orchestrator.request_options signal1)
     = any_vision x messages (Orchestrator.request_options signal2)
     /\ any_complete x messages (Orchestrator.request_options signal1)
        = any_complete x messages (Orchestrator.request_options signal2))
  /\ option_map p_stage (pending_of started) = Some Extracting
  /\ option_map p_signal (pending_of started)
     = currentProcessingAbortController (state_of started)
  /\ option_map (fun p => aborted (state_of cancelled) (p_signal p))
       (pending_of started)
     = Some true
  /\ problemInfo (state_of cancelled) = None
  /\ events_of cancelled = [NO_SCREENSHOTS]
  /\ option_map p_stage (pending_of extractedAfterCancel) = Some Solving
  /\ problemInfo (state_of extractedAfterCancel) = Some sumProblem
  /\ value_of solvedAfterCancel = Finished
  /\ existsb is_success_event (events_of solvedAfterCancel) = true.
Proof.
  split; [intros x messages signal1 signal2;
          apply AdapterFacts.adapter_calls_ignore_signal|].
  repeat split; vm_compute; reflexivity.
Qed.

End OrchestratorFacts.

(** ** Facts about the configuration store *)

Module ConfigFacts.

Import JS ConfigHelper Terms StringFacts.

(** Reading back what [saveConfig] wrote gives the object that was
    saved, whatever the defaults are. *)
Lemma merge_stringify (h : Helper) (c : Config) :
  merge (defaultConfig h) (stringify c) = c.
Proof.
  destruct c as [a o c l op i lm k m]. unfold merge, stringify. cbn.
  destruct k, m; reflexivity.
Qed.

Lemma loadConfig_saved (c : Config) (h : Helper) :
  loadConfig (saveConfig c h) = (c, saveConfig c h).
Proof.
  unfold loadConfig, loadConfig_object, saveConfig. cbn [disk].
  rewrite (merge_stringify
             (mkHelper (default_openai h) (default_claude h)
                (Stored (stringify c)))). reflexivity.
Qed.

Lemma loadConfig_saved_object (c : Config) (h : Helper) :
  loadConfig_object (saveConfig c h) = (c, Fresh, saveConfig c h).
Proof.
  unfold loadConfig_object, saveConfig. cbn [disk].
  rewrite (merge_stringify
             (mkHelper (default_openai h) (default_claude h)
                (Stored (stringify c)))). reflexivity.
Qed.

Lemma updateConfig_saved (updates : Update) (h : Helper) :
  exists c h2, updateConfig updates h = (c, saveConfig c h2, [c]).
Proof.
  unfold updateConfig.
  destruct (loadConfig_object h) as [[loaded origin] h1].
  destruct (upd_providers updates) as [ps|]; eauto.
Qed.

(** X1.  [updateConfig] returns the configuration it has written, sends
    it in exactly one [config-updated] event, and the next [loadConfig]
    returns the same configuration and leaves the store as it is. *)
Theorem update_then_load (updates : Update) (h : Helper) :
  let r := updateConfig updates h in
  loadConfig (helper_after r) = (value r, helper_after r)
  /\ emitted r = [value r]
  /\ disk (helper_after r) = Stored (stringify (value r)).
Proof.
  cbn zeta. destruct (updateConfig_saved updates h) as (c & h2 & ->).
  cbn [value helper_after emitted fst snd].
  split; [apply loadConfig_saved | split; reflexivity].
Qed.



(** X3.  A file of the single-provider format, with [apiKey] and without
    [providers], is rewritten when the helper is constructed: OpenAI is
    the active provider and has the old key, its model is the old
    [extractionModel] or gpt-4o, the language is kept; the old keys are
    gone from the file, so constructing the helper again changes
    nothing. *)
Theorem old_format_is_migrated (old : FileConfig) (key : str) :
  file_apiKey old = Some key ->
  file_providers old = None ->
  let h := construct (Stored old) in
  let c := fst (loadConfig h) in
  activeProvider c = lit "openai"
  /\ cfg_apiKey (openai c) = key
  /\ cfg_model (openai c)
     = string_or (file_extractionModel old) (lit "gpt-4o")
  /\ cfg_apiKey (claude c) = []
  /\ language c = string_or (file_language old) (lit "python")
  /\ old_apiKey c = None
  /\ snd (loadConfig h) = h
  /\ construct (disk h) = h.
Proof.
  intros Hk Hp. cbn zeta.
  unfold construct, ensureConfigExists, new_helper. cbn [disk].
  unfold migrateConfig, loadRawConfig. cbn [disk]. rewrite Hk, Hp.
  rewrite loadConfig_saved. cbn [fst snd].
  unfold migrated. cbn. rewrite Hk. destruct key; repeat split; reflexivity.
Qed.

Lemma old_format_is_migrated_witness :
  cfg_apiKey (openai (fst (loadConfig (construct (Stored oldFormatFile)))))
  = lit "sk-old".
Proof.
  exact (proj1 (proj2 (old_format_is_migrated oldFormatFile (lit "sk-old")
                         eq_refl eq_refl))).
Defined.

(** X4.  A file that is there and is not of the old format is left as it
    is by the constructor, whatever it holds; a missing file is created
    with the defaults. *)
Theorem constructor_keeps_current_files (f : FileConfig) :
  (file_apiKey f = None \/ file_providers f <> None ->
   disk (construct (Stored f)) = Stored f)
  /\ disk (construct Unreadable) = Unreadable
  /\ disk (construct Missing) = Stored (stringify initialDefaultConfig).
Proof.
  split; [|split; reflexivity].
  intros H. unfold construct, ensureConfigExists, new_helper. cbn [disk].
  unfold migrateConfig, loadRawConfig. cbn [disk].
  destruct (file_apiKey f) as [k|]; [|reflexivity].
  destruct (file_providers f); [reflexivity|].
  destruct H as [H|H]; [discriminate H | contradiction].
Qed.



(** X6.  What [setInterviewMode], [setLanguage] and [setLaunchMode] store
    is what the getters return afterwards, except that an empty mode
    reads back as "coding" and an empty language as "python". *)
Theorem setters_round_trip (h : Helper) :
  (forall mode,
     fst (getInterviewMode (helper_after (setInterviewMode mode h)))
     = or_else mode (lit "coding"))
  /\ (forall l,
        fst (getLanguage (helper_after (setLanguage l h)))
        = or_else l (lit "python"))
  /\ (forall mode,
        fst (getLaunchMode (helper_after (setLaunchMode mode h))) = mode)
  /\ (forall provider,
        fst (getActiveProvider (helper_after (setActiveProvider provider h)))
        = provider).
Proof.
  unfold getInterviewMode, setInterviewMode, getLanguage, setLanguage,
    getLaunchMode, setLaunchMode, getActiveProvider, setActiveProvider,
    discard, updateConfig.
  destruct (loadConfig_object h) as [[loaded origin] h1].
  cbn [upd_providers only_interviewMode only_language only_launchMode
       only_activeProvider helper_after fst snd].
  repeat split; intros x; rewrite loadConfig_saved; reflexivity.
Qed.

End ConfigFacts.

(** ** Facts about the format of API keys *)

Module KeyFormatFacts.

Import JS Regex ConfigHelper Terms StringFacts RegexFacts.

(** A greedy star over a class, followed by the end of the input: the
    whole rest must be in the class. *)
Lemma star_class_eol (p : char -> bool) (c : list (nat * str)) :
  forall w fuel n,
    length w < fuel ->
    star_loop (run (Cls p)) true (fun s => run Eol s Some) fuel (MState n w c)
    = if forallb p w then Some (MState (n + length w) [] c) else None.
Proof.
  induction w as [|d w IH]; intros fuel n Hfuel.
  - destruct fuel as [|fuel]; [inversion Hfuel|].
    cbn. rewrite Nat.add_0_r. reflexivity.
  - destruct fuel as [|fuel]; [inversion Hfuel|].
    cbn [star_loop]. rewrite run_class_cons. cbn [forallb length pos].
    destruct (p d) eqn:Hd; cbn [andb].
    + assert (Hlt : (n <? S n) = true) by (apply Nat.ltb_lt; lia).
      rewrite Hlt. rewrite IH by (cbn in Hfuel; lia).
      replace (S n + length w) with (n + S (length w)) by lia.
      destruct (forallb p w); reflexivity.
    + reflexivity.
Qed.

Lemma run_at_least_eol (p : char -> bool) (c : list (nat * str)) :
  forall m w n,
    run (at_least m (Cls p)) (MState n w c) (fun s => run Eol s Some)
    = if forallb p w && (m <=? length w)
      then Some (MState (n + length w) [] c) else None.
Proof.
  induction m as [|m IH]; intros w n.
  - cbn [at_least].
    change (run (Star true (Cls p)) ?s ?k)
      with (star_loop (run (Cls p)) true k (S (length (rest s))) s).
    cbn [rest]. rewrite star_class_eol by lia.
    cbn [Nat.leb]. rewrite andb_true_r. reflexivity.
  - cbn [at_least].
    change (run (Seq ?a ?b) ?s ?k) with (run a s (fun s' => run b s' k)).
    destruct w as [|d w].
    + cbn. reflexivity.
    + rewrite run_class_cons. cbn [forallb length].
      destruct (p d); cbn [andb]; [|reflexivity].
      rewrite IH. replace (S n + length w) with (n + S (length w)) by lia.
      reflexivity.
Qed.

(** A literal: the input must start with it. *)
Lemma run_literal (l : str) :
  forall s n c k,
    run (seqs (List.map chr l)) (MState n s c) k
    = if starts_with l s
      then k (MState (n + length l) (skipn (length l) s) c)
      else None.
Proof.
  induction l as [|x l IH]; intros s n c k.
  - cbn. rewrite Nat.add_0_r. reflexivity.
  - destruct l as [|y l].
    + cbn [List.map seqs]. unfold chr. destruct s as [|d s].
      * reflexivity.
      * rewrite run_class_cons. cbn [starts_with length skipn].
        unfold char_eqb. rewrite (N.eqb_sym x d).
        destruct (d =? x)%N; cbn [andb]; [|reflexivity].
        replace (n + 1) with (S n) by lia. destruct s; reflexivity.
    + change (seqs (List.map chr (x :: y :: l)))
        with (Seq (chr x) (seqs (List.map chr (y :: l)))).
      change (run (Seq ?a ?b) ?s ?k) with (run a s (fun s' => run b s' k)).
      unfold chr at 1. destruct s as [|d s].
      * reflexivity.
      * rewrite run_class_cons. cbn [starts_with]. unfold char_eqb.
        rewrite (N.eqb_sym x d).
        destruct (d =? x)%N; cbn [andb]; [|reflexivity].
        rewrite IH. cbn [length skipn].
        replace (S n + S (length l)) with (n + S (S (length l))) by lia.
        reflexivity.
Qed.

(** A pattern that starts with the anchor matches at the start of the
    input or nowhere. *)
Lemma exec_from_anchored (r : re) (s : str) :
  forall p, 0 < p -> exec_from (Seq Bol r) p s = None.
Proof.
  induction s as [|d s IH]; intros p Hp.
  - cbn. destruct p; [inversion Hp | reflexivity].
  - cbn [exec_from].
    change (run (Seq Bol r) ?st ?k) with (run Bol st (fun s' => run r s' k)).
    cbn [run pos]. destruct p; [inversion Hp|]. cbn [Nat.eqb].
    apply IH. lia.
Qed.

Lemma test_prefixed (pre : string) (p : char -> bool) (m : nat) (s : str) :
  test (seqs [Bol; text pre; at_least m (Cls p); Eol]) s = prefixed pre p m s.
Proof.
  unfold test, exec, prefixed.
  change (seqs [Bol; text pre; at_least m (Cls p); Eol])
    with (Seq Bol (Seq (text pre) (Seq (at_least m (Cls p)) Eol))).
  assert (Hrun :
    run (Seq Bol (Seq (text pre) (Seq (at_least m (Cls p)) Eol)))
      (MState 0 s []) Some
    = if starts_with (lit pre) s
         && forallb p (skipn (length (lit pre)) s)
         && (m <=? length s - length (lit pre))
      then Some (MState (length s) [] []) else None).
  { change (run (Seq ?a ?b) ?st ?k) with (run a st (fun s' => run b s' k)).
    cbn [run pos Nat.eqb]. unfold text. rewrite run_literal.
    destruct (starts_with (lit pre) s) eqn:Hpre; [|reflexivity].
    cbn [andb].
    change (run (Seq ?a ?b) ?st ?k) with (run a st (fun s' => run b s' k)).
    rewrite run_at_least_eol. rewrite length_skipn.
    destruct (forallb p (skipn (length (lit pre)) s)
              && (m <=? length s - length (lit pre))) eqn:E; [|reflexivity].
    do 2 f_equal. cbn [Nat.add].
    assert (length (lit pre) <= length s).
    { clear -Hpre. revert s Hpre. induction (lit pre) as [|x l IH];
        intros s Hpre; [cbn; lia|].
      destruct s as [|d s]; [discriminate|]. cbn in Hpre.
      apply andb_true_iff in Hpre. destruct Hpre as [_ Hpre].
      apply IH in Hpre. cbn. lia. }
    lia. }
  destruct s as [|d s].
  - cbn [exec_from]. rewrite Hrun.
    destruct (starts_with (lit pre) [] && _ && _); reflexivity.
  - cbn [exec_from]. rewrite Hrun.
    destruct (starts_with (lit pre) (d :: s) && _ && _); [reflexivity|].
    rewrite exec_from_anchored by lia. reflexivity.
Qed.

Lemma starts_with_split (l s : str) :
  starts_with l s = true <-> exists t, s = l ++ t.
Proof.
  revert s. induction l as [|x l IH]; intros s.
  - cbn. split; [exists s; reflexivity | reflexivity].
  - destruct s as [|d s]; cbn [starts_with].
    + split; [discriminate | intros [t Ht]; discriminate Ht].
    + rewrite andb_true_iff, IH. unfold char_eqb. rewrite N.eqb_eq. split.
      * intros [-> [t ->]]. exists t. reflexivity.
      * intros [t Ht]. injection Ht as -> ->. split; [reflexivity|].
        exists t. reflexivity.
Qed.

Lemma prefixed_spec (pre : string) (p : char -> bool) (m : nat) (s : str) :
  prefixed pre p m s = true
  <-> exists body,
        s = lit pre ++ body /\ forallb p body = true /\ m <= length body.
Proof.
  unfold prefixed. rewrite !andb_true_iff, starts_with_split, Nat.leb_le.
  split.
  - intros [[[t ->] Hp] Hm]. exists t.
    rewrite skipn_app, skipn_all, Nat.sub_diag in Hp. cbn in Hp.
    rewrite length_app in Hm. repeat split; [exact Hp | lia].
  - intros [body [-> [Hp Hm]]].
    rewrite skipn_app, skipn_all, Nat.sub_diag, length_app. cbn.
    repeat split; [exists body; reflexivity | exact Hp | lia].
Qed.

Lemma isValidApiKeyFormat_openai (key : str) :
  isValidApiKeyFormat key (lit "openai")
  = prefixed "sk-" is_alnum 32 (trim key).
Proof.
  unfold isValidApiKeyFormat, openaiKeyRegex.
  change (JS.eqb (lit "openai") (lit "openai")) with true. cbv iota.
  rewrite test_prefixed.
  destruct (negb (truthy key) || (length (trim key) =? 0)) eqn:E;
    [|reflexivity].
  assert (Ht : trim key = []).
  { apply orb_true_iff in E. destruct E as [E|E].
    - destruct key; [reflexivity | discriminate E].
    - apply Nat.eqb_eq in E. destruct (trim key); [reflexivity|discriminate E]. }
  rewrite Ht. reflexivity.
Qed.

Lemma isValidApiKeyFormat_claude (key : str) :
  isValidApiKeyFormat key (lit "claude")
  = prefixed "sk-ant-" is_alnum 24 (trim key).
Proof.
  unfold isValidApiKeyFormat, claudeKeyRegex.
  change (JS.eqb (lit "claude") (lit "openai")) with false.
  change (JS.eqb (lit "claude") (lit "claude")) with true. cbv iota.
  rewrite test_prefixed.
  destruct (negb (truthy key) || (length (trim key) =? 0)) eqn:E;
    [|reflexivity].
  assert (Ht : trim key = []).
  { apply orb_true_iff in E. destruct E as [E|E].
    - destruct key; [reflexivity | discriminate E].
    - apply Nat.eqb_eq in E. destruct (trim key); [reflexivity|discriminate E]. }
  rewrite Ht. reflexivity.
Qed.

(** X7.  [isValidApiKeyFormat] accepts for OpenAI exactly the keys that,
    trimmed, are "sk-" followed by at least 32 letters and digits and
    nothing else, and for Claude exactly those that are "sk-ant-"
    followed by at least 24 letters and digits; for any other provider
    name it accepts exactly the keys of more than ten characters after
    trimming. *)
Theorem key_format_characterised (key : str) :
  (isValidApiKeyFormat key (lit "openai") = true
   <-> exists body,
         trim key = lit "sk-" ++ body
         /\ forallb is_alnum body = true /\ 32 <= length body)
  /\ (isValidApiKeyFormat key (lit "claude") = true
      <-> exists body,
            trim key = lit "sk-ant-" ++ body
            /\ forallb is_alnum body = true /\ 24 <= length body)
  /\ (forall provider,
        provider <> lit "openai" -> provider <> lit "claude" ->
        (isValidApiKeyFormat key provider = true
         <-> 10 < length (trim key))).
Proof.
  split; [|split].
  - rewrite isValidApiKeyFormat_openai. apply prefixed_spec.
  - rewrite isValidApiKeyFormat_claude. apply prefixed_spec.
  - intros provider Ho Hc. unfold isValidApiKeyFormat.
    destruct (JS.eqb provider (lit "openai")) eqn:Eo;
      [apply eqb_eq in Eo; contradiction|].
    destruct (JS.eqb provider (lit "claude")) eqn:Ec;
      [apply eqb_eq in Ec; contradiction|].
    destruct (negb (truthy key) || (length (trim key) =? 0)) eqn:E.
    + split; [discriminate|]. intros Hlen.
      apply orb_true_iff in E. destruct E as [E|E].
      * destruct key; [cbn in Hlen; lia | discriminate E].
      * apply Nat.eqb_eq in E. lia.
    + apply Nat.ltb_lt.
Qed.

(** X8.  No key has the format of both providers: a key that
    [isValidApiKeyFormat] accepts for OpenAI is rejected for Claude, and
    so the other way round. *)
Theorem key_format_exclusive (key : str) :
  isValidApiKeyFormat key (lit "openai")
  && isValidApiKeyFormat key (lit "claude") = false.
Proof.
  destruct (isValidApiKeyFormat key (lit "openai")) eqn:Eo; [|reflexivity].
  destruct (isValidApiKeyFormat key (lit "claude")) eqn:Ec; [|reflexivity].
  exfalso.
  rewrite isValidApiKeyFormat_openai in Eo.
  rewrite isValidApiKeyFormat_claude in Ec.
  apply prefixed_spec in Eo. apply prefixed_spec in Ec.
  destruct Eo as [b1 [H1 [Hp _]]]. destruct Ec as [b2 [H2 _]].
  rewrite H2 in H1.
  change (lit "sk-ant-" ++ b2) with (lit "sk-" ++ (lit "ant-" ++ b2)) in H1.
  apply app_inv_head in H1. subst b1. discriminate Hp.
Qed.

End KeyFormatFacts.

(** ** Facts about the handlers of the main process *)

Module IpcFacts.

Import JS Adapters Orchestrator Scenarios Terms StringFacts
  OrchestratorFacts ConfigFacts.

#[local] Hint Rewrite @value_of_bind @state_of_bind @state_of_send_if
  state_of_send state_of_modify state_of_get value_of_get @value_of_ret
  @state_of_ret : op.

Lemma trim_start_nil (s : str) :
  trim_start s = [] <-> forallb is_space s = true.
Proof.
  induction s as [|c s IH]; cbn; [tauto|].
  destruct (is_space c); cbn; [exact IH | split; discriminate].
Qed.

Lemma forallb_rev {A} (p : A -> bool) (l : list A) :
  forallb p (rev l) = forallb p l.
Proof.
  induction l as [|x l IH]; [reflexivity|].
  cbn. rewrite forallb_app, IH. cbn. rewrite andb_true_r. apply andb_comm.
Qed.

(** A string trims to nothing exactly when it is made of white space. *)
Lemma trim_nil (s : str) : trim s = [] <-> forallb is_space s = true.
Proof.
  unfold trim, trim_end. split.
  - intros H. apply (f_equal (@rev _)) in H. rewrite rev_involutive in H.
    cbn in H. apply trim_start_nil in H. rewrite forallb_rev in H.
    pose proof (trim_start_head s) as Hh.
    destruct (trim_start s) as [|c t] eqn:E.
    + apply trim_start_nil. exact E.
    + cbn in H. rewrite Hh in H. discriminate H.
  - intros H. apply trim_start_nil in H. rewrite H. reflexivity.
Qed.

Lemma has_key_truthy (key : str) :
  truthy key && (0 <? length (trim key)) = true ->
  truthy key = true /\ forallb is_space key = false.
Proof.
  intros H. apply andb_true_iff in H. destruct H as [Ht Hl].
  split; [exact Ht|].
  destruct (forallb is_space key) eqn:E; [|reflexivity].
  apply trim_nil in E. rewrite E in Hl. discriminate Hl.
Qed.

(** X9.  [hasApiKey] holds exactly when the configuration has an entry
    for the provider asked for (the active one when none is given) and
    the key of the entry has a character that is not white space. *)
Theorem hasApiKey_needs_a_visible_key (provider : option str)
    (h : ConfigHelper.Helper) :
  let c := fst (ConfigHelper.loadConfig h) in
  let p :=
    match provider with
    | Some p => or_else p (ConfigHelper.activeProvider c)
    | None => ConfigHelper.activeProvider c
    end in
  fst (ConfigHelper.hasApiKey provider h) = true
  <-> exists entry,
        ConfigHelper.provider_entry c p = Some entry
        /\ forallb is_space (cfg_apiKey entry) = false.
Proof.
  cbn zeta. unfold ConfigHelper.hasApiKey.
  destruct (ConfigHelper.loadConfig h) as [c h']. cbn [fst].
  destruct (ConfigHelper.provider_entry c _) as [entry|].
  - split.
    + intros H. apply has_key_truthy in H. exists entry. tauto.
    + intros [e [[= <-] He]]. unfold ConfigHelper.cfg_apiKey.
      apply andb_true_iff. split.
      * destruct (cfg_apiKey entry); [discriminate He | reflexivity].
      * apply Nat.ltb_lt. destruct (trim (cfg_apiKey entry)) eqn:E;
          [|cbn; lia].
        apply trim_nil in E. congruence.
  - split; [discriminate | intros [e [[=] _]]].
Qed.

Lemma active_provider_config_for (c : ConfigHelper.Config) :
  active_provider_config (ConfigHelper.for_orchestrator c)
  = ConfigHelper.provider_entry c (ConfigHelper.activeProvider c).
Proof. reflexivity. Qed.

(** The adapter that [initializeModelAdapter] leaves in
    [this.modelAdapter]. *)
Lemma initializeModelAdapter_current (s : State) :
  option_map snd (current_adapter (state_of (initializeModelAdapter s)))
  = match active_provider_config (config s) with
    | Some entry =>
        if truthy (cfg_apiKey entry) then
          match createModelAdapter (activeProvider (config s))
                  (cfg_apiKey entry) (cfg_model entry) with
          | inl a => Some a
          | inr _ => None
          end
        else None
    | None => None
    end.
Proof.
  unfold initializeModelAdapter. rewrite state_of_modify.
  unfold current_adapter.
  destruct (active_provider_config (config s)) as [entry|]; [|reflexivity].
  destruct (truthy (cfg_apiKey entry)); [|reflexivity].
  destruct (createModelAdapter _ _ _) as [a|e]; [|reflexivity].
  cbn [modelAdapter set_modelAdapter adapters set_adapters].
  rewrite lookup_app_r by lia. rewrite Nat.sub_diag. reflexivity.
Qed.

(** X10.  Settings saved through ["update-config"] are in force at once:
    the listener of the processing helper has replaced its adapter by a
    new one for the active provider, the key and the model of the
    configuration that [updateConfig] returned, or by none when that
    provider has no key or is not a known one. *)
Theorem saved_settings_reach_the_adapter (updates : ConfigHelper.Update)
    (m : Ipc.Main) :
  let r := Ipc.update_config updates m in
  let c := fst r in
  let s' := Ipc.processing (snd r) in
  config s' = ConfigHelper.for_orchestrator c
  /\ option_map snd (current_adapter s')
     = match ConfigHelper.provider_entry c (ConfigHelper.activeProvider c) with
       | Some entry =>
           if truthy (cfg_apiKey entry) then
             match createModelAdapter (ConfigHelper.activeProvider c)
                     (cfg_apiKey entry) (cfg_model entry) with
             | inl a => Some a
             | inr _ => None
             end
           else None
       | None => None
       end
  /\ ConfigHelper.loadConfig (Ipc.store (snd r)) = (c, Ipc.store (snd r)).
Proof.
  cbn zeta. unfold Ipc.update_config.
  destruct (updateConfig_saved updates (Ipc.store m)) as (c & h2 & ->).
  cbn [fold_left fst snd]. unfold Ipc.on_config_updated, Ipc.reload.
  cbn [Ipc.store Ipc.processing]. rewrite loadConfig_saved.
  cbn [Ipc.store Ipc.processing].
  split; [|split].
  - destruct (initializeModelAdapter_adapters
                (set_config (ConfigHelper.for_orchestrator c)
                   (Ipc.processing m))) as (_ & _ & _ & _ & ->).
    reflexivity.
  - rewrite initializeModelAdapter_current. reflexivity.
  - apply loadConfig_saved.
Qed.

Lemma loadConfig_again (h : ConfigHelper.Helper) :
  ConfigHelper.loadConfig (snd (ConfigHelper.loadConfig h))
  = ConfigHelper.loadConfig h.
Proof.
  destruct (ConfigHelper.disk h) eqn:E.
  - assert (H : ConfigHelper.loadConfig h
                = (ConfigHelper.defaultConfig h,
                   ConfigHelper.saveConfig (ConfigHelper.defaultConfig h) h)).
    { unfold ConfigHelper.loadConfig, ConfigHelper.loadConfig_object.
      rewrite E. reflexivity. }
    rewrite H. cbn [snd]. apply loadConfig_saved.
  - assert (H : ConfigHelper.loadConfig h = (ConfigHelper.defaultConfig h, h)).
    { unfold ConfigHelper.loadConfig, ConfigHelper.loadConfig_object.
      rewrite E. reflexivity. }
    rewrite H. cbn [snd]. exact H.
  - assert (H : ConfigHelper.loadConfig h
                = (ConfigHelper.merge (ConfigHelper.defaultConfig h) c, h)).
    { unfold ConfigHelper.loadConfig, ConfigHelper.loadConfig_object.
      rewrite E. reflexivity. }
    rewrite H. cbn [snd]. exact H.
Qed.

Lemma first_event JSON_parse readScreenshots (s : State) :
  mainWindow s = true ->
  is_Some (modelAdapter (state_of
     ((match modelAdapter s with
       | None => initializeModelAdapter
       | Some _ => ret tt
       end) s))) ->
  exists e rest,
    events_of (processScreenshots JSON_parse readScreenshots s) = e :: rest
    /\ (e = INITIAL_START \/ e = NO_SCREENSHOTS \/ e = DEBUG_START).
Proof.
  intros Hw Ha. unfold processScreenshots.
  rewrite events_of_bind. autorewrite with op. rewrite Hw. cbn [negb].
  rewrite events_of_bind. autorewrite with op.
  set (s1 := state_of _) in *.
  assert (Hinit : events_of
            (match modelAdapter s with
             | Some _ => ret tt
             | None => initializeModelAdapter
             end s) = []) by (destruct (modelAdapter s); reflexivity).
  rewrite Hinit. cbn [events_of get snd app].
  rewrite events_of_bind. autorewrite with op. cbn [events_of get snd app].
  destruct Ha as [i Hi]. rewrite Hi.
  destruct (view s1).
  - rewrite events_of_bind. cbn [events_of send snd app]. eauto.
  - destruct (extraScreenshotQueue s1).
    + rewrite events_of_bind. cbn [events_of send snd app]. eauto 6.
    + rewrite events_of_bind. cbn [events_of send snd app]. eauto 6.
Qed.

Lemma or_else_same (a : str) : or_else a a = a.
Proof. destruct a; reflexivity. Qed.

(** [initializeModelAdapter] leaves an adapter when the active provider
    has an entry with a key. *)
Lemma initializeModelAdapter_some (s : State) (entry : ModelProviderConfig) :
  active_provider_config (config s) = Some entry ->
  truthy (cfg_apiKey entry) = true ->
  is_Some (modelAdapter (state_of (initializeModelAdapter s))).
Proof.
  intros He Hk. unfold initializeModelAdapter. rewrite state_of_modify.
  rewrite He, Hk.
  destruct (createModelAdapter_known (config s) entry He) as [a ->].
  cbn. eauto.
Qed.

(** X11.  ["process-screenshots"] checks the key of the active provider
    first.  Without one it sends API_KEY_INVALID to the window, if there
    is a window, and leaves the processing helper alone.  With one, and
    with a window, the processing helper finds or builds its adapter and
    the run starts: the first event is INITIAL_START, DEBUG_START or
    NO_SCREENSHOTS, never API_KEY_INVALID. *)
Theorem process_screenshots_gate JSON_parse readScreenshots (m : Ipc.Main) :
  let hasKey := fst (ConfigHelper.hasApiKey None (Ipc.store m)) in
  let r := Ipc.process_screenshots JSON_parse readScreenshots m in
  (hasKey = false ->
   fst (fst r) = Finished
   /\ snd r
      = (if mainWindow (Ipc.processing m) then [API_KEY_INVALID] else [])
   /\ Ipc.processing (snd (fst r)) = Ipc.processing m)
  /\ (hasKey = true ->
      mainWindow (Ipc.processing m) = true ->
      exists e rest,
        snd r = e :: rest
        /\ (e = INITIAL_START \/ e = NO_SCREENSHOTS \/ e = DEBUG_START)).
Proof.
  cbn zeta. unfold Ipc.process_screenshots.
  pose proof (loadConfig_again (Ipc.store m)) as Hagain.
  unfold ConfigHelper.hasApiKey, Ipc.reload.
  destruct (ConfigHelper.loadConfig (Ipc.store m)) as [c h1] eqn:El.
  cbn [snd] in Hagain. rewrite Hagain. cbn [fst Ipc.store Ipc.processing].
  rewrite or_else_same. rewrite Hagain.
  destruct (ConfigHelper.provider_entry c (ConfigHelper.activeProvider c))
    as [entry|] eqn:Ee.
  2:{ cbn [negb]. split; [|discriminate]. intros _.
      destruct (mainWindow (Ipc.processing m)); repeat split; reflexivity. }
  destruct (truthy (ConfigHelper.cfg_apiKey entry)
            && (0 <? length (trim (ConfigHelper.cfg_apiKey entry)))) eqn:Ek.
  - cbn [negb]. split; [discriminate|]. intros _ Hw.
    apply has_key_truthy in Ek. destruct Ek as [Hk _].
    set (s := set_config (ConfigHelper.for_orchestrator c) (Ipc.processing m)).
    assert (Ha : is_Some (modelAdapter (state_of
              ((match modelAdapter s with
                | None => initializeModelAdapter
                | Some _ => ret tt
                end) s)))).
    { destruct (modelAdapter s) as [i|] eqn:Ei.
      - rewrite state_of_ret, Ei. eauto.
      - apply (initializeModelAdapter_some s entry); [exact Ee | exact Hk]. }
    destruct (first_event JSON_parse readScreenshots s Hw Ha)
      as (e & rest & He & Hcase).
    unfold events_of in He. cbn [Ipc.processing Ipc.store].
    destruct (processScreenshots JSON_parse readScreenshots s)
      as [[p s'] ev]. cbn [snd fst] in *. eauto.
  - cbn [negb]. split; [|discriminate]. intros _.
    destruct (mainWindow (Ipc.processing m)); repeat split; reflexivity.
Qed.

Lemma process_screenshots_gate_witness :
  exists e rest,
    snd (Ipc.process_screenshots parseSum readAll configuredMain) = e :: rest
    /\ (e = INITIAL_START \/ e = NO_SCREENSHOTS \/ e = DEBUG_START).
Proof.
  exact (proj2 (process_screenshots_gate parseSum readAll configuredMain)
           eq_refl eq_refl).
Defined.

End IpcFacts.

(** ** Facts about key tests, key masks, model lists and the start-up wait *)

Module KeyFacts.

Import JS Adapters Terms StringFacts KeyFormatFacts.

Lemma test_catch_explained (serverError : string) (e : JsError) :
  lit serverError <> [] ->
  Keys.valid (Keys.test_catch serverError e) = false
  /\ exists msg,
       Keys.error (Keys.test_catch serverError e) = Some msg /\ msg <> [].
Proof.
  intros Hs. unfold Keys.test_catch. cbn [Keys.valid Keys.error].
  split; [reflexivity|]. eexists. split; [reflexivity|].
  destruct (bool_decide (status e = Some 401%N)); [discriminate|].
  destruct (bool_decide (status e = Some 429%N)); [discriminate|].
  destruct (bool_decide (status e = Some 500%N)); [exact Hs|].
  destruct (truthy (message e)); discriminate.
Qed.

(** What [ConfigHelper.testApiKey] does for each provider name. *)
Lemma testApiKey_cases (key provider : str) :
  (provider = lit "openai"
   /\ Keys.testApiKey key provider = Keys.openai_testApiKey key)
  \/ (provider = lit "claude"
      /\ Keys.testApiKey key provider = Keys.claude_testApiKey key)
  \/ (provider <> lit "openai" /\ provider <> lit "claude"
      /\ Keys.testApiKey key provider
         = Keys.Answered
             (Keys.mkKeyTest false
                (Some (lit "Unsupported model provider: " ++ provider)))).
Proof.
  unfold Keys.testApiKey, createModelAdapter.
  destruct (JS.eqb provider (lit "openai")) eqn:Eo.
  { apply eqb_eq in Eo. left. split; [exact Eo | reflexivity]. }
  destruct (JS.eqb provider (lit "claude")) eqn:Ec.
  { apply eqb_eq in Ec. right. left. split; [exact Ec | reflexivity]. }
  right. right. apply eqb_neq in Eo. apply eqb_neq in Ec.
  repeat split; assumption.
Qed.

(** X12.  ["validate-api-key"] sends a request to a provider only for a
    key that has the format of that provider, and only for OpenAI and
    Claude: the request is the model listing for OpenAI and a ten-token
    message to claude-3-haiku for Claude, and it is made with the key as
    it was typed, not with the trimmed key that the format check looked
    at. *)
Theorem validation_probes_only_well_formed_keys (key : str)
    (provider : option str) (req : Keys.ProbeRequest) :
  Keys.probe_request (Ipc.validate_api_key key provider) = Some req ->
  let p := ConfigHelper.over (lit "openai") provider in
  ConfigHelper.isValidApiKeyFormat key p = true
  /\ ((p = lit "openai" /\ req = Keys.ModelsList key)
      \/ (p = lit "claude"
          /\ req = Keys.TestMessage key (lit "claude-3-haiku-20240307") 10
                     [(user, lit "Test")])).
Proof.
  cbn zeta. unfold Ipc.validate_api_key.
  destruct (ConfigHelper.isValidApiKeyFormat key _) eqn:Ef;
    cbn [negb]; [|discriminate].
  intros H. split; [reflexivity|].
  destruct (testApiKey_cases key (ConfigHelper.over (lit "openai") provider))
    as [[Hp Ht]|[[Hp Ht]|(_ & _ & Ht)]]; rewrite Ht in H.
  - injection H as <-. left. split; [exact Hp | reflexivity].
  - injection H as <-. right. split; [exact Hp | reflexivity].
  - discriminate H.
Qed.

Lemma validation_probes_only_well_formed_keys_witness :
  ConfigHelper.isValidApiKeyFormat wellFormedOpenAIKey (lit "openai") = true
  /\ ((lit "openai" = lit "openai"
       /\ Keys.ModelsList wellFormedOpenAIKey
          = Keys.ModelsList wellFormedOpenAIKey)
      \/ (lit "openai" = lit "claude"
          /\ Keys.ModelsList wellFormedOpenAIKey
             = Keys.TestMessage wellFormedOpenAIKey
                 (lit "claude-3-haiku-20240307") 10 [(user, lit "Test")])).
Proof.
  exact (validation_probes_only_well_formed_keys wellFormedOpenAIKey None
           (Keys.ModelsList wellFormedOpenAIKey) eq_refl).
Defined.

(** X13.  The answer of ["validate-api-key"] says that the key is valid
    exactly when a request was sent and the provider accepted it, and
    then it carries no error; every other answer carries an error
    message that is not empty. *)
Theorem validation_answers (key : str) (provider : option str)
    (answer : option JsError) :
  let probe := Ipc.validate_api_key key provider in
  let r := Keys.conclude probe answer in
  (Keys.valid r = true
   <-> is_Some (Keys.probe_request probe) /\ answer = None)
  /\ (Keys.valid r = true -> Keys.error r = None)
  /\ (Keys.valid r = false ->
      exists msg, Keys.error r = Some msg /\ msg <> []).
Proof.
  cbn zeta. unfold Ipc.validate_api_key.
  destruct (negb (ConfigHelper.isValidApiKeyFormat key _)).
  { cbn. split; [split; [discriminate | intros [[x [=]] _]]|].
    split; [discriminate|]. intros _. eexists. split; [reflexivity|].
    destruct (JS.eqb _ _); [discriminate|].
    destruct (JS.eqb _ _); discriminate. }
  destruct (testApiKey_cases key (ConfigHelper.over (lit "openai") provider))
    as [[Hp Ht]|[[Hp Ht]|(_ & _ & Ht)]]; rewrite Ht.
  - unfold Keys.openai_testApiKey. cbn [Keys.conclude Keys.probe_request].
    destruct answer as [e|]; cbn [Keys.after_probe].
    + destruct (test_catch_explained
                  "OpenAI server error. Please try again later." e)
        as [Hv Hm]; [discriminate|].
      rewrite Hv. split; [split; [discriminate | intros [_ [=]]]|].
      split; [discriminate | intros _; exact Hm].
    + cbn. split; [split; eauto|]. split; [reflexivity | discriminate].
  - unfold Keys.claude_testApiKey. cbn [Keys.conclude Keys.probe_request].
    destruct answer as [e|]; cbn [Keys.after_probe].
    + destruct (test_catch_explained
                  "Claude API server error. Please try again later." e)
        as [Hv Hm]; [discriminate|].
      rewrite Hv. split; [split; [discriminate | intros [_ [=]]]|].
      split; [discriminate | intros _; exact Hm].
    + cbn. split; [split; eauto|]. split; [reflexivity | discriminate].
  - cbn. split; [split; [discriminate | intros [[x [=]] _]]|].
    split; [discriminate|]. intros _. eexists. split; [reflexivity|].
    discriminate.
Qed.

(** X14.  The masked key.  For a key of ten code units or more the
    adapters and the settings dialog show the same text: the first four
    code units, three dots and the last four, eleven code units in all.
    The dialog shows nothing for a shorter key; the adapters mask it in
    the same way, so that a key of at most four code units appears in
    full on both sides of the dots. *)
Theorem masked_key (a : Adapter) :
  (10 <= length (apiKey a) ->
   Keys.getApiKey a = Keys.maskApiKey (apiKey a)
   /\ length (Keys.getApiKey a) = 11
   /\ exists middle,
        apiKey a
        = firstn 4 (apiKey a) ++ middle ++ skipn (length (apiKey a) - 4) (apiKey a)
        /\ Keys.getApiKey a
           = firstn 4 (apiKey a) ++ lit "..."
             ++ skipn (length (apiKey a) - 4) (apiKey a)
        /\ length middle = length (apiKey a) - 8)
  /\ (length (apiKey a) < 10 -> Keys.maskApiKey (apiKey a) = [])
  /\ (apiKey a <> [] -> length (apiKey a) <= 4 ->
      Keys.getApiKey a = apiKey a ++ lit "..." ++ apiKey a).
Proof.
  unfold Keys.getApiKey, Keys.maskApiKey, Keys.substring_to,
    Keys.substring_from.
  set (k := apiKey a). clearbody k. split; [|split].
  - intros Hlen.
    assert (Ht : truthy k = true) by (destruct k; [cbn in Hlen; lia | reflexivity]).
    assert (Hlt : (length k <? 10) = false) by (apply Nat.ltb_ge; exact Hlen).
    rewrite Ht, Hlt. cbn [negb orb]. split; [reflexivity|]. split.
    + rewrite !length_app, length_firstn, length_skipn.
      change (length (lit "...")) with 3. unfold str, char in *. lia.
    + exists (firstn (length k - 8) (skipn 4 k)).
      split; [|split; [reflexivity|]].
      * rewrite <- (firstn_skipn 4 k) at 1. f_equal.
        rewrite <- (firstn_skipn (length k - 8) (skipn 4 k)) at 1. f_equal.
        rewrite skipn_skipn. f_equal. unfold str, char in *. lia.
      * rewrite length_firstn, length_skipn. unfold str, char in *. lia.
  - intros Hlen. apply Nat.ltb_lt in Hlen. rewrite Hlen.
    rewrite orb_true_r. reflexivity.
  - intros Hne Hlen.
    assert (Ht : truthy k = true) by (destruct k; [contradiction | reflexivity]).
    rewrite Ht. cbn [negb].
    rewrite firstn_all2 by exact Hlen.
    replace (length k - 4) with 0 by lia. reflexivity.
Qed.

Lemma masked_key_witness :
  Keys.getApiKey (mkAdapter (lit "sk-openai-key") (lit "gpt-4o") None)
  = Keys.maskApiKey (lit "sk-openai-key").
Proof.
  apply (masked_key (mkAdapter (lit "sk-openai-key") (lit "gpt-4o") None)).
  cbn. lia.
Defined.

End KeyFacts.

(** ** Facts about the model lists and the start-up wait *)

Module FactoryFacts.

Import JS Parser Adapters Scenarios Terms StringFacts.

Lemma existsb_eqb_In (m : str) (names : list str) :
  existsb (JS.eqb m) names = true <-> In m names.
Proof.
  rewrite existsb_exists. split.
  - intros [x [Hx He]]. apply eqb_eq in He. subst x. exact Hx.
  - intros H. exists m. split; [exact H | apply eqb_refl].
Qed.

Lemma classic_in (m : str) (names : list str) :
  In m names \/ ~ In m names.
Proof.
  destruct (existsb (JS.eqb m) names) eqn:E.
  - left. apply existsb_eqb_In. exact E.
  - right. intros H. apply existsb_eqb_In in H. congruence.
Qed.

(** The model that [validateModel] settles on. *)
Lemma validate_in_spec (table : list (str * ModelInfo)) (dflt m : str) :
  (In m (model_names table) -> validate_in table dflt m = m)
  /\ (~ In m (model_names table) -> validate_in table dflt m = dflt).
Proof.
  unfold validate_in.
  destruct (existsb (JS.eqb m) (model_names table)) eqn:E.
  - apply existsb_eqb_In in E. split; [reflexivity | contradiction].
  - split; [|reflexivity]. intros H. apply existsb_eqb_In in H. congruence.
Qed.

(** X15.  The model of an adapter is always one of the models that the
    main process and the factory offer for its provider, with the same
    ids in both lists: [createModelAdapter] keeps a model that is offered
    and replaces any other by the default model of the provider, the one
    that [getDefaultModel] names. *)
Theorem adapter_model_is_an_offered_one (provider key m : str)
    (x : AnyAdapter) :
  createModelAdapter provider key m = inl x ->
  let offered := List.map ModelFactory.id (Ipc.get_available_models provider) in
  offered = List.map ModelFactory.id (ModelFactory.getAvailableModels provider)
  /\ In (any_model x) offered
  /\ (In m offered -> any_model x = m)
  /\ (~ In m offered ->
      ModelFactory.getDefaultModel provider = inl (any_model x)).
Proof.
  cbn zeta. unfold createModelAdapter, Ipc.get_available_models,
    ModelFactory.getAvailableModels, ModelFactory.getDefaultModel.
  destruct (JS.eqb provider (lit "openai")).
  { intros [= <-]. cbn [any_model construct model].
    unfold validateModel. cbn [models defaultModel OpenAIAdapter].
    destruct (validate_in_spec OPENAI_MODELS (lit "gpt-4o") m) as [Hin Hout].
    change (model_names OPENAI_MODELS)
      with (List.map ModelFactory.id
              [ModelFactory.choice "gpt-4o" "GPT-4o"
                 "Best overall performance, supports images";
               ModelFactory.choice "gpt-4o-mini" "GPT-4o Mini"
                 "Faster, more cost-effective option";
               ModelFactory.choice "gpt-4-turbo" "GPT-4 Turbo"
                 "Advanced capabilities with vision support";
               ModelFactory.choice "gpt-3.5-turbo" "GPT-3.5 Turbo"
                 "Fast and efficient for text-only tasks"]) in *.
    split; [reflexivity|]. split; [|split].
    - match goal with
      | |- In _ ?l => destruct (classic_in m l) as [H|H]
      end; [rewrite (Hin H); exact H | rewrite (Hout H); left; reflexivity].
    - exact Hin.
    - intros H. rewrite (Hout H). reflexivity. }
  destruct (JS.eqb provider (lit "claude")); [|discriminate].
  intros [= <-]. cbn [any_model construct model].
  unfold validateModel. cbn [models defaultModel ClaudeAdapter].
  destruct (validate_in_spec CLAUDE_MODELS (lit "claude-3-sonnet-20240229") m)
    as [Hin Hout].
  change (model_names CLAUDE_MODELS)
    with (List.map ModelFactory.id ModelFactory.claudeChoices) in *.
  split; [reflexivity|]. split; [|split].
  - destruct (classic_in m (List.map ModelFactory.id ModelFactory.claudeChoices))
      as [H|H];
      [rewrite (Hin H); exact H | rewrite (Hout H); right; left; reflexivity].
  - exact Hin.
  - intros H. rewrite (Hout H). reflexivity.
Qed.

Lemma adapter_model_is_an_offered_one_witness :
  In (lit "gpt-4o") (List.map ModelFactory.id
                       (Ipc.get_available_models (lit "openai"))).
Proof.
  exact (proj1 (proj2 (adapter_model_is_an_offered_one (lit "openai")
                         (lit "sk-openai") (lit "gpt-5")
                         (OpenAI (construct OpenAIProvider (lit "sk-openai")
                                    (lit "gpt-5")))
                         eq_refl))).
Defined.

(** X16.  The interview modes that the main process offers are exactly
    the modes that have a case of their own in the dispatch of
    [processSolutionResponse]: the answer for each offered mode, in the
    order of the list, goes to the processor of that mode, and the answer
    for any mode that is not offered goes to the default of the dispatch,
    the coding processor. *)
Theorem offered_modes_are_the_known_ones (content : str) :
  List.map (fun choice => processSolutionResponse content (ModelFactory.id choice))
    Ipc.get_interview_modes
  = [ processCodingSolution content;
      processSystemDesignSolution content;
      processReactSolution content;
      processSQLSolution content;
      processLinuxSolution content;
      processCertificationSolution content ]
  /\ forall mode,
       ~ In mode (List.map ModelFactory.id Ipc.get_interview_modes) ->
       processSolutionResponse content mode = processCodingSolution content.
Proof.
  split.
  - unfold Ipc.get_interview_modes.
    cbn [List.map ModelFactory.id ModelFactory.choice].
    unfold processSolutionResponse.
    repeat match goal with
      | |- context [Parser.is_mode ?n (lit ?m)] =>
          let b := eval vm_compute in (Parser.is_mode n (lit m)) in
          change (Parser.is_mode n (lit m)) with b
      end.
    cbv iota. reflexivity.
  - intros mode Hmode. unfold processSolutionResponse.
    assert (Hno : forall name,
      In (lit name) (List.map ModelFactory.id Ipc.get_interview_modes) ->
      Parser.is_mode name mode = false).
    { intros name Hin. unfold Parser.is_mode.
      destruct (JS.eqb mode (lit name)) eqn:E; [|reflexivity].
      apply eqb_eq in E. subst mode. contradiction. }
    rewrite (Hno "coding"%string), (Hno "system_design"%string),
      (Hno "react"%string), (Hno "sql"%string), (Hno "linux"%string),
      (Hno "certification"%string);
      [reflexivity| | | | | |];
      unfold Ipc.get_interview_modes;
      cbn [List.map ModelFactory.id ModelFactory.choice In]; tauto.
Qed.

End FactoryFacts.

Module StartupFacts.

Import JS Adapters Startup.

Lemma wait_loop_returns (polls : nat -> bool) :
  forall remaining attempts n,
    wait_loop polls attempts remaining = inl n
    <-> attempts <= n < attempts + remaining
        /\ polls n = true
        /\ forall i, attempts <= i < n -> polls i = false.
Proof.
  induction remaining as [|r IH]; intros attempts n; cbn [wait_loop].
  - split; [discriminate | intros [H _]; lia].
  - destruct (polls attempts) eqn:Ep.
    + split.
      * intros [= <-]. repeat split; [lia | lia | exact Ep | intros i Hi; lia].
      * intros (Hn & Hp & Hall). f_equal.
        destruct (Nat.eq_dec attempts n) as [E|E]; [exact E|].
        rewrite Hall in Ep by lia. discriminate Ep.
    + rewrite IH. split.
      * intros (Hn & Hp & Hall). repeat split; [lia | lia | exact Hp |].
        intros i Hi. destruct (Nat.eq_dec i attempts) as [->|E];
          [exact Ep | apply Hall; lia].
      * intros (Hn & Hp & Hall).
        assert (attempts <> n) by (intros ->; congruence).
        repeat split; [lia | lia | exact Hp | intros i Hi; apply Hall; lia].
Qed.

Lemma wait_loop_throws (polls : nat -> bool) :
  forall remaining attempts,
    (exists e, wait_loop polls attempts remaining = inr e)
    <-> forall i, attempts <= i < attempts + remaining -> polls i = false.
Proof.
  induction remaining as [|r IH]; intros attempts; cbn [wait_loop].
  - split; [intros _ i Hi; lia | eauto].
  - destruct (polls attempts) eqn:Ep.
    + split; [intros [e [=]]|]. intros H. rewrite H in Ep by lia.
      discriminate Ep.
    + rewrite IH. split; intros H i Hi.
      * destruct (Nat.eq_dec i attempts) as [->|E];
          [exact Ep | apply H; lia].
      * apply H. lia.
Qed.

(** X17.  [waitForInitialization] reads the flag of the window at most
    fifty times, 100 ms apart.  It returns at the first read that finds
    the flag set, after as many waits as there were reads before it; it
    throws exactly when none of the fifty reads finds the flag set, and
    the error is the one about five seconds.  [getCredits] is 999 in
    either case. *)
Theorem waitForInitialization_bounds (polls : nat -> bool) :
  (forall n,
     waitForInitialization polls = inl n
     <-> n < 50 /\ polls n = true /\ forall i, i < n -> polls i = false)
  /\ ((exists e, waitForInitialization polls = inr e)
      <-> forall i, i < 50 -> polls i = false)
  /\ (forall e,
        waitForInitialization polls = inr e ->
        e = Error (lit "App failed to initialize after 5 seconds"))
  /\ (forall w, getCredits w polls = 999%N).
Proof.
  unfold waitForInitialization, maxAttempts.
  split; [|split; [|split]].
  - intros n. rewrite wait_loop_returns. split.
    + intros (Hn & Hp & Hall).
      repeat split; [lia | exact Hp | intros i Hi; apply Hall; lia].
    + intros (Hn & Hp & Hall).
      repeat split; [lia | lia | exact Hp | intros i Hi; apply Hall; lia].
  - rewrite wait_loop_throws. split; intros H i Hi; apply H; lia.
  - intros e. generalize 0 at 1. generalize 50.
    induction n as [|n IH]; intros a; cbn [wait_loop].
    + intros [= <-]. reflexivity.
    + destruct (polls a); [discriminate | apply IH].
  - intros w. unfold getCredits, waitForInitialization.
    destruct (negb w); [reflexivity|].
    destruct (wait_loop polls 0 maxAttempts); reflexivity.
Qed.

End StartupFacts.

(** ** Further facts about the adapters *)

Module AdapterCallFacts.

Import JS Adapters Orchestrator Terms StringFacts FactoryFacts.

(** The model of an adapter that the factory built. *)
Lemma factory_model (provider key m : str) (x : AnyAdapter) :
  createModelAdapter provider key m = inl x ->
  (exists a,
     x = OpenAI a /\ apiKey a = key /\ client a = initializeClient key
     /\ In (model a) (model_names OPENAI_MODELS))
  \/ (exists a,
        x = Claude a /\ apiKey a = key /\ client a = initializeClient key
        /\ In (model a) (model_names CLAUDE_MODELS)).
Proof.
  unfold createModelAdapter.
  destruct (JS.eqb provider (lit "openai")).
  { intros [= <-]. left. eexists. repeat split.
    cbn [construct model]. unfold validateModel.
    cbn [models defaultModel OpenAIAdapter].
    destruct (validate_in_spec OPENAI_MODELS (lit "gpt-4o") m) as [Hin Hout].
    destruct (classic_in m (model_names OPENAI_MODELS)) as [H|H];
      [rewrite (Hin H); exact H | rewrite (Hout H); left; reflexivity]. }
  destruct (JS.eqb provider (lit "claude")); [|discriminate].
  intros [= <-]. right. eexists. repeat split.
  cbn [construct model]. unfold validateModel.
  cbn [models defaultModel ClaudeAdapter].
  destruct (validate_in_spec CLAUDE_MODELS (lit "claude-3-sonnet-20240229") m)
    as [Hin Hout].
  destruct (classic_in m (model_names CLAUDE_MODELS)) as [H|H];
    [rewrite (Hin H); exact H | rewrite (Hout H); right; left; reflexivity].
Qed.

(** X18.  An adapter that the factory built reaches its provider only
    when it was given a key: [complete] sends a request exactly when the
    key is not empty, [vision] exactly when the key is not empty and the
    model supports vision; and the only model without vision support that
    an adapter can have is gpt-3.5-turbo. *)
Theorem network_needs_a_key (provider key m : str) (x : AnyAdapter)
    (messages : list ModelMessage) (options : option ModelRequestOptions) :
  createModelAdapter provider key m = inl x ->
  touches_network (any_complete x messages options) = truthy key
  /\ touches_network (any_vision x messages options)
     = truthy key && any_supportsVision x
  /\ any_supportsVision x = negb (JS.eqb (any_model x) (lit "gpt-3.5-turbo")).
Proof.
  intros H. apply factory_model in H.
  destruct H as [(a & -> & Hk & Hc & Hm)|(a & -> & Hk & Hc & Hm)];
    cbn [any_complete any_vision any_supportsVision any_model complete vision
         OpenAIAdapter ClaudeAdapter];
    unfold supportsVision; cbn [models OpenAIAdapter ClaudeAdapter];
    unfold openai_complete, openai_vision, openai_supportsVision,
      claude_vision, claude_complete, claude_supportsVision, openai_request;
    rewrite Hc; subst key; unfold initializeClient;
    cbn [In model_names List.map fst OPENAI_MODELS CLAUDE_MODELS] in Hm;
    destruct Hm as [Hm|[Hm|[Hm|[Hm|[]]]]]; rewrite <- Hm;
    destruct (apiKey a) as [|c k]; repeat split; reflexivity.
Qed.

Lemma network_needs_a_key_witness :
  touches_network
    (any_complete (OpenAI (construct OpenAIProvider [] (lit "gpt-4o"))) [] None)
  = false.
Proof.
  exact (proj1 (network_needs_a_key (lit "openai") [] (lit "gpt-4o")
                  (OpenAI (construct OpenAIProvider [] (lit "gpt-4o")))
                  [] None eq_refl)).
Defined.

Lemma starts_with_prefix (p d : str) : starts_with p (p ++ d) = true.
Proof.
  induction p as [|c p IH]; [reflexivity|].
  cbn. unfold char_eqb. rewrite N.eqb_refl. exact IH.
Qed.

Lemma remove_first_prefix (p d : str) : remove_first p (p ++ d) = d.
Proof.
  destruct p as [|c p]; [destruct d; reflexivity|].
  cbn [remove_first app]. 
  change (c :: p ++ d) with ((c :: p) ++ d).
  rewrite starts_with_prefix. rewrite skipn_app, skipn_all, Nat.sub_diag.
  reflexivity.
Qed.

(** The part of a screenshot goes to Claude as an image block that holds
    the data of the file. *)
Lemma convert_image_part (data : str) :
  convertItem (image_part data)
  = ClaudeImage (lit "base64") (lit "image/png") data.
Proof.
  unfold convertItem, image_part. rewrite remove_first_prefix. reflexivity.
Qed.

(** X19.  The request that the Claude adapter sends for the messages of
    the extraction and debug calls: the system prompt is the text of the
    system message, and there is one user message, made of the text and
    then one base64 PNG image block for every screenshot, in the order of
    the queue, each with exactly the data that was read from the file;
    the model is the one of the adapter. *)
Theorem claude_request_carries_the_screenshots (a : Adapter)
    (systemPrompt prompt : str) (images : list str)
    (options : option ModelRequestOptions) :
  client a <> None ->
  exists req,
    claude_request_of
      (claude_complete a
         [ mkMessage system (Plain systemPrompt);
           mkMessage user
             (Parts (TextContent prompt :: List.map image_part images)) ]
         options) = Some req
    /\ cl_model req = model a
    /\ cl_system req = systemPrompt
    /\ cl_messages req
       = [ mkClaudeMessage user
             (ClaudeText prompt
              :: List.map (ClaudeImage (lit "base64") (lit "image/png"))
                   images) ].
Proof.
  intros Hc. unfold claude_complete.
  destruct (client a) as [k|]; [|contradiction].
  unfold convertToClaudeMessages.
  cbn [List.filter is_system Role_eqb role negb content system_text
       claude_request_of List.map convertMessage].
  eexists. split; [reflexivity|].
  cbn [cl_model cl_system cl_messages]. repeat split.
  unfold convertMessage. cbn [role content List.map].
  do 3 f_equal. rewrite List.map_map. apply List.map_ext.
  intros d. apply convert_image_part.
Qed.

Lemma claude_request_carries_the_screenshots_witness :
  exists req,
    claude_request_of
      (claude_complete
         (construct ClaudeProvider (lit "sk-ant-claude")
            (lit "claude-3-opus-20240229"))
         [ mkMessage system (Plain (lit "Extract the problem."));
           mkMessage user
             (Parts (TextContent (lit "Screenshots:")
                     :: List.map image_part [lit "iVBORw0KGgo="])) ]
         None) = Some req
    /\ cl_model req = lit "claude-3-opus-20240229"
    /\ cl_system req = lit "Extract the problem."
    /\ cl_messages req
       = [ mkClaudeMessage user
             (ClaudeText (lit "Screenshots:")
              :: List.map (ClaudeImage (lit "base64") (lit "image/png"))
                   [lit "iVBORw0KGgo="]) ].
Proof.
  assert (H : client (construct ClaudeProvider (lit "sk-ant-claude")
                        (lit "claude-3-opus-20240229")) <> None)
    by discriminate.
  exact (claude_request_carries_the_screenshots
           (construct ClaudeProvider (lit "sk-ant-claude")
              (lit "claude-3-opus-20240229"))
           (lit "Extract the problem.") (lit "Screenshots:")
           [lit "iVBORw0KGgo="] None H).
Defined.

End AdapterCallFacts.

(** ** Further facts about the orchestrator *)

Module RunFacts.

Import JS Adapters Orchestrator Scenarios Terms StringFacts OrchestratorFacts.

#[local] Hint Rewrite @value_of_bind @state_of_bind @state_of_send_if
  state_of_send state_of_modify state_of_get value_of_get @value_of_ret
  @state_of_ret : op.

(** What the end of a primary run leaves: the view, and no controller. *)
Lemma finishPrimary_state (r : Result) (s : State) :
  let s' := state_of (finishPrimary r s) in
  currentProcessingAbortController s' = None
  /\ view s' = match r with Success _ => solutions | Failure _ => queue end
  /\ extraScreenshotQueue s' = extraScreenshotQueue s
  /\ problemInfo s' = problemInfo s
  /\ controllers s' = controllers s
  /\ currentExtraProcessingAbortController s'
     = currentExtraProcessingAbortController s.
Proof.
  cbn zeta. destruct r as [d|e]; unfold finishPrimary; op_unfold.
  - cbn. repeat split.
  - destruct (includes _ e || includes _ e); cbn; repeat split.
Qed.

Lemma finishPrimary_events (r : Result) (s : State) :
  events_of (finishPrimary r s)
  = match r with
    | Success d => [SOLUTION_SUCCESS d]
    | Failure e =>
        if includes (lit "API Key") e || includes (lit "API key") e
        then [API_KEY_INVALID]
        else [INITIAL_SOLUTION_ERROR (PayloadText e)]
    end.
Proof.
  destruct r as [d|e]; unfold finishPrimary; op_unfold; [reflexivity|].
  destruct (includes _ e || includes _ e); reflexivity.
Qed.

Lemma finishDebug_state (r : Result) (s : State) :
  let s' := state_of (finishDebug r s) in
  currentExtraProcessingAbortController s' = None
  /\ hasDebugged s'
     = match r with Success _ => true | Failure _ => hasDebugged s end
  /\ view s' = view s
  /\ currentProcessingAbortController s' = currentProcessingAbortController s.
Proof. cbn zeta. destruct r; cbn; repeat split. Qed.

(** The answer of the solution parser is always a result. *)
Lemma processSolutionResponse_success (content mode : str) :
  exists d, processSolutionResponse content mode = Success d.
Proof.
  unfold processSolutionResponse.
  repeat match goal with
         | |- context [if ?b then _ else _] => destruct b
         end; eexists; reflexivity.
Qed.

(** A call that went to the provider and came back with an error: both
    adapters hand the error to their [catch] block. *)
Lemma vision_error_outcome (x : AnyAdapter) (messages : list ModelMessage)
    (options : option ModelRequestOptions) (e : JsError) :
  touches_network (any_vision x messages options) = true ->
  outcome_of (any_vision x messages options) (error_reply x e)
  = Some (rethrow e).
Proof.
  destruct x as [a|a]; cbn [any_vision vision OpenAIAdapter ClaudeAdapter
    error_reply]; unfold openai_vision, claude_vision, claude_complete.
  - destruct (client a); [|discriminate].
    destruct (negb (openai_supportsVision a)); [discriminate|]. reflexivity.
  - destruct (negb (claude_supportsVision a)); [discriminate|].
    destruct (client a); [|discriminate]. reflexivity.
Qed.

Lemma complete_error_outcome (x : AnyAdapter) (messages : list ModelMessage)
    (options : option ModelRequestOptions) (e : JsError) :
  touches_network (any_complete x messages options) = true ->
  outcome_of (any_complete x messages options) (error_reply x e)
  = Some (rethrow e).
Proof.
  destruct x as [a|a]; cbn [any_complete complete OpenAIAdapter ClaudeAdapter
    error_reply]; unfold openai_complete, claude_complete.
  - destruct (client a); [|discriminate]. reflexivity.
  - destruct (client a); [|discriminate]. reflexivity.
Qed.

Lemma rethrow_401 (e : JsError) :
  status e = Some 401%N -> rethrow e = Thrown (Error (lit "Invalid API key")).
Proof.
  intros H. unfold rethrow. rewrite H.
  rewrite (bool_decide_eq_true_2 _ eq_refl). reflexivity.
Qed.

Lemma rethrow_429 (e : JsError) :
  status e = Some 429%N ->
  rethrow e
  = Thrown (Error (lit "Rate limit exceeded or insufficient quota")).
Proof.
  intros H. unfold rethrow. rewrite H.
  rewrite bool_decide_eq_false_2 by discriminate.
  rewrite (bool_decide_eq_true_2 _ eq_refl). reflexivity.
Qed.

Lemma rethrow_thrown (e : JsError) : exists e', rethrow e = Thrown e'.
Proof.
  unfold rethrow. destruct (bool_decide _); [eauto|].
  destruct (bool_decide _); eauto.
Qed.

(** X20.  An error of the provider during the extraction call ends the
    run: the view is the queue again and the controller is dropped.  A
    rejected key (status 401) reaches the window as API_KEY_INVALID and
    nothing else; an exhausted quota (status 429) as one
    INITIAL_SOLUTION_ERROR with the message of the adapter. *)
Theorem provider_errors_end_the_extraction JSON_parse (x : AnyAdapter)
    (messages : list ModelMessage) (options : option ModelRequestOptions)
    (e : JsError) (ref signal : nat) (mode : str) (w : bool) (s : State) :
  touches_network (any_vision x messages options) = true ->
  let p :=
    mkPending Extracting ref signal mode w (any_vision x messages options) in
  let r := resume JSON_parse p (error_reply x e) s in
  value_of r = Finished
  /\ view (state_of r) = queue
  /\ currentProcessingAbortController (state_of r) = None
  /\ problemInfo (state_of r) = problemInfo s
  /\ (status e = Some 401%N -> events_of r = [API_KEY_INVALID])
  /\ (status e = Some 429%N ->
      events_of r
      = [INITIAL_SOLUTION_ERROR
           (PayloadText (lit "Rate limit exceeded or insufficient quota"))]).
Proof.
  intros Hnet. cbn zeta. unfold resume. cbn [p_call p_stage].
  rewrite vision_error_outcome by exact Hnet.
  unfold afterExtraction.
  split; [|split; [|split; [|split; [|split]]]].
  - destruct (rethrow_thrown e) as [e' ->]. apply finishPrimary_finished.
  - destruct (rethrow_thrown e) as [e' ->].
    destruct (finishPrimary_state (extraction_catch e') s) as (_ & -> & _).
    destruct (extraction_catch_failure e') as [msg ->]. reflexivity.
  - destruct (rethrow_thrown e) as [e' ->].
    apply (finishPrimary_state (extraction_catch e') s).
  - destruct (rethrow_thrown e) as [e' ->].
    apply (finishPrimary_state (extraction_catch e') s).
  - intros H. rewrite (rethrow_401 e H). rewrite finishPrimary_events.
    vm_compute. reflexivity.
  - intros H. rewrite (rethrow_429 e H). rewrite finishPrimary_events.
    vm_compute. reflexivity.
Qed.

Lemma provider_errors_end_the_extraction_witness :
  events_of
    (resume parseSum
       (mkPending Extracting 0 0 (lit "coding") true
          (any_vision (OpenAI (construct OpenAIProvider (lit "sk-openai")
                                 (lit "gpt-4o"))) [] None))
       (FromOpenAI (inr (mkError (lit "Unauthorized") (Some 401%N) None false)))
       idle)
  = [API_KEY_INVALID].
Proof.
  exact (proj1 (proj2 (proj2 (proj2 (proj2
           (provider_errors_end_the_extraction parseSum
              (OpenAI (construct OpenAIProvider (lit "sk-openai")
                         (lit "gpt-4o")))
              [] None
              (mkError (lit "Unauthorized") (Some 401%N) None false)
              0 0 (lit "coding") true idle eq_refl)))))
           eq_refl).
Defined.

(** X21.  When the solution text comes back, the run ends in the
    solutions view: the extra queue is emptied, the controller dropped,
    and the window gets the last progress report and then the same
    solution in two SOLUTION_SUCCESS events, one from the helper that
    made the call and one from [processScreenshots]. *)
Theorem solution_is_announced_twice (p : Pending) (response : ModelResponse)
    (s : State) :
  let r := afterSolution p (Returned response) s in
  exists d,
    processSolutionResponse (response_content response) (p_mode p)
    = Success d
    /\ events_of r
       = [ processing_status (lit "Solution generated successfully") 100;
           SOLUTION_SUCCESS d; SOLUTION_SUCCESS d ]
    /\ value_of r = Finished
    /\ view (state_of r) = solutions
    /\ extraScreenshotQueue (state_of r) = []
    /\ currentProcessingAbortController (state_of r) = None.
Proof.
  cbn zeta. unfold afterSolution.
  destruct (processSolutionResponse_success (response_content response)
              (p_mode p)) as [d ->].
  exists d. split; [reflexivity|]. unfold solutionsDone.
  rewrite !events_of_bind. autorewrite with op.
  rewrite finishPrimary_events, finishPrimary_finished.
  destruct (finishPrimary_state (Success d)
              (set_extraScreenshotQueue [] s)) as (H1 & H2 & H3 & _).
  cbn zeta in H1, H2, H3. rewrite H1, H2, H3. repeat split.
Qed.

(** X22.  When the extraction text cannot be parsed, the run ends with
    one INITIAL_SOLUTION_ERROR that says so: no solution call is made,
    the problem kept by the application is not touched, the view is the
    queue and the controller is dropped.  Before parsing, every fence
    mark is removed from the text and the rest is trimmed. *)
Theorem unparsable_extraction_ends_the_run JSON_parse (p : Pending)
    (response : ModelResponse) (s : State) :
  JSON_parse
    (trim (Regex.remove_all jsonFenceRegex (response_content response)))
  = None ->
  let r := afterExtraction JSON_parse p (Returned response) s in
  value_of r = Finished
  /\ events_of r
     = [INITIAL_SOLUTION_ERROR
          (PayloadText
             (lit "Failed to parse problem information. Please try again or use clearer screenshots."))]
  /\ problemInfo (state_of r) = problemInfo s
  /\ view (state_of r) = queue
  /\ currentProcessingAbortController (state_of r) = None.
Proof.
  intros Hparse. cbn zeta. unfold afterExtraction. rewrite Hparse.
  rewrite finishPrimary_finished, finishPrimary_events.
  destruct (finishPrimary_state
              (Failure (lit "Failed to parse problem information. Please try again or use clearer screenshots."))
              s) as (H1 & H2 & _ & H4 & _).
  cbn zeta in H1, H2, H4. rewrite H1, H2, H4.
  repeat split.
Qed.

Lemma unparsable_extraction_ends_the_run_witness :
  value_of
    (afterExtraction (fun _ => None)
       (mkPending Extracting 0 0 (lit "coding") true (Throw cancelError))
       (Returned (mkResponse (lit "not json") (mkUsage None None None)))
       idle)
  = Finished.
Proof.
  exact (proj1 (unparsable_extraction_ends_the_run (fun _ => None)
                  (mkPending Extracting 0 0 (lit "coding") true
                     (Throw cancelError))
                  (mkResponse (lit "not json") (mkUsage None None None))
                  idle eq_refl)).
Defined.

Ltac settle :=
  repeat (split || intro);
  try reflexivity;
  try match goal with
      | H : Finished = Waiting _ |- _ => discriminate H
      | H : Waiting _ = Finished |- _ => discriminate H
      | H : value_of (ret _ _) = _ |- _ => discriminate H
      end.

Lemma solutionsDone_state (r : Result) (s : State) :
  let s' := state_of (solutionsDone r s) in
  currentProcessingAbortController s' = None
  /\ currentExtraProcessingAbortController s'
     = currentExtraProcessingAbortController s
  /\ controllers s' = controllers s.
Proof.
  cbn zeta. destruct r as [d|e]; unfold solutionsDone.
  - autorewrite with op.
    destruct (finishPrimary_state (Success d)
                (set_extraScreenshotQueue [] s)) as (H1 & _ & _ & _ & H5 & H6).
    cbn zeta in *. rewrite H1, H5, H6. repeat split.
  - destruct (finishPrimary_state
                (extraction_catch
                   (Error (or_else e (lit "Failed to generate solutions")))) s)
      as (H1 & _ & _ & _ & H5 & H6).
    cbn zeta in *. rewrite H1, H5, H6. repeat split.
Qed.

(** X23.  The [finally] blocks: whenever a run ends, after whichever
    answer of the provider and on whichever path, it has dropped its
    controller, the primary one for the extraction and solution calls and
    the extra one for the debug call; the other controller reference and
    the controllers themselves are as before.  A run that goes on to its
    next call keeps both references. *)
Theorem a_finished_run_drops_its_controller JSON_parse (p : Pending)
    (reply : Reply) (s : State) :
  let r := resume JSON_parse p reply s in
  let s' := state_of r in
  controllers s' = controllers s
  /\ (value_of r = Finished ->
      match p_stage p with
      | Debugging =>
          currentExtraProcessingAbortController s' = None
          /\ currentProcessingAbortController s'
             = currentProcessingAbortController s
      | Extracting | Solving =>
          currentProcessingAbortController s' = None
          /\ currentExtraProcessingAbortController s'
             = currentExtraProcessingAbortController s
      end)
  /\ (forall p', value_of r = Waiting p' ->
      currentProcessingAbortController s'
      = currentProcessingAbortController s
      /\ currentExtraProcessingAbortController s'
         = currentExtraProcessingAbortController s).
Proof.
  cbn zeta. unfold resume.
  destruct (outcome_of (p_call p) reply) as [o|].
  2:{ settle. }
  destruct (p_stage p).
  - (* extraction *)
    unfold afterExtraction. destruct o as [response|e].
    2:{ destruct (finishPrimary_state (extraction_catch e) s)
          as (H1 & _ & _ & _ & H5 & H6). cbn zeta in *.
        rewrite finishPrimary_finished, H1, H5, H6.
        settle. }
    destruct (JSON_parse _) as [info|].
    2:{ match goal with
        | |- context [finishPrimary ?r s] =>
            destruct (finishPrimary_state r s) as (H1 & _ & _ & _ & H5 & H6)
        end. cbn zeta in *.
        rewrite finishPrimary_finished, H1, H5, H6.
        settle. }
    destruct (p_window p).
    2:{ autorewrite with op.
        match goal with
        | |- context [finishPrimary ?r ?t] =>
            destruct (finishPrimary_state r t) as (H1 & _ & _ & _ & H5 & H6)
        end. cbn zeta in *.
        rewrite finishPrimary_finished, H1, H5, H6.
        settle. }
    autorewrite with op.
    set (s1 := set_problemInfo info s).
    destruct (value_of (generateSolutionsHelper (p_signal p) (p_mode p) true s1))
      as [result|pending] eqn:Eg.
    + rewrite solutionsDone_finished.
      destruct (solutionsDone_state result
                  (state_of (generateSolutionsHelper (p_signal p) (p_mode p)
                               true s1))) as (H1 & H2 & H3).
      cbn zeta in *. rewrite H1, H2, H3.
      assert (Hs : state_of (generateSolutionsHelper (p_signal p) (p_mode p)
                               true s1) = s1).
      { unfold generateSolutionsHelper, current_adapter. op_unfold.
        destruct (problemInfo s1); [|reflexivity].
        destruct (modelAdapter s1) as [i|]; [|reflexivity].
        destruct (adapters s1 !! i) as [a|]; [|reflexivity].
        destruct (mainWindow s1); cbn [fst snd];
          destruct (any_complete a _ _); reflexivity. }
      rewrite Hs. settle.
    + apply generateSolutionsHelper_waits in Eg. destruct Eg as (Hs & _).
      autorewrite with op. rewrite Hs.
      settle.
  - (* solution *)
    unfold afterSolution.
    match goal with
    | |- context [solutionsDone ?r s] =>
        destruct (solutionsDone_state r s) as (H1 & H2 & H3)
    end. cbn zeta in *.
    rewrite solutionsDone_finished, H1, H2, H3.
    settle.
  - (* debug *)
    unfold afterDebug. destruct o as [response|e].
    + autorewrite with op.
      destruct (formatDebugResponse (response_content response)) as [d|msg];
        cbn; settle.
    + destruct (debug_catch_failure e) as [msg ->].
      cbn. settle.
Qed.

Lemma aborted_insert (cs : list bool) (c c' : nat) :
  match <[c:=true]> cs !! c' with Some b => b | None => false end = true
  <-> match cs !! c' with Some b => b | None => false end = true
      \/ (c' = c /\ c < length cs).
Proof.
  destruct (decide (c' = c)) as [->|Hne].
  - destruct (decide (c < length cs)) as [Hlt|Hge].
    + rewrite list_lookup_insert_eq by exact Hlt. split; [auto | reflexivity].
    + rewrite list_insert_ge by lia. split; [auto|].
      intros [H|[_ H]]; [exact H | lia].
  - rewrite list_lookup_insert_ne by congruence. split; [auto|].
    intros [H|[H _]]; [exact H | contradiction].
Qed.

(** X24.  [cancelOngoingRequests] drops both controller references,
    forgets the problem and the debugged flag, and aborts exactly the
    controllers that the two references named: every other controller is
    as it was, none is created.  The window is told NO_SCREENSHOTS only
    when a reference was set and the window is there and not destroyed.
    The view, the queues and the adapter are not touched. *)
Theorem cancel_characterised (s : State) :
  let r := cancelOngoingRequests s in
  let s' := state_of r in
  currentProcessingAbortController s' = None
  /\ currentExtraProcessingAbortController s' = None
  /\ problemInfo s' = None
  /\ hasDebugged s' = false
  /\ length (controllers s') = length (controllers s)
  /\ (forall c,
        aborted s' c = true
        <-> aborted s c = true
            \/ (c < length (controllers s)
                /\ (currentProcessingAbortController s = Some c
                    \/ currentExtraProcessingAbortController s = Some c)))
  /\ events_of r
     = (if (bool_decide (currentProcessingAbortController s <> None)
            || bool_decide (currentExtraProcessingAbortController s <> None))
           && mainWindow s && negb (windowDestroyed s)
        then [NO_SCREENSHOTS] else [])
  /\ view s' = view s
  /\ screenshotQueue s' = screenshotQueue s
  /\ extraScreenshotQueue s' = extraScreenshotQueue s
  /\ modelAdapter s' = modelAdapter s
  /\ adapters s' = adapters s.
Proof.
  cbn zeta. destruct s as [cfg wl mw wd v q xq info dbg ads ma cs cur extra].
  unfold cancelOngoingRequests, abort, aborted. op_unfold.
  destruct cur as [c1|], extra as [c2|], mw, wd; cbn;
    (split; [reflexivity|]); (split; [reflexivity|]);
    (split; [reflexivity|]); (split; [reflexivity|]);
    (split; [rewrite ?length_insert; reflexivity|]);
    (split; [|repeat split]);
    intros c; rewrite ?aborted_insert, ?length_insert;
    (split;
     [ intros H; decompose [or and] H; subst; auto 6
     | intros H; decompose [or and] H; subst; auto;
       repeat match goal with
              | E : Some _ = Some _ |- _ => injection E as ->
              | E : None = Some _ |- _ => discriminate E
              end; auto ]).
Qed.

(** X25.  A debug run without an extracted problem ends at once: the
    window gets DEBUG_ERROR with "No problem info available", no call is
    made to the provider, the debugged flag stays as it is and the extra
    controller is dropped.  This is the state in which
    [cancelOngoingRequests] leaves the application. *)
Theorem debug_needs_a_problem (images : list str) (signal : nat) (s : State) :
  problemInfo s = None ->
  let r := processExtraScreenshotsHelper images signal s in
  value_of r = Finished
  /\ events_of r = [DEBUG_ERROR (lit "No problem info available")]
  /\ hasDebugged (state_of r) = hasDebugged s
  /\ currentExtraProcessingAbortController (state_of r) = None
  /\ forall s0,
       problemInfo (state_of (cancelOngoingRequests s0)) = None.
Proof.
  intros Hinfo. cbn zeta. unfold processExtraScreenshotsHelper.
  rewrite value_of_bind, events_of_bind, !state_of_bind.
  autorewrite with op. rewrite Hinfo.
  change (debug_catch (Error (lit "No problem info available")))
    with (Failure (lit "No problem info available")).
  repeat split.
  intros s0. destruct s0 as [cfg wl mw wd v q xq info dbg ads ma cs cur extra].
  unfold cancelOngoingRequests, abort. op_unfold.
  destruct cur, extra, mw, wd; reflexivity.
Qed.

Lemma debug_needs_a_problem_witness :
  events_of (processExtraScreenshotsHelper [lit "iVBORw0KGgo="] 0 idle)
  = [DEBUG_ERROR (lit "No problem info available")].
Proof.
  exact (proj1 (proj2 (debug_needs_a_problem [lit "iVBORw0KGgo="] 0 idle
                         eq_refl))).
Defined.

(** Building the adapter, when there is none, touches neither the
    controllers nor the references to them. *)
Lemma ensure_adapter_frame (s : State) :
  let s' := state_of ((match modelAdapter s with
                       | None => initializeModelAdapter
                       | Some _ => ret tt
                       end) s) in
  controllers s' = controllers s
  /\ currentProcessingAbortController s' = currentProcessingAbortController s
  /\ currentExtraProcessingAbortController s'
     = currentExtraProcessingAbortController s.
Proof.
  cbn zeta. destruct (modelAdapter s).
  - repeat split.
  - destruct (initializeModelAdapter_adapters s) as (_ & H1 & H2 & H3 & _).
    auto.
Qed.

Lemma processScreenshotsHelper_frame JSON_parse (images : list str)
    (signal : nat) (s : State) (p : Pending) :
  let r := processScreenshotsHelper JSON_parse images signal s in
  value_of r = Waiting p ->
  controllers (state_of r) = controllers s
  /\ currentProcessingAbortController (state_of r)
     = currentProcessingAbortController s
  /\ currentExtraProcessingAbortController (state_of r)
     = currentExtraProcessingAbortController s
  /\ p_signal p = signal
  /\ p_stage p = Extracting.
Proof.
  cbn zeta. unfold processScreenshotsHelper. autorewrite with op.
  pose proof (ensure_adapter_frame s) as Hf. cbn zeta in Hf.
  set (s1 := state_of _) in *.
  destruct (current_adapter s1) as [[ref adapter]|].
  2:{ rewrite finishPrimary_finished. intros [=]. }
  autorewrite with op.
  destruct (any_vision adapter _ _) eqn:Ev.
  { unfold afterExtraction. rewrite finishPrimary_finished. intros [=]. }
  all: autorewrite with op; intros [= <-]; cbn [p_signal p_stage];
    destruct Hf as (H1 & H2 & H3); auto.
Qed.

Lemma processExtraScreenshotsHelper_frame (images : list str) (signal : nat)
    (s : State) (p : Pending) :
  let r := processExtraScreenshotsHelper images signal s in
  value_of r = Waiting p ->
  state_of r = s /\ p_signal p = signal /\ p_stage p = Debugging.
Proof.
  cbn zeta. unfold processExtraScreenshotsHelper. autorewrite with op.
  destruct (problemInfo s) as [info|];
    [|rewrite finishDebug_finished; intros [=]].
  destruct (current_adapter s) as [[ref adapter]|];
    [|rewrite finishDebug_finished; intros [=]].
  autorewrite with op.
  destruct (any_vision adapter _ _) eqn:Ev.
  { unfold afterDebug. rewrite finishDebug_finished. intros [=]. }
  all: autorewrite with op; intros [= <-]; auto.
Qed.

Lemma cancel_leaves_others (s : State) (c : nat) :
  currentProcessingAbortController s <> Some c ->
  currentExtraProcessingAbortController s <> Some c ->
  aborted (state_of (cancelOngoingRequests s)) c = aborted s c.
Proof.
  destruct s as [cfg wl mw wd v q xq info dbg ads ma cs cur extra].
  cbn [currentProcessingAbortController
       currentExtraProcessingAbortController].
  intros H1 H2. unfold cancelOngoingRequests, abort, aborted. op_unfold.
  destruct cur as [c1|], extra as [c2|], mw, wd; cbn;
    rewrite ?list_lookup_insert_ne by congruence; reflexivity.
Qed.

Lemma aborted_app (s s' : State) (c : nat) :
  controllers s' = controllers s ++ [false] ->
  aborted s' c = aborted s c.
Proof.
  intros H. unfold aborted. rewrite H.
  destruct (decide (c < length (controllers s))) as [Hlt|Hge].
  - rewrite lookup_app_l by exact Hlt. reflexivity.
  - rewrite lookup_app_r by lia.
    rewrite (lookup_ge_None_2 (controllers s)) by lia.
    destruct (c - length (controllers s)); reflexivity.
Qed.

(** X29.  A run that [processScreenshots] starts gets a controller of its
    own: a new one, not aborted, whose signal goes into the call, and the
    reference for its queue is set to it.  No controller that was there
    before is aborted by the start.  So when a run is started while an
    earlier one still waits for the provider, the controller of the
    earlier run is no longer referenced, and [cancelOngoingRequests]
    afterwards aborts the new controller and leaves the earlier one as it
    was. *)
Theorem a_new_run_gets_a_new_controller JSON_parse readScreenshots
    (s : State) (p : Pending) :
  let r := processScreenshots JSON_parse readScreenshots s in
  value_of r = Waiting p ->
  let s' := state_of r in
  controllers s' = controllers s ++ [false]
  /\ p_signal p = length (controllers s)
  /\ match p_stage p with
     | Debugging =>
         currentExtraProcessingAbortController s' = Some (p_signal p)
         /\ currentProcessingAbortController s'
            = currentProcessingAbortController s
     | Extracting | Solving =>
         currentProcessingAbortController s' = Some (p_signal p)
         /\ currentExtraProcessingAbortController s'
            = currentExtraProcessingAbortController s
     end
  /\ (forall c, aborted s' c = aborted s c)
  /\ aborted (state_of (cancelOngoingRequests s')) (p_signal p) = true
  /\ (forall c,
        c < length (controllers s) ->
        currentProcessingAbortController s' <> Some c ->
        currentExtraProcessingAbortController s' <> Some c ->
        aborted (state_of (cancelOngoingRequests s')) c = aborted s c).
Proof.
  cbn zeta. intros Hwait.
  assert (Hmain :
    controllers (state_of (processScreenshots JSON_parse readScreenshots s))
    = controllers s ++ [false]
    /\ p_signal p = length (controllers s)
    /\ match p_stage p with
       | Debugging =>
           currentExtraProcessingAbortController
             (state_of (processScreenshots JSON_parse readScreenshots s))
           = Some (p_signal p)
           /\ currentProcessingAbortController
                (state_of (processScreenshots JSON_parse readScreenshots s))
              = currentProcessingAbortController s
       | Extracting | Solving =>
           currentProcessingAbortController
             (state_of (processScreenshots JSON_parse readScreenshots s))
           = Some (p_signal p)
           /\ currentExtraProcessingAbortController
                (state_of (processScreenshots JSON_parse readScreenshots s))
              = currentExtraProcessingAbortController s
       end).
  { revert Hwait. unfold processScreenshots. autorewrite with op.
    destruct (mainWindow s); cbn [negb]; [|intros [=]].
    autorewrite with op.
    pose proof (ensure_adapter_frame s) as Hf. cbn zeta in Hf.
    set (s1 := state_of _) in *. destruct Hf as (F1 & F2 & F3).
    destruct (modelAdapter s1) as [i|]; [|intros [=]].
    destruct (view s1).
    - autorewrite with op.
      destruct (screenshotQueue s1); [intros [=]|].
      unfold newController. autorewrite with op.
      destruct (readScreenshots _) as [images|e];
        [|rewrite primary_catch_finished; intros [=]].
      intros H. apply processScreenshotsHelper_frame in H.
      destruct H as (H1 & H2 & H3 & H4 & H5).
      rewrite H1, H2, H3, H4, H5.
      cbn [controllers set_controllers set_currentProcessingAbortController
           currentProcessingAbortController
           currentExtraProcessingAbortController].
      rewrite F1, F3. auto.
    - destruct (extraScreenshotQueue s1); [intros [=]|].
      unfold newController. autorewrite with op.
      destruct (readScreenshots _) as [images|e];
        [|rewrite debug_outer_catch_finished; intros [=]].
      intros H. apply processExtraScreenshotsHelper_frame in H.
      destruct H as (H1 & H4 & H5).
      rewrite H1, H4, H5.
      cbn [controllers set_controllers
           set_currentExtraProcessingAbortController
           currentProcessingAbortController
           currentExtraProcessingAbortController].
      rewrite F1, F2. auto. }
  destruct Hmain as (Hc & Hs & Hh).
  split; [exact Hc|]. split; [exact Hs|]. split; [exact Hh|].
  split; [intros c; apply aborted_app; exact Hc|]. split.
  - set (s' := state_of (processScreenshots JSON_parse readScreenshots s))
      in *.
    assert (Hlen : p_signal p < length (controllers s'))
      by (rewrite Hc, length_app, Hs; cbn; lia).
    assert (Href : currentProcessingAbortController s' = Some (p_signal p)
                   \/ currentExtraProcessingAbortController s'
                      = Some (p_signal p))
      by (destruct (p_stage p); tauto).
    clearbody s'. clear -Hlen Href.
    destruct s' as [cfg wl mw wd v q xq info dbg ads ma cs cur extra].
    cbn [currentProcessingAbortController
         currentExtraProcessingAbortController controllers] in *.
    unfold cancelOngoingRequests, abort, aborted. op_unfold.
    destruct Href as [->| ->]; [destruct extra as [c2|] | destruct cur as [c1|]];
      destruct mw, wd; cbn;
      first
        [ rewrite list_lookup_insert_eq by (rewrite ?length_insert; exact Hlen);
          reflexivity
        | destruct (decide (c2 = p_signal p)) as [->|Hne];
          [ rewrite list_lookup_insert_eq
              by (rewrite ?length_insert; exact Hlen); reflexivity
          | rewrite list_lookup_insert_ne by exact Hne;
            rewrite list_lookup_insert_eq by exact Hlen; reflexivity ] ].
  - intros c Hlt H1 H2. rewrite cancel_leaves_others by assumption.
    apply aborted_app. exact Hc.
Qed.

Lemma a_new_run_gets_a_new_controller_witness :
  controllers (state_of started) = controllers idle ++ [false].
Proof.
  assert (H : value_of (processScreenshots parseSum readAll idle)
              = Waiting startedPending) by (vm_compute; reflexivity).
  exact (proj1 (a_new_run_gets_a_new_controller parseSum readAll idle
                  startedPending H)).
Defined.

End RunFacts.

(** ** Further facts about the parsers *)

Module ParserShapeFacts.

Import JS Regex Parser Scenarios Terms StringFacts RegexFacts ParserFacts.

(** X26.  The debug pass always yields a result, with at least one and at
    most five thoughts; the whole response is kept as the analysis, and
    both complexity fields say that they do not apply. *)
Theorem debug_result_shape (debugContent : str) :
  exists d,
    formatDebugResponse debugContent = Success d
    /\ 1 <= length (thoughts d) <= 5
    /\ extras d = [("debug_analysis"%string, debugContent)]
    /\ time_complexity d = lit "N/A - Debug mode"
    /\ space_complexity d = lit "N/A - Debug mode".
Proof.
  eexists. split; [reflexivity|].
  cbn [thoughts extras time_complexity space_complexity].
  split; [|repeat split]. unfold debugThoughts, slice0.
  destruct (match_all debugBulletRegex debugContent) as [|b l].
  - cbn. lia.
  - rewrite length_firstn, length_map. cbn [length]. lia.
Qed.

Lemma filter_truthy_ne (xs : list str) :
  Forall (fun t => t <> []) (filter_truthy xs).
Proof.
  unfold filter_truthy. apply Forall_forall. intros t Ht.
  apply list_elem_of_In, filter_In in Ht. destruct Ht as [_ Ht].
  destruct t; [discriminate Ht | discriminate].
Qed.

Lemma section_items_ne (section : str) :
  Forall (fun t => t <> []) (section_items section).
Proof.
  unfold section_items. destruct (match_all _ _); apply filter_truthy_ne.
Qed.

Lemma items_of_match_ne (m : option mresult) :
  Forall (fun t => t <> []) (items_of_match m).
Proof.
  unfold items_of_match. destruct m as [x|]; [|constructor].
  destruct (truthy (group1 x)); [apply section_items_ne | constructor].
Qed.

Lemma non_empty_or_all_ne (fallback : string) (xs : list str) :
  lit fallback <> [] ->
  Forall (fun t => t <> []) xs ->
  Forall (fun t => t <> []) (non_empty_or fallback xs).
Proof.
  intros Hf Hx. destruct xs; [|exact Hx]. constructor; [exact Hf | constructor].
Qed.

(** X27.  In the coding, system design, React and Linux modes, and for
    every mode that is handled as coding, no entry of the thoughts is the
    empty string.  The SQL mode gives no such guarantee: a paragraph of
    white space in the explanation becomes an empty entry. *)
Theorem thoughts_have_no_blank_entry (content mode : str) :
  is_mode "sql" mode = false ->
  is_mode "certification" mode = false ->
  Forall (fun t => t <> [])
    (thoughts_of (processSolutionResponse content mode))
  /\ In [] (thoughts_of (processSolutionResponse blankParagraph (lit "sql"))).
Proof.
  intros Hsql Hcert. split; [|vm_compute; auto].
  unfold processSolutionResponse. rewrite Hsql, Hcert.
  assert (Hcoding : Forall (fun t => t <> [])
                      (thoughts_of (processCodingSolution content))).
  { cbn [thoughts_of processCodingSolution thoughts].
    apply non_empty_or_all_ne; [literal_ne | apply items_of_match_ne]. }
  destruct (is_mode "coding" mode); [exact Hcoding|].
  destruct (is_mode "system_design" mode).
  { cbn [thoughts_of processSystemDesignSolution thoughts].
    apply non_empty_or_all_ne; [literal_ne | apply items_of_match_ne]. }
  destruct (is_mode "react" mode).
  { cbn [thoughts_of processReactSolution thoughts].
    match goal with
    | |- Forall _ (match ?x with _ => _ end) =>
        pose proof (items_of_match_ne
          (exec (seqs [texti "Component Structure:"; lazy_any;
                       Alt (texti "State Management:") Eol]) content)) as Hs;
        destruct x
    end.
    - apply non_empty_or_all_ne; [literal_ne | apply items_of_match_ne].
    - exact Hs. }
  destruct (is_mode "linux" mode); [|exact Hcoding].
  cbn [thoughts_of processLinuxSolution thoughts].
  apply non_empty_or_all_ne; [literal_ne | apply items_of_match_ne].
Qed.

Lemma thoughts_have_no_blank_entry_witness :
  Forall (fun t => t <> [])
    (thoughts_of (processSolutionResponse solutionText (lit "coding")))
  /\ In [] (thoughts_of (processSolutionResponse blankParagraph (lit "sql"))).
Proof.
  exact (thoughts_have_no_blank_entry solutionText (lit "coding")
           eq_refl eq_refl).
Defined.

(** A greedy star over a class, followed by a character that is not in
    the class: the star takes the longest run, and no shorter run can be
    followed by that character. *)
Lemma star_class_then (p q : char -> bool) k (c : list (nat * str)) (t : str) :
  (forall x, q x = true -> p x = false) ->
  match t with d :: _ => p d = false | [] => True end ->
  forall w fuel n,
    length w < fuel ->
    forallb p w = true ->
    star_loop (run (Cls p)) true (fun s => run (Cls q) s k) fuel
      (MState n (w ++ t) c)
    = run (Cls q) (MState (n + length w) t c) k.
Proof.
  intros Hpq Ht. induction w as [|x w IH]; intros fuel n Hfuel Hw.
  - destruct fuel as [|fuel]; [inversion Hfuel|].
    cbn [star_loop app length]. rewrite Nat.add_0_r.
    rewrite (run_class_stop p n t c) by exact Ht. reflexivity.
  - destruct fuel as [|fuel]; [inversion Hfuel|].
    cbn [forallb] in Hw. apply andb_true_iff in Hw. destruct Hw as [Hx Hw].
    cbn [star_loop app]. rewrite run_class_cons, Hx. cbn [pos].
    assert (Hlt : (n <? S n) = true) by (apply Nat.ltb_lt; lia).
    rewrite Hlt. rewrite IH by (cbn in Hfuel; lia || exact Hw).
    cbn [length]. replace (n + S (length w)) with (S n + length w) by lia.
    destruct (run (Cls q) (MState (S n + length w) t c) k); [reflexivity|].
    rewrite run_class_cons.
    destruct (q x) eqn:Hq; [|reflexivity].
    apply Hpq in Hq. congruence.
Qed.

(** Every text is a run of characters of a class and a rest that does not
    start with one. *)
Lemma span_class (p : char -> bool) (s : str) :
  exists w t,
    s = w ++ t /\ forallb p w = true
    /\ match t with d :: _ => p d = false | [] => True end.
Proof.
  induction s as [|x s (w & t & -> & Hw & Ht)].
  - exists [], []. repeat split.
  - destruct (p x) eqn:Hx.
    + exists (x :: w), t. cbn. rewrite Hx, Hw. repeat split. exact Ht.
    + exists [], (x :: w ++ t). repeat split. exact Hx.
Qed.

Lemma bigORegex_unfold :
  bigORegex
  = Seq (Cls (fun x => char_eqb (canon x) (canon 79%N)))
      (Seq (Cls (char_eqb 40%N))
         (Seq (Seq (Cls (fun x => negb (char_eqb x 41%N)))
                 (Star true (Cls (fun x => negb (char_eqb x 41%N)))))
            (Cls (char_eqb 41%N)))).
Proof. reflexivity. Qed.

Lemma close_not_inside (x : char) :
  char_eqb 41%N x = true -> negb (char_eqb x 41%N) = false.
Proof.
  unfold char_eqb. intros H. apply N.eqb_eq in H. subst x. reflexivity.
Qed.

(** Where the pattern of the order notation matches at the start of a
    text, the text is a letter O, an opening parenthesis, one or more
    characters other than the closing parenthesis, and the closing one;
    the match ends there. *)
Lemma run_bigO_shape (n : nat) (s : str) (c : list (nat * str)) (e : mstate) :
  run bigORegex (MState n s c) Some = Some e ->
  exists o body t,
    s = o :: 40%N :: body ++ 41%N :: t
    /\ char_eqb (canon o) (canon 79%N) = true
    /\ body <> []
    /\ forallb (fun x => negb (char_eqb x 41%N)) body = true
    /\ e = MState (n + 3 + length body) t c.
Proof.
  rewrite bigORegex_unfold.
  change (run (Seq ?a ?b) ?st ?k) with (run a st (fun s' => run b s' k)).
  destruct s as [|o s]; [discriminate|]. rewrite run_class_cons.
  destruct (char_eqb (canon o) (canon 79%N)) eqn:Ho; [|discriminate].
  change (run (Seq ?a ?b) ?st ?k) with (run a st (fun s' => run b s' k)).
  destruct s as [|x s]; [discriminate|]. rewrite run_class_cons.
  destruct (char_eqb 40%N x) eqn:Hx; [|discriminate].
  apply N.eqb_eq in Hx. subst x.
  change (run (Seq ?a ?b) ?st ?k) with (run a st (fun s' => run b s' k)).
  change (run (Seq ?a ?b) ?st ?k) with (run a st (fun s' => run b s' k)).
  destruct s as [|b s]; [discriminate|]. rewrite run_class_cons.
  destruct (negb (char_eqb b 41%N)) eqn:Hb; [|discriminate].
  change (run (Star true ?a) ?st ?k)
    with (star_loop (run a) true k (S (length (rest st))) st).
  cbn [rest].
  destruct (span_class (fun x => negb (char_eqb x 41%N)) s)
    as (w & t & -> & Hw & Ht).
  rewrite (star_class_then (fun x => negb (char_eqb x 41%N)) (char_eqb 41%N)
             Some c t close_not_inside Ht w)
    by first [exact Hw | rewrite ?length_app; unfold str, char in *; cbn [length]; lia].
  destruct t as [|d t]; [discriminate|]. rewrite run_class_cons.
  destruct (char_eqb 41%N d) eqn:Hd; [|discriminate].
  apply N.eqb_eq in Hd. subst d. intros H. injection H as He. subst e.
  exists o, (b :: w), t. cbn [app length forallb]. rewrite Hb, Hw.
  split; [reflexivity|]. split; [exact Ho|]. split; [discriminate|].
  split; [reflexivity|]. f_equal. unfold str, char in *. lia.
Qed.

(** And a text of that shape is matched at its start, whatever follows. *)
Lemma run_bigO_here (n : nat) (o : char) (body t : str)
    (c : list (nat * str)) :
  char_eqb (canon o) (canon 79%N) = true ->
  body <> [] ->
  forallb (fun x => negb (char_eqb x 41%N)) body = true ->
  run bigORegex (MState n (o :: 40%N :: body ++ 41%N :: t) c) Some
  = Some (MState (n + 3 + length body) t c).
Proof.
  intros Ho Hne Hbody. rewrite bigORegex_unfold.
  change (run (Seq ?a ?b) ?st ?k) with (run a st (fun s' => run b s' k)).
  rewrite run_class_cons, Ho.
  change (run (Seq ?a ?b) ?st ?k) with (run a st (fun s' => run b s' k)).
  rewrite run_class_cons. cbn [char_eqb N.eqb Pos.eqb].
  change (run (Seq ?a ?b) ?st ?k) with (run a st (fun s' => run b s' k)).
  change (run (Seq ?a ?b) ?st ?k) with (run a st (fun s' => run b s' k)).
  destruct body as [|b w]; [contradiction|].
  cbn [forallb] in Hbody. apply andb_true_iff in Hbody.
  destruct Hbody as [Hb Hw].
  cbn [app]. rewrite run_class_cons, Hb.
  change (run (Star true ?a) ?st ?k)
    with (star_loop (run a) true k (S (length (rest st))) st).
  cbn [rest].
  rewrite (star_class_then (fun x => negb (char_eqb x 41%N)) (char_eqb 41%N)
             Some c (41%N :: t) close_not_inside eq_refl w)
    by first [exact Hw | rewrite ?length_app; unfold str, char in *; cbn [length]; lia].
  rewrite run_class_cons. cbn [char_eqb N.eqb Pos.eqb length].
  do 2 f_equal. unfold str, char in *. lia.
Qed.

(** The text of a match of the pattern, wherever it is found. *)
Lemma exec_from_bigO_text (s : str) :
  forall p m,
    exec_from bigORegex p s = Some m ->
    exists o body,
      m_text m = o :: 40%N :: body ++ [41%N]
      /\ char_eqb (canon o) (canon 79%N) = true
      /\ body <> []
      /\ forallb (fun x => negb (char_eqb x 41%N)) body = true.
Proof.
  induction s as [|d s IH]; intros p m; cbn [exec_from].
  - destruct (run bigORegex (MState p [] []) Some) as [e|] eqn:E;
      [|discriminate].
    apply run_bigO_shape in E. destruct E as (o & body & t & E & _).
    discriminate E.
  - destruct (run bigORegex (MState p (d :: s) []) Some) as [e|] eqn:E.
    + apply run_bigO_shape in E.
      destruct E as (o & body & t & E & Ho & Hne & Hb & ->).
      intros [= <-]. cbn [m_text pos]. exists o, body.
      split; [|auto]. rewrite E.
      replace (p + 3 + length body - p) with (S (S (length body + 1))) by lia.
      cbn [firstn]. do 2 f_equal.
      change (41%N :: t) with ([41%N] ++ t). rewrite app_assoc.
      replace (length body + 1) with (length (body ++ [41%N]))
        by (rewrite length_app; reflexivity).
      apply take_app_length.
    + apply IH.
Qed.

Lemma canon_O (o : char) :
  char_eqb (canon o) (canon 79%N) = true -> o = 79%N \/ o = 111%N.
Proof.
  change (canon 79%N) with 79%N. unfold char_eqb, canon, is_lower.
  destruct ((97 <=? o)%N && (o <=? 122)%N) eqn:E; intros H;
    apply N.eqb_eq in H.
  - apply andb_true_iff in E. destruct E as [E1 E2].
    apply N.leb_le in E1. right. unfold char in *. lia.
  - left. exact H.
Qed.

(** A match of the pattern shows the notation inside the text. *)
Lemma exec_from_bigO_occurs (s : str) :
  forall p m,
    exec_from bigORegex p s = Some m -> has_order_notation s.
Proof.
  induction s as [|d s IH]; intros p m; cbn [exec_from].
  - destruct (run bigORegex (MState p [] []) Some) as [e|] eqn:E;
      [|discriminate].
    apply run_bigO_shape in E. destruct E as (o & body & t & E & _).
    discriminate E.
  - destruct (run bigORegex (MState p (d :: s) []) Some) as [e|] eqn:E.
    + apply run_bigO_shape in E.
      destruct E as (o & body & t & E & Ho & Hne & Hb & _).
      intros _. exists [], o, body, t. rewrite E.
      split; [reflexivity|]. split; [apply canon_O; exact Ho|]. auto.
    + intros H. apply IH in H.
      destruct H as (pre & o & body & post & -> & H).
      exists (d :: pre), o, body, post. split; [reflexivity | exact H].
Qed.

(** The adjusted complexity text always shows an order notation. *)
Lemma ensure_notation_shows (complexity : str) :
  has_order_notation (ensure_notation complexity).
Proof.
  unfold ensure_notation.
  destruct (exec bigORegex complexity) as [m|] eqn:E.
  - destruct (negb (includes (lit "-") complexity)
              && negb (includes (lit "because") complexity)).
    + apply exec_from_bigO_text in E.
      destruct E as (o & body & -> & Ho & Hne & Hb).
      exists [], o, body,
        (lit " - " ++ trim (remove_first (o :: 40%N :: body ++ [41%N])
                              complexity)).
      split; [|split; [apply canon_O; exact Ho | auto]].
      cbn [app]. do 2 f_equal. rewrite <- app_assoc. reflexivity.
    + exact (exec_from_bigO_occurs complexity 0 m E).
  - exists [], 79%N, [110%N], (lit " - " ++ complexity).
    split; [reflexivity|]. split; [left; reflexivity|].
    split; [discriminate | reflexivity].
Qed.

Lemma extract_complexity_shows (pattern : re) (dflt content : str) :
  has_order_notation dflt ->
  has_order_notation (extract_complexity pattern dflt content).
Proof.
  intros Hd. unfold extract_complexity.
  destruct (exec pattern content) as [m|]; [|exact Hd].
  destruct (truthy (group1 m)); [apply ensure_notation_shows | exact Hd].
Qed.

Lemma defaults_show_notation :
  has_order_notation defaultTimeComplexity
  /\ has_order_notation defaultSpaceComplexity.
Proof.
  split.
  - exists [], 79%N, [110%N],
      (skipn 4 defaultTimeComplexity).
    split; [reflexivity|]. split; [left; reflexivity|].
    split; [discriminate | reflexivity].
  - exists [], 79%N, [110%N],
      (skipn 4 defaultSpaceComplexity).
    split; [reflexivity|]. split; [left; reflexivity|].
    split; [discriminate | reflexivity].
Qed.

(** X28.  In the coding mode, and for every mode that is handled as
    coding, both complexity fields of a result show an order notation: a
    letter O, in either case, and a parenthesis that is closed and not
    empty, whatever the response was. *)
Theorem complexity_shows_an_order_notation (content mode : str) :
  is_mode "coding" mode = true \/ recognized mode = false ->
  let r := processSolutionResponse content mode in
  has_order_notation (time_complexity_of r)
  /\ has_order_notation (space_complexity_of r).
Proof.
  intros Hmode. cbn zeta. rewrite process_unrecognized by exact Hmode.
  cbn [time_complexity_of space_complexity_of processCodingSolution
       time_complexity space_complexity].
  split; apply extract_complexity_shows; apply defaults_show_notation.
Qed.

Lemma complexity_shows_an_order_notation_witness :
  has_order_notation
    (time_complexity_of (processSolutionResponse solutionText (lit "coding")))
  /\ has_order_notation
       (space_complexity_of
          (processSolutionResponse solutionText (lit "coding"))).
Proof.
  exact (complexity_shows_an_order_notation solutionText (lit "coding")
           (or_introl eq_refl)).
Defined.

End ParserShapeFacts.

(** ** Further facts about the prompts *)

Module PromptShapeFacts.

Import JS Orchestrator Scenarios Terms StringFacts.

Lemma includes_here (p b : str) : includes p (p ++ b) = true.
Proof.
  assert (H : starts_with p (p ++ b) = true).
  { induction p as [|c p IH]; [reflexivity|].
    cbn. unfold char_eqb. rewrite N.eqb_refl. exact IH. }
  destruct p as [|c p]; [destruct b; reflexivity|].
  cbn [app includes]. change (c :: p ++ b) with ((c :: p) ++ b).
  rewrite H. reflexivity.
Qed.

Lemma includes_after (p a s : str) :
  includes p s = true -> includes p (a ++ s) = true.
Proof.
  intros H. induction a as [|c a IH]; [exact H|].
  cbn [app includes]. rewrite IH. apply orb_true_r.
Qed.

Ltac find_field :=
  repeat first [apply includes_here | apply includes_after].

Lemma mode_is (name : string) (mode : str) :
  is_mode name mode = true -> mode = lit name.
Proof. unfold is_mode. apply eqb_eq. Qed.

(** X30.  The problem reaches the provider: in every mode the solution
    prompt contains the text of the extracted problem, which is the field
    question_text in the certification mode and problem_statement in
    every other one, and so does the debug prompt in each of the six
    known modes; when the field is missing from the extracted object the
    prompts carry the word undefined in its place. *)
Theorem prompts_carry_the_problem (mode : str) (problemInfo : ProblemInfo)
    (language : str) :
  let problem := field problemInfo (problem_key mode) in
  includes problem (createSolutionPromptByMode mode problemInfo language)
  = true
  /\ (recognized mode = true ->
      includes problem (createDebugUserPromptByMode mode problemInfo language)
      = true)
  /\ (problemInfo !! problem_key mode = None -> problem = lit "undefined").
Proof.
  cbn zeta. split; [|split].
  - unfold createSolutionPromptByMode, problem_key.
    destruct (is_mode "coding" mode) eqn:E1;
      [apply mode_is in E1; subst mode; cbv iota; find_field|].
    destruct (is_mode "system_design" mode) eqn:E2;
      [apply mode_is in E2; subst mode; cbv iota; find_field|].
    destruct (is_mode "react" mode) eqn:E3;
      [apply mode_is in E3; subst mode; cbv iota; find_field|].
    destruct (is_mode "sql" mode) eqn:E4;
      [apply mode_is in E4; subst mode; cbv iota; find_field|].
    destruct (is_mode "linux" mode) eqn:E5;
      [apply mode_is in E5; subst mode; cbv iota; find_field|].
    destruct (is_mode "certification" mode) eqn:E6; find_field.
  - unfold recognized, recognized_modes, createDebugUserPromptByMode,
      problem_key. cbn [existsb].
    destruct (is_mode "coding" mode) eqn:E1;
      [apply mode_is in E1; subst mode; intros _; cbv iota; find_field|].
    destruct (is_mode "system_design" mode) eqn:E2;
      [apply mode_is in E2; subst mode; intros _; cbv iota; find_field|].
    destruct (is_mode "react" mode) eqn:E3;
      [apply mode_is in E3; subst mode; intros _; cbv iota; find_field|].
    destruct (is_mode "sql" mode) eqn:E4;
      [apply mode_is in E4; subst mode; intros _; cbv iota; find_field|].
    destruct (is_mode "linux" mode) eqn:E5;
      [apply mode_is in E5; subst mode; intros _; cbv iota; find_field|].
    destruct (is_mode "certification" mode) eqn:E6;
      [intros _; find_field | discriminate].
  - unfold field. intros ->. reflexivity.
Qed.

End PromptShapeFacts.

(** ** The adapter of each call, with the awaits of the run *)

Module AwaitFacts.

Import JS Parser Adapters Orchestrator Scenarios Terms StringFacts
  OrchestratorFacts.

#[local] Hint Rewrite @value_of_bind @state_of_bind @state_of_send_if
  state_of_send state_of_modify state_of_get value_of_get @value_of_ret
  @state_of_ret : op.

Lemma initializeModelAdapter_built (n : nat) (s : State) :
  n <= length (adapters s) ->
  built_since n (state_of (initializeModelAdapter s)).
Proof.
  intros Hn. unfold built_since, initializeModelAdapter.
  rewrite state_of_modify.
  destruct (active_provider_config (config s)) as [pc|];
    [|cbn; split; [exact Hn | intros i [=]]].
  destruct (truthy (cfg_apiKey pc));
    [|cbn; split; [exact Hn | intros i [=]]].
  destruct (createModelAdapter _ _ _) as [a|e];
    [|cbn; split; [exact Hn | intros i [=]]].
  cbn [set_modelAdapter set_adapters adapters modelAdapter].
  rewrite length_app. cbn [length]. split; [lia|].
  intros i [= <-]. exact Hn.
Qed.

Lemma configUpdated_built (n : nat) (c : Config) (s : State) :
  n <= length (adapters s) ->
  built_since n (state_of (configUpdated c s)).
Proof.
  intros Hn. unfold configUpdated. autorewrite with op.
  apply initializeModelAdapter_built. exact Hn.
Qed.

Lemma whileSuspended_built (n : nat) (changes : list Config) :
  forall s,
    built_since n s ->
    built_since n (state_of (Awaits.whileSuspended changes s)).
Proof.
  induction changes as [|c later IH]; intros s Hs; [exact Hs|].
  cbn [Awaits.whileSuspended]. autorewrite with op.
  apply IH, configUpdated_built, (proj1 Hs).
Qed.

Lemma whileSuspended_keeps (changes : list Config) :
  forall s i a,
    adapters s !! i = Some a ->
    adapters (state_of (Awaits.whileSuspended changes s)) !! i = Some a.
Proof.
  induction changes as [|c later IH]; intros s i a H; [exact H|].
  cbn [Awaits.whileSuspended]. autorewrite with op.
  apply IH, configUpdated_keeps, H.
Qed.

(** After a change that installs an adapter, and whatever changes come
    later, the current adapter is none of those that were there before. *)
Lemma whileSuspended_installs (c : Config) (later : list Config) (s : State) :
  built_since (length (adapters s))
    (state_of (Awaits.whileSuspended (c :: later) s)).
Proof.
  cbn [Awaits.whileSuspended]. autorewrite with op.
  apply whileSuspended_built, configUpdated_built. lia.
Qed.

Lemma ensure_adapter_built (n : nat) (s : State) :
  built_since n s -> built_since n (ensure_adapter s).
Proof.
  intros Hs. unfold ensure_adapter.
  destruct (modelAdapter s) eqn:E; [exact Hs|].
  apply initializeModelAdapter_built, (proj1 Hs).
Qed.

(** The three places where a run issues an adapter call.  In each the
    call is made on the object that [this.modelAdapter] references in
    the state in which the run is left suspended. *)
Lemma generateSolutionsHelper_await (changes : list Config) (signal : nat)
    (mode : str) (w : bool) (s : State) (p : Pending) :
  let r := Awaits.generateSolutionsHelper changes signal mode w s in
  value_of r = inr p ->
  state_of r = state_of (Awaits.whileSuspended changes s)
  /\ modelAdapter (state_of r) = Some (p_adapter p)
  /\ (exists adapter messages,
        adapters (state_of r) !! p_adapter p = Some adapter
        /\ p_call p = any_complete adapter messages (request_options signal))
  /\ p_stage p = Solving
  /\ p_signal p = signal.
Proof.
  cbn zeta. unfold Awaits.generateSolutionsHelper. autorewrite with op.
  set (s1 := state_of (Awaits.whileSuspended changes s)).
  destruct (problemInfo s) as [info|]; [|intros [=]].
  unfold current_adapter.
  destruct (modelAdapter s1) as [i|] eqn:Ei; [|intros [=]].
  destruct (adapters s1 !! i) as [a|] eqn:Ea; [|intros [=]].
  autorewrite with op.
  destruct (any_complete a _ _) eqn:Ec; autorewrite with op;
    intros [= <-]; cbn [p_adapter p_stage p_signal p_call];
    (split; [reflexivity|]); (split; [exact Ei|]);
    (split; [|split; reflexivity]);
    eexists _, _; (split; [exact Ea|]); symmetry; exact Ec.
Qed.

Lemma afterExtraction_await JSON_parse (changes : list Config) (p : Pending)
    (o : Outcome) (s : State) (p2 : Pending) :
  let r := Awaits.afterExtraction JSON_parse changes p o s in
  value_of r = Waiting p2 ->
  modelAdapter (state_of r) = Some (p_adapter p2)
  /\ (exists adapter messages,
        adapters (state_of r) !! p_adapter p2 = Some adapter
        /\ p_call p2
           = any_complete adapter messages (request_options (p_signal p)))
  /\ p_stage p2 = Solving
  /\ p_signal p2 = p_signal p
  /\ (forall n, built_since n s -> built_since n (state_of r))
  /\ (forall i a, adapters s !! i = Some a ->
                  adapters (state_of r) !! i = Some a).
Proof.
  cbn zeta. unfold Awaits.afterExtraction. destruct o as [r|e].
  2:{ rewrite finishPrimary_finished. intros [=]. }
  destruct (JSON_parse _) as [info|].
  2:{ rewrite finishPrimary_finished. intros [=]. }
  destruct (p_window p).
  2:{ autorewrite with op. rewrite finishPrimary_finished. intros [=]. }
  autorewrite with op.
  destruct (value_of (Awaits.generateSolutionsHelper _ _ _ _ _)) as [r'|p']
    eqn:E.
  { rewrite solutionsDone_finished. intros [=]. }
  autorewrite with op. intros [= <-].
  apply generateSolutionsHelper_await in E.
  destruct E as (E0 & E1 & E2 & E3 & E4).
  split; [exact E1|]. split; [exact E2|]. split; [exact E3|].
  split; [exact E4|]. rewrite E0. split.
  - intros n Hn. apply whileSuspended_built. exact Hn.
  - intros i a Ha. apply whileSuspended_keeps. exact Ha.
Qed.

Lemma processScreenshotsHelper_await JSON_parse
    (duringLanguage duringMode : list Config) (images : list str)
    (signal : nat) (s : State) (p : Pending) :
  let r :=
    Awaits.processScreenshotsHelper JSON_parse duringLanguage duringMode
      images signal s in
  value_of r = Waiting p ->
  state_of r
  = ensure_adapter
      (state_of
         (Awaits.whileSuspended duringMode
            (state_of (Awaits.whileSuspended duringLanguage s))))
  /\ modelAdapter (state_of r) = Some (p_adapter p)
  /\ (exists adapter messages,
        adapters (state_of r) !! p_adapter p = Some adapter
        /\ p_call p = any_vision adapter messages (request_options signal))
  /\ p_stage p = Extracting
  /\ p_signal p = signal.
Proof.
  cbn zeta. unfold Awaits.processScreenshotsHelper. autorewrite with op.
  set (s2 := state_of (Awaits.whileSuspended duringMode _)).
  change (state_of (match modelAdapter s2 with
                    | Some _ => ret tt
                    | None => initializeModelAdapter
                    end s2)) with (ensure_adapter s2).
  set (s3 := ensure_adapter s2).
  unfold current_adapter.
  destruct (modelAdapter s3) as [i|] eqn:Ei.
  2:{ rewrite finishPrimary_finished. intros [=]. }
  destruct (adapters s3 !! i) as [a|] eqn:Ea.
  2:{ rewrite finishPrimary_finished. intros [=]. }
  autorewrite with op.
  destruct (any_vision a _ _) eqn:Ev.
  { unfold Awaits.afterExtraction. rewrite finishPrimary_finished.
    intros [=]. }
  all: autorewrite with op; intros [= <-];
    cbn [p_adapter p_stage p_signal p_call];
    (split; [reflexivity|]); (split; [exact Ei|]);
    (split; [|split; reflexivity]);
    eexists _, _; (split; [exact Ea|]); symmetry; exact Ev.
Qed.

Lemma processExtraScreenshotsHelper_await
    (duringLanguage duringMode : list Config) (images : list str)
    (signal : nat) (s : State) (p : Pending) :
  let r :=
    Awaits.processExtraScreenshotsHelper duringLanguage duringMode images
      signal s in
  value_of r = Waiting p ->
  state_of r
  = state_of
      (Awaits.whileSuspended duringMode
         (state_of (Awaits.whileSuspended duringLanguage s)))
  /\ modelAdapter (state_of r) = Some (p_adapter p)
  /\ (exists adapter messages,
        adapters (state_of r) !! p_adapter p = Some adapter
        /\ p_call p = any_vision adapter messages (request_options signal))
  /\ p_stage p = Debugging
  /\ p_signal p = signal.
Proof.
  cbn zeta. unfold Awaits.processExtraScreenshotsHelper.
  autorewrite with op.
  set (s2 := state_of (Awaits.whileSuspended duringMode _)).
  destruct (problemInfo s) as [info|];
    [|rewrite finishDebug_finished; intros [=]].
  unfold current_adapter.
  destruct (modelAdapter s2) as [i|] eqn:Ei;
    [|rewrite finishDebug_finished; intros [=]].
  destruct (adapters s2 !! i) as [a|] eqn:Ea;
    [|rewrite finishDebug_finished; intros [=]].
  autorewrite with op.
  destruct (any_vision a _ _) eqn:Ev.
  { unfold afterDebug. rewrite finishDebug_finished. intros [=]. }
  all: autorewrite with op; intros [= <-];
    cbn [p_adapter p_stage p_signal p_call];
    (split; [reflexivity|]); (split; [exact Ei|]);
    (split; [|split; reflexivity]);
    eexists _, _; (split; [exact Ea|]); symmetry; exact Ev.
Qed.

(** The state in which [processScreenshots] leaves a suspended run: the
    state of its start with the adapter checked and the controller made,
    then the changes of the three awaits, then, in the queue branch, the
    check of the adapter in the helper. *)
Lemma processScreenshots_await JSON_parse readScreenshots
    (duringRead duringLanguage duringMode : list Config) (s : State)
    (p : Pending) :
  let r :=
    Awaits.processScreenshots JSON_parse readScreenshots duringRead
      duringLanguage duringMode s in
  value_of r = Waiting p ->
  modelAdapter (state_of r) = Some (p_adapter p)
  /\ (exists adapter messages,
        adapters (state_of r) !! p_adapter p = Some adapter
        /\ p_call p
           = any_vision adapter messages (request_options (p_signal p)))
  /\ exists s_c,
       adapters s_c = adapters (ensure_adapter s)
       /\ modelAdapter s_c = modelAdapter (ensure_adapter s)
       /\ let s_m :=
            state_of
              (Awaits.whileSuspended duringMode
                 (state_of
                    (Awaits.whileSuspended duringLanguage
                       (state_of (Awaits.whileSuspended duringRead s_c))))) in
          state_of r = ensure_adapter s_m \/ state_of r = s_m.
Proof.
  cbn zeta. unfold Awaits.processScreenshots. autorewrite with op.
  destruct (mainWindow s); cbn [negb]; [|intros [=]].
  autorewrite with op.
  change (state_of (match modelAdapter s with
                    | Some _ => ret tt
                    | None => initializeModelAdapter
                    end s)) with (ensure_adapter s).
  set (s1 := ensure_adapter s).
  destruct (modelAdapter s1) as [i|] eqn:Ei; [|intros [=]].
  destruct (view s1).
  - autorewrite with op.
    destruct (screenshotQueue s1); [intros [=]|].
    unfold newController. autorewrite with op.
    set (s_c := set_currentProcessingAbortController _ _).
    destruct (readScreenshots _) as [images|e];
      [|rewrite primary_catch_finished; intros [=]].
    intros H. apply processScreenshotsHelper_await in H.
    destruct H as (H0 & H1 & H2 & _ & H4).
    split; [exact H1|]. split; [rewrite H4; exact H2|].
    exists s_c. split; [reflexivity|]. split; [exact Ei|].
    left. exact H0.
  - destruct (extraScreenshotQueue s1); [intros [=]|].
    unfold newController. autorewrite with op.
    set (s_c := set_currentExtraProcessingAbortController _ _).
    destruct (readScreenshots _) as [images|e];
      [|rewrite debug_outer_catch_finished; intros [=]].
    intros H. apply processExtraScreenshotsHelper_await in H.
    destruct H as (H0 & H1 & H2 & _ & H4).
    split; [exact H1|]. split; [rewrite H4; exact H2|].
    exists s_c. split; [reflexivity|]. split; [exact Ei|].
    right. exact H0.
Qed.

Lemma keeps_length {A} (l l' : list A) :
  (forall i a, l !! i = Some a -> l' !! i = Some a) ->
  length l <= length l'.
Proof.
  intros H. destruct (le_lt_dec (length l) (length l')) as [Hle|Hlt];
    [exact Hle|].
  destruct (lookup_lt_is_Some_2 l (length l') Hlt) as [a Ha].
  apply H, lookup_lt_Some in Ha. lia.
Qed.

Lemma whileSuspended_length (changes : list Config) (s : State) :
  length (adapters s)
  <= length (adapters (state_of (Awaits.whileSuspended changes s))).
Proof. apply keeps_length. intros i a. apply whileSuspended_keeps. Qed.

Lemma ensure_adapter_keeps (s : State) (i : nat) (a : AnyAdapter) :
  adapters s !! i = Some a -> adapters (ensure_adapter s) !! i = Some a.
Proof.
  unfold ensure_adapter. destruct (modelAdapter s); [auto|].
  apply initializeModelAdapter_adapters.
Qed.

Lemma built_since_le (n m : nat) (s : State) :
  n <= m -> built_since m s -> built_since n s.
Proof.
  intros Hnm [H1 H2]. split; [lia|]. intros i Hi. apply H2 in Hi. lia.
Qed.

(** When a change arrives during one of the awaits, the current adapter at
    the end of the awaits is none of those that were there at their
    start. *)
Lemma awaits_built (duringRead duringLanguage duringMode : list Config)
    (s : State) :
  duringRead ++ duringLanguage ++ duringMode <> [] ->
  built_since (length (adapters s))
    (state_of
       (Awaits.whileSuspended duringMode
          (state_of
             (Awaits.whileSuspended duringLanguage
                (state_of (Awaits.whileSuspended duringRead s)))))).
Proof.
  intros Hne. destruct duringRead as [|c later].
  - destruct duringLanguage as [|c later].
    + destruct duringMode as [|c later]; [contradiction|].
      apply whileSuspended_installs.
    + apply whileSuspended_built. apply whileSuspended_installs.
  - do 2 apply whileSuspended_built. apply whileSuspended_installs.
Qed.

Lemma awaits_keep (duringRead duringLanguage duringMode : list Config)
    (s : State) (i : nat) (a : AnyAdapter) :
  adapters s !! i = Some a ->
  adapters
    (state_of
       (Awaits.whileSuspended duringMode
          (state_of
             (Awaits.whileSuspended duringLanguage
                (state_of (Awaits.whileSuspended duringRead s)))))) !! i
  = Some a.
Proof. intros H. do 3 apply whileSuspended_keeps. exact H. Qed.

(** *** Without a change during the awaits

    When no configuration change arrives while a run waits, the
    operations with the awaits are the operations of [Orchestrator]. *)

Ltac same_op :=
  repeat (cbv beta iota; cbn [app];
          try reflexivity;
          match goal with
          | |- context [match ?x with (_, _) => _ end] =>
              lazymatch x with
              | (_, _) => fail
              | context [match _ with (_, _) => _ end] => fail
              | _ => destruct x as [? ?]
              end
          end).

Lemma pair_eta {A B C} (x : A * B * C) :
  (let '(a, b, c) := x in (a, b, c)) = x.
Proof. destruct x as [[a b] c]. reflexivity. Qed.

Lemma no_change_generateSolutionsHelper (signal : nat) (mode : str)
    (w : bool) (s : State) :
  Awaits.generateSolutionsHelper [] signal mode w s
  = generateSolutionsHelper signal mode w s.
Proof.
  unfold Awaits.generateSolutionsHelper, generateSolutionsHelper.
  cbn [Awaits.whileSuspended]. op_unfold.
  destruct (problemInfo s) as [info|]; [|reflexivity].
  destruct (current_adapter s) as [[ref a]|]; [|reflexivity].
  destruct (mainWindow s); destruct (any_complete a _ _); reflexivity.
Qed.

Lemma no_change_afterExtraction JSON_parse (p : Pending) (o : Outcome)
    (s : State) :
  Awaits.afterExtraction JSON_parse [] p o s = afterExtraction JSON_parse p o s.
Proof.
  unfold Awaits.afterExtraction, afterExtraction.
  destruct o as [r|e]; [|reflexivity].
  destruct (JSON_parse _) as [info|]; [|reflexivity].
  destruct (p_window p); [|reflexivity].
  unfold bind, send_if, send, modify. cbv beta iota.
  rewrite no_change_generateSolutionsHelper. reflexivity.
Qed.

Lemma no_change_processScreenshotsHelper JSON_parse (images : list str)
    (signal : nat) (s : State) :
  Awaits.processScreenshotsHelper JSON_parse [] [] images signal s
  = processScreenshotsHelper JSON_parse images signal s.
Proof.
  unfold Awaits.processScreenshotsHelper, processScreenshotsHelper.
  cbn [Awaits.whileSuspended].
  unfold Awaits.afterExtraction, afterExtraction.
  unfold bind, get, ret, send_if, send. cbv beta iota.
  destruct (modelAdapter s);
    [|destruct (initializeModelAdapter s) as [[u s1] e1]];
    cbv beta iota;
    (destruct (current_adapter _) as [[ref a]|]; [|same_op]);
    destruct (mainWindow s); cbv beta iota;
    destruct (any_vision a _ _); same_op.
Qed.

Lemma no_change_processExtraScreenshotsHelper (images : list str)
    (signal : nat) (s : State) :
  Awaits.processExtraScreenshotsHelper [] [] images signal s
  = processExtraScreenshotsHelper images signal s.
Proof.
  unfold Awaits.processExtraScreenshotsHelper, processExtraScreenshotsHelper.
  cbn [Awaits.whileSuspended]. unfold bind, get, ret, send_if, send.
  cbv beta iota.
  destruct (problemInfo s) as [info|]; [|same_op].
  destruct (current_adapter s) as [[ref a]|]; [|same_op].
  destruct (mainWindow s); cbv beta iota;
    destruct (any_vision a _ _); same_op.
Qed.

Lemma no_change_processScreenshots JSON_parse readScreenshots (s : State) :
  Awaits.processScreenshots JSON_parse readScreenshots [] [] [] s
  = processScreenshots JSON_parse readScreenshots s.
Proof.
  unfold Awaits.processScreenshots, processScreenshots.
  cbn [Awaits.whileSuspended].
  unfold newController, bind, get, ret, modify, send. cbv beta iota.
  destruct (mainWindow s); cbn [negb]; [|reflexivity].
  destruct (modelAdapter s);
    [|destruct (initializeModelAdapter s) as [[u s1] e1]];
    cbv beta iota;
    (destruct (modelAdapter _); [|reflexivity]);
    (destruct (view _);
     [ destruct (screenshotQueue _) as [|path paths]; [reflexivity|]
     | destruct (extraScreenshotQueue _) as [|path paths]; [reflexivity|] ]);
    cbv beta iota;
    (destruct (readScreenshots _) as [images|e]; [|same_op]);
    rewrite ?no_change_processScreenshotsHelper,
      ?no_change_processExtraScreenshotsHelper; same_op.
Qed.

Lemma no_change_resume JSON_parse (p : Pending) (r : Reply) (s : State) :
  Awaits.resume JSON_parse [] p r s = resume JSON_parse p r s.
Proof.
  unfold Awaits.resume, resume.
  destruct (outcome_of (p_call p) r) as [o|]; [|reflexivity].
  destruct (p_stage p); [|reflexivity|reflexivity].
  apply no_change_afterExtraction.
Qed.

Lemma built_since_same (n : nat) (s s' : State) :
  adapters s' = adapters s ->
  modelAdapter s' = modelAdapter s ->
  built_since n s -> built_since n s'.
Proof. unfold built_since. intros -> ->. auto. Qed.

Lemma ensure_adapter_length (s : State) :
  length (adapters s) <= length (adapters (ensure_adapter s)).
Proof. apply keeps_length. intros i a. apply ensure_adapter_keeps. Qed.

(** What a suspended run of [processScreenshots] has kept and built. *)
Lemma processScreenshots_built JSON_parse readScreenshots
    (duringRead duringLanguage duringMode : list Config) (s : State)
    (p : Pending) :
  let r :=
    Awaits.processScreenshots JSON_parse readScreenshots duringRead
      duringLanguage duringMode s in
  value_of r = Waiting p ->
  (forall i a, adapters s !! i = Some a ->
               adapters (state_of r) !! i = Some a)
  /\ (forall n, built_since n s -> n <= p_adapter p)
  /\ (duringRead ++ duringLanguage ++ duringMode <> [] ->
      length (adapters s) <= p_adapter p).
Proof.
  cbn zeta. intros H. apply processScreenshots_await in H.
  destruct H as (Hcur & _ & s_c & Ha & Hm & Hs). cbn zeta in Hs.
  set (s_m := state_of (Awaits.whileSuspended duringMode _)) in Hs.
  assert (Hkeep : forall i a, adapters s !! i = Some a ->
                              adapters s_m !! i = Some a).
  { intros i a Hi. apply awaits_keep. rewrite Ha.
    apply ensure_adapter_keeps, Hi. }
  assert (Hbuilt : forall n, built_since n s -> built_since n s_m).
  { intros n Hn. do 3 apply whileSuspended_built.
    apply (built_since_same n (ensure_adapter s) s_c Ha Hm).
    apply ensure_adapter_built, Hn. }
  assert (Hnew : duringRead ++ duringLanguage ++ duringMode <> [] ->
                 built_since (length (adapters s)) s_m).
  { intros Hne. apply (built_since_le _ (length (adapters s_c))).
    - rewrite Ha. apply ensure_adapter_length.
    - apply awaits_built, Hne. }
  destruct Hs as [Hs|Hs]; rewrite Hs in *.
  - split; [intros i a Hi; apply ensure_adapter_keeps, Hkeep, Hi|].
    split.
    + intros n Hn. apply (ensure_adapter_built n s_m (Hbuilt n Hn)), Hcur.
    + intros Hne.
      apply (ensure_adapter_built _ s_m (Hnew Hne)), Hcur.
  - split; [exact Hkeep|]. split.
    + intros n Hn. apply (Hbuilt n Hn), Hcur.
    + intros Hne. apply (Hnew Hne), Hcur.
Qed.

(** C2, as amended.  Every adapter call of a run is made on the adapter
    object that [this.modelAdapter] references when the call is issued:
    the run reads the field at each call and keeps no adapter of its own.
    This holds whatever configuration changes arrive while the run waits
    for its screenshots, for the language and for the mode.  A change
    leaves the adapter objects that exist as they are and installs a new
    one for the new configuration.  So a change that arrives before the
    first call of a run, or between its extraction call and its solution
    call, moves the next call to an adapter that was built by that change
    or after it; only when no change arrives does the run go on with the
    adapter that was current before, and then the operations are those of
    [Orchestrator]. *)
Theorem C2_adapter_is_read_when_a_call_is_issued JSON_parse readScreenshots :
  (forall duringRead duringLanguage duringMode s p,
     let r :=
       Awaits.processScreenshots JSON_parse readScreenshots duringRead
         duringLanguage duringMode s in
     value_of r = Waiting p ->
     modelAdapter (state_of r) = Some (p_adapter p)
     /\ (exists adapter messages,
           adapters (state_of r) !! p_adapter p = Some adapter
           /\ p_call p
              = any_vision adapter messages (request_options (p_signal p)))
     /\ (forall i a, adapters s !! i = Some a ->
                     adapters (state_of r) !! i = Some a)
     /\ (duringRead ++ duringLanguage ++ duringMode <> [] ->
         length (adapters s) <= p_adapter p)
     /\ (duringRead ++ duringLanguage ++ duringMode = [] ->
         forall i, modelAdapter s = Some i -> p_adapter p = i))
  /\ (forall duringLanguage p o s p2,
        let r := Awaits.afterExtraction JSON_parse duringLanguage p o s in
        value_of r = Waiting p2 ->
        p_stage p2 = Solving
        /\ modelAdapter (state_of r) = Some (p_adapter p2)
        /\ (exists adapter messages,
              adapters (state_of r) !! p_adapter p2 = Some adapter
              /\ p_call p2
                 = any_complete adapter messages
                     (request_options (p_signal p)))
        /\ (forall i a, adapters s !! i = Some a ->
                        adapters (state_of r) !! i = Some a)
        /\ (duringLanguage <> [] -> length (adapters s) <= p_adapter p2)
        /\ (duringLanguage = [] -> modelAdapter s = Some (p_adapter p2)))
  /\ (forall c s i a,
        adapters s !! i = Some a ->
        adapters (state_of (configUpdated c s)) !! i = Some a)
  /\ (forall c s pc,
        active_provider_config c = Some pc ->
        truthy (cfg_apiKey pc) = true ->
        exists a,
          createModelAdapter (activeProvider c) (cfg_apiKey pc) (cfg_model pc)
          = inl a
          /\ current_adapter (state_of (configUpdated c s))
             = Some (length (adapters s), a))
  /\ (forall duringLanguage p o c s p2,
        value_of
          (Awaits.afterExtraction JSON_parse duringLanguage p o
             (state_of (configUpdated c s)))
        = Waiting p2 ->
        length (adapters s) <= p_adapter p2)
  /\ (forall duringRead duringLanguage duringMode c s p,
        value_of
          (Awaits.processScreenshots JSON_parse readScreenshots duringRead
             duringLanguage duringMode (state_of (configUpdated c s)))
        = Waiting p ->
        length (adapters s) <= p_adapter p)
  /\ (forall s,
        Awaits.processScreenshots JSON_parse readScreenshots [] [] [] s
        = processScreenshots JSON_parse readScreenshots s)
  /\ (forall p r s,
        Awaits.resume JSON_parse [] p r s = resume JSON_parse p r s).
Proof.
  split; [|split; [|split; [|split; [|split; [|split; [|split]]]]]].
  - intros duringRead duringLanguage duringMode s p. cbn zeta. intros H.
    pose proof (processScreenshots_await _ _ _ _ _ _ _ H) as (H1 & H2 & _).
    pose proof (processScreenshots_built _ _ _ _ _ _ _ H) as (H3 & _ & H4).
    split; [exact H1|]. split; [exact H2|]. split; [exact H3|].
    split; [exact H4|].
    intros Hnone i Hi.
    destruct duringRead; [|discriminate Hnone].
    destruct duringLanguage; [|discriminate Hnone].
    destruct duringMode; [|discriminate Hnone].
    rewrite no_change_processScreenshots in H.
    apply processScreenshots_waits in H. destruct H as (_ & _ & H).
    apply H, Hi.
  - intros duringLanguage p o s p2. cbn zeta. intros H.
    pose proof (afterExtraction_await _ _ _ _ _ _ H)
      as (H1 & H2 & H3 & _ & H5 & H6).
    split; [exact H3|]. split; [exact H1|]. split; [exact H2|].
    split; [exact H6|]. split.
    + intros Hne. destruct duringLanguage as [|c later]; [contradiction|].
      revert H H1. unfold Awaits.afterExtraction.
      destruct o as [r|e]; [|rewrite finishPrimary_finished; intros [=]].
      destruct (JSON_parse _) as [info|];
        [|rewrite finishPrimary_finished; intros [=]].
      destruct (p_window p);
        [|autorewrite with op; rewrite finishPrimary_finished; intros [=]].
      autorewrite with op.
      destruct (value_of (Awaits.generateSolutionsHelper _ _ _ _ _))
        as [r'|p'] eqn:E; [rewrite solutionsDone_finished; intros [=]|].
      autorewrite with op. intros [= <-].
      apply generateSolutionsHelper_await in E.
      destruct E as (E0 & _). rewrite E0. intros Hcur.
      pose proof (whileSuspended_installs c later
                    (set_problemInfo info s)) as [_ Hb].
      apply Hb. exact Hcur.
    + intros ->. rewrite no_change_afterExtraction in H.
      apply afterExtraction_waits in H. tauto.
  - apply configUpdated_keeps.
  - apply configUpdated_installs.
  - intros duringLanguage p o c s p2 H.
    pose proof (afterExtraction_await _ _ _ _ _ _ H)
      as (H1 & _ & _ & _ & H5 & _).
    apply (H5 (length (adapters s))); [|exact H1].
    apply configUpdated_built. lia.
  - intros duringRead duringLanguage duringMode c s p H.
    pose proof (processScreenshots_built _ _ _ _ _ _ _ H) as (_ & H2 & _).
    apply H2. apply configUpdated_built. lia.
  - apply no_change_processScreenshots.
  - apply no_change_resume.
Qed.

Lemma C2_adapter_is_read_when_a_call_is_issued_witness :
  value_of startedDuringSwitch = Waiting switchedPending
  /\ modelAdapter ready = Some 0
  /\ provider_at ready 0 = Some (lit "OpenAI")
  /\ length (adapters ready) <= p_adapter switchedPending
  /\ provider_at (state_of startedDuringSwitch) (p_adapter switchedPending)
     = Some (lit "Claude").
Proof.
  assert (Hv : value_of startedDuringSwitch = Waiting switchedPending)
    by (vm_compute; reflexivity).
  split; [exact Hv|]. split; [reflexivity|].
  split; [vm_compute; reflexivity|].
  split; [|vm_compute; reflexivity].
  destruct (proj1 (C2_adapter_is_read_when_a_call_is_issued parseSum readAll)
              [claudeConfig] [] [] ready switchedPending Hv)
    as (_ & _ & _ & H & _).
  apply H. discriminate.
Defined.

End AwaitFacts.

(** ** Cancellation and the outcome of a run *)

Module CancellationFacts.

Import JS Parser Adapters Orchestrator Scenarios Terms StringFacts
  OrchestratorFacts RunFacts.

#[local] Hint Rewrite @value_of_bind @state_of_bind @state_of_send_if
  state_of_send state_of_modify state_of_get value_of_get @value_of_ret
  @state_of_ret : op.

(** An adapter call ends with the error that the client library threw,
    unless the status of that error is 401 or 429: an error that
    [axios.isCancel] recognises is never made by the adapter. *)
Lemma thrown_cancel_is_the_reply (c : Call) (reply : Reply) (e : JsError)
    (x : AnyAdapter) (messages : list ModelMessage)
    (options : option ModelRequestOptions) :
  c = any_vision x messages options \/ c = any_complete x messages options ->
  outcome_of c reply = Some (Thrown e) ->
  isCancel e = true ->
  reply = FromOpenAI (inr e) \/ reply = FromClaude (inr e).
Proof.
  assert (Hre : forall e0, rethrow e0 = Thrown e -> isCancel e = true -> e0 = e).
  { intros e0. unfold rethrow.
    destruct (bool_decide _); [intros [= <-]; discriminate|].
    destruct (bool_decide _); [intros [= <-]; discriminate|].
    intros [= <-]. reflexivity. }
  intros Hc Ho He.
  destruct Hc as [-> | ->]; destruct x as [a|a];
    cbn [any_vision any_complete vision complete OpenAIAdapter ClaudeAdapter]
      in Ho;
    unfold openai_vision, openai_complete, claude_vision, claude_complete,
      openai_request in Ho;
    repeat match type of Ho with
      | context [match client a with _ => _ end] => destruct (client a)
      | context [if ?b then _ else _] => destruct b
      end;
    try discriminate Ho;
    destruct reply as [[r|e0]|[r|e0]]; cbn in Ho; try discriminate Ho;
    injection Ho as Ho; apply Hre in Ho; try exact He; subst e0; auto.
Qed.

(** C3 fails on the code.  A run is cancelled by [cancelOngoingRequests],
    which aborts its controller; the adapters do not hand the signal to
    the client library, so the call goes on and the run resumes with the
    answer.  Nothing on the way looks at the controller: a cancelled run
    whose solution or debug call is answered finishes with a success
    event, and one whose call fails finishes with a failure event.  The
    branches for cancelled requests need an error that [axios.isCancel]
    recognises, and such an error reaches the run only when the client
    library throws it.  In the session: the run is cancelled while its
    solution call is out, the event of the cancellation is sent, and the
    success event of the same run follows it. *)
Theorem C3_cancelled_run_reports_its_result JSON_parse :
  (forall p reply response s,
     aborted s (p_signal p) = true ->
     outcome_of (p_call p) reply = Some (Returned response) ->
     p_stage p = Solving \/ p_stage p = Debugging ->
     value_of (resume JSON_parse p reply s) = Finished
     /\ existsb is_success_event (events_of (resume JSON_parse p reply s))
        = true)
  /\ (forall p reply e s,
        aborted s (p_signal p) = true ->
        outcome_of (p_call p) reply = Some (Thrown e) ->
        value_of (resume JSON_parse p reply s) = Finished
        /\ existsb is_failure_event (events_of (resume JSON_parse p reply s))
           = true)
  /\ (forall x messages options reply e,
        outcome_of (any_vision x messages options) reply = Some (Thrown e)
        \/ outcome_of (any_complete x messages options) reply
           = Some (Thrown e) ->
        isCancel e = true ->
        reply = FromOpenAI (inr e) \/ reply = FromClaude (inr e))
  /\ option_map p_stage (pending_of extracted) = Some Solving
  /\ option_map p_signal (pending_of extracted)
     = currentProcessingAbortController (state_of extracted)
  /\ option_map (fun p => aborted (state_of cancelledWhileSolving) (p_signal p))
       (pending_of extracted)
     = Some true
  /\ events_of cancelledWhileSolving = [NO_SCREENSHOTS]
  /\ option_map
       (fun p =>
          match outcome_of (p_call p) openaiSolutionReply with
          | Some (Returned _) => true
          | _ => false
          end)
       (pending_of extracted)
     = Some true
  /\ value_of solvedAfterLateCancel = Finished
  /\ existsb is_success_event (events_of solvedAfterLateCancel) = true
  /\ existsb is_failure_event (events_of solvedAfterLateCancel) = false.
Proof.
  split; [|split; [|split]].
  - intros p reply response s _ Ho Hstage. unfold resume. rewrite Ho.
    destruct Hstage as [-> | ->].
    + unfold afterSolution.
      destruct (processSolutionResponse_success (response_content response)
                  (p_mode p)) as [d ->].
      split; [apply solutionsDone_finished|].
      unfold solutionsDone. rewrite !events_of_bind.
      rewrite finishPrimary_events. cbn. reflexivity.
    + unfold afterDebug. split.
      * autorewrite with op. apply finishDebug_finished.
      * rewrite events_of_bind. unfold formatDebugResponse, finishDebug.
        rewrite existsb_app. apply orb_true_iff. right. reflexivity.
  - intros p reply e s _ Ho. unfold resume. rewrite Ho.
    assert (Hone : forall evs : list Event,
      (exists ev, evs = [ev] /\ is_failure_event ev = true) ->
      existsb is_failure_event evs = true).
    { intros evs (ev & -> & Hf). cbn [existsb]. rewrite Hf. reflexivity. }
    destruct (p_stage p).
    + unfold afterExtraction. split; [apply finishPrimary_finished|].
      destruct (extraction_catch_failure e) as [msg ->].
      apply Hone, finishPrimary_failure_events.
    + split; [apply solutionsDone_finished|].
      apply Hone, afterSolution_thrown.
    + split; [unfold afterDebug; apply finishDebug_finished|].
      apply Hone, afterDebug_thrown.
  - intros x messages options reply e [Ho|Ho] He.
    + exact (thrown_cancel_is_the_reply _ reply e x messages options
               (or_introl eq_refl) Ho He).
    + exact (thrown_cancel_is_the_reply _ reply e x messages options
               (or_intror eq_refl) Ho He).
  - repeat split; vm_compute; reflexivity.
Qed.

End CancellationFacts.

(** ** The items that the debug pass finds *)

Module DebugItemFacts.

Import JS Regex Parser Scenarios Terms StringFacts RegexFacts ParserFacts
  KeyFormatFacts.

(** *** Runs of a class *)

Lemma span_drop (p : char -> bool) (s : str) :
  exists w,
    s = w ++ drop_while p s
    /\ forallb p w = true
    /\ match drop_while p s with d :: _ => p d = false | [] => True end.
Proof.
  induction s as [|x s (w & Hs & Hw & Ht)].
  - exists []. repeat split.
  - cbn [drop_while]. destruct (p x) eqn:Hx.
    + exists (x :: w). cbn. rewrite Hx, Hw, <- Hs. repeat split. exact Ht.
    + exists []. repeat split. exact Hx.
Qed.

(** A greedy star over a class before a continuation that fails wherever
    a character of the class comes next: only the longest run counts. *)
Lemma star_class_skip (p : char -> bool) k (c : list (nat * str)) (t : str) :
  (forall n d u, p d = true -> k (MState n (d :: u) c) = None) ->
  match t with d :: _ => p d = false | [] => True end ->
  forall w fuel n,
    length w < fuel ->
    forallb p w = true ->
    star_loop (run (Cls p)) true k fuel (MState n (w ++ t) c)
    = k (MState (n + length w) t c).
Proof.
  intros Hk Ht. induction w as [|x w IH]; intros fuel n Hfuel Hw.
  - destruct fuel as [|fuel]; [inversion Hfuel|].
    cbn [star_loop app length]. rewrite Nat.add_0_r.
    rewrite (run_class_stop p n t c) by exact Ht. reflexivity.
  - destruct fuel as [|fuel]; [inversion Hfuel|].
    cbn [forallb] in Hw. apply andb_true_iff in Hw. destruct Hw as [Hx Hw].
    cbn [star_loop app]. rewrite run_class_cons, Hx. cbn [pos].
    assert (Hlt : (n <? S n) = true) by (apply Nat.ltb_lt; lia).
    rewrite Hlt. rewrite IH by (cbn in Hfuel; lia || exact Hw).
    cbn [length]. replace (n + S (length w)) with (S n + length w) by lia.
    destruct (k (MState (S n + length w) t c)); [reflexivity|].
    apply Hk. exact Hx.
Qed.

Lemma run_star_class_skip (p : char -> bool) k (c : list (nat * str))
    (w t : str) (n : nat) :
  (forall n d u, p d = true -> k (MState n (d :: u) c) = None) ->
  match t with d :: _ => p d = false | [] => True end ->
  forallb p w = true ->
  run (Star true (Cls p)) (MState n (w ++ t) c) k
  = k (MState (n + length w) t c).
Proof.
  intros Hk Ht Hw.
  change (run (Star true (Cls p)) ?s ?k0)
    with (star_loop (run (Cls p)) true k0 (S (length (rest s))) s).
  cbn [rest]. apply star_class_skip; try assumption.
  rewrite length_app. unfold str, char in *. lia.
Qed.

(** A greedy star over a class before a continuation that fails after the
    longest run and succeeds one character earlier: the star gives the
    last character back. *)
Lemma star_class_back (p : char -> bool) k (c : list (nat * str))
    (t : str) (x : char) :
  match t with d :: _ => p d = false | [] => True end ->
  p x = true ->
  forall w fuel n,
    S (length w) < fuel ->
    forallb p w = true ->
    k (MState (n + S (length w)) t c) = None ->
    is_Some (k (MState (n + length w) (x :: t) c)) ->
    star_loop (run (Cls p)) true k fuel (MState n (w ++ x :: t) c)
    = k (MState (n + length w) (x :: t) c).
Proof.
  intros Ht Hx. induction w as [|y w IH]; intros fuel n Hfuel Hw Hfull Hback.
  - destruct fuel as [|[|fuel]]; [inversion Hfuel | cbn in Hfuel; lia |].
    cbn [app length] in *. rewrite Nat.add_0_r in *.
    cbn [star_loop]. rewrite run_class_cons, Hx. cbn [pos].
    assert (Hlt : (n <? S n) = true) by (apply Nat.ltb_lt; lia).
    rewrite Hlt. rewrite (run_class_stop p (S n) t c) by exact Ht.
    replace (S n) with (n + 1) by lia. rewrite Hfull. reflexivity.
  - destruct fuel as [|fuel]; [inversion Hfuel|].
    cbn [forallb] in Hw. apply andb_true_iff in Hw. destruct Hw as [Hy Hw].
    cbn [star_loop app]. rewrite run_class_cons, Hy. cbn [pos].
    assert (Hlt : (n <? S n) = true) by (apply Nat.ltb_lt; lia).
    rewrite Hlt. cbn [length] in *.
    replace (n + S (S (length w))) with (S n + S (length w)) in Hfull by lia.
    replace (n + S (length w)) with (S n + length w) in * by lia.
    rewrite (IH fuel (S n)) by (lia || assumption).
    destruct Hback as [e He]. rewrite He. reflexivity.
Qed.

(** *** The parts of the item pattern on one line *)

Lemma line_end_stops (p : char -> bool) (t : str) :
  p nl = false ->
  at_line_end t ->
  match t with d :: _ => p d = false | [] => True end.
Proof. destruct t as [|d t]; [easy|]. cbn. intros H ->. exact H. Qed.

Lemma no_newline_app (u v : str) :
  no_newline (u ++ v) = no_newline u && no_newline v.
Proof. apply forallb_app. Qed.

(** [([^\n]+)] takes what is left of the line. *)
Lemma run_rest_of_line (u tail : str) (n : nat) (c : list (nat * str)) :
  u <> [] ->
  no_newline u = true ->
  at_line_end tail ->
  exists cap,
    run (Grp 1 (plus true not_nl)) (MState n (u ++ tail) c) Some
    = Some (MState (n + length u) tail ((1, cap) :: c)).
Proof.
  intros Hu Hnl Ht. destruct u as [|x u]; [contradiction|].
  cbn [no_newline forallb] in Hnl. apply andb_true_iff in Hnl.
  destruct Hnl as [Hx Hnl].
  unfold plus, not_nl, notc.
  change (run (Grp 1 ?a) ?s ?k)
    with (run a s (fun s' =>
            k (MState (pos s') (rest s')
                 ((1, firstn (pos s' - pos s) (rest s)) :: caps s')))).
  change (run (Seq ?a ?b) ?s ?k) with (run a s (fun s' => run b s' k)).
  cbn [app]. rewrite run_class_cons, Hx.
  rewrite run_star_greedy_class.
  - cbn [pos rest caps length]. eexists.
    replace (n + S (length u)) with (S n + length u) by lia. reflexivity.
  - apply line_end_stops; [reflexivity | exact Ht].
  - exact Hnl.
  - cbn [pos rest caps]. eexists. reflexivity.
Qed.

Lemma run_rest_of_line_none (tail : str) (n : nat) (c : list (nat * str)) :
  at_line_end tail ->
  run (Grp 1 (plus true not_nl)) (MState n tail c) Some = None.
Proof.
  intros Ht. unfold plus, not_nl, notc.
  change (run (Grp 1 ?a) ?s ?k)
    with (run a s (fun s' =>
            k (MState (pos s') (rest s')
                 ((1, firstn (pos s' - pos s) (rest s)) :: caps s')))).
  change (run (Seq ?a ?b) ?s ?k) with (run a s (fun s' => run b s' k)).
  apply run_class_stop. apply line_end_stops; [reflexivity | exact Ht].
Qed.

Lemma forallb_last (p : char -> bool) (w : str) (x : char) :
  forallb p (w ++ [x]) = true -> forallb p w = true /\ p x = true.
Proof.
  rewrite forallb_app. cbn [forallb]. rewrite andb_true_r.
  apply andb_true_iff.
Qed.

(** [[ ]+([^\n]+)] after the marker: a space and at least one more
    character of the line. *)
Lemma run_after_marker_ok (b x : char) (t tail : str) (n : nat)
    (c : list (nat * str)) :
  char_eqb 32%N b = true ->
  no_newline (x :: t) = true ->
  at_line_end tail ->
  exists cap,
    run (Seq (plus true (chr 32%N)) (Grp 1 (plus true not_nl)))
      (MState n ((b :: x :: t) ++ tail) c) Some
    = Some (MState (n + length (b :: x :: t)) tail ((1, cap) :: c)).
Proof.
  intros Hb Hnl Ht. unfold plus at 1, chr.
  change (run (Seq ?a ?b) ?s ?k) with (run a s (fun s' => run b s' k)).
  change (run (Seq ?a ?b) ?s ?k) with (run a s (fun s' => run b s' k)).
  cbn [app]. rewrite run_class_cons, Hb.
  destruct (span_drop (char_eqb 32%N) (x :: t)) as (w & Hs & Hw & Hd).
  destruct (drop_while (char_eqb 32%N) (x :: t)) as [|y u] eqn:Ed.
  - (* the rest of the line is spaces: the last of them is given back *)
    rewrite app_nil_r in Hs. subst w.
    destruct (exists_last (l := x :: t) ltac:(discriminate)) as (w' & z & Hz).
    change (x :: t ++ tail) with ((x :: t) ++ tail).
    rewrite Hz in *. rewrite <- app_assoc. cbn [app].
    apply forallb_last in Hw. destruct Hw as [Hw' Hzb].
    unfold no_newline in Hnl. apply forallb_last in Hnl.
    destruct Hnl as [_ Hzn].
    destruct (run_rest_of_line [z] tail (S n + length w') c) as [cap Hcap];
      [discriminate | cbn; rewrite Hzn; reflexivity | exact Ht |].
    change (run (Star true (Cls ?p)) ?s ?k)
      with (star_loop (run (Cls p)) true k (S (length (rest s))) s).
    cbn [rest]. rewrite star_class_back.
    + cbv beta. cbn [app] in Hcap. exists cap.
      etransitivity; [exact Hcap|].
      f_equal. f_equal. cbn [length]. rewrite length_app. cbn [length]. lia.
    + apply line_end_stops; [reflexivity | exact Ht].
    + exact Hzb.
    + rewrite length_app. cbn [length]. lia.
    + exact Hw'.
    + apply run_rest_of_line_none. exact Ht.
    + cbv beta. cbn [app] in Hcap. eexists. exact Hcap.
  - (* the text of the item follows the spaces *)
    assert (Hnu : no_newline (y :: u) = true).
    { rewrite Hs in Hnl. rewrite no_newline_app in Hnl.
      apply andb_true_iff in Hnl. tauto. }
    destruct (run_rest_of_line (y :: u) tail (S n + length w) c)
      as [cap Hcap]; [discriminate | exact Hnu | exact Ht |].
    change (x :: t ++ tail) with ((x :: t) ++ tail).
    rewrite Hs. rewrite <- app_assoc.
    rewrite run_star_greedy_class.
    + exists cap. etransitivity; [exact Hcap|]. f_equal. f_equal.
      change (length (b :: w ++ y :: u)) with (S (length (w ++ y :: u))).
      rewrite length_app. lia.
    + exact Hd.
    + exact Hw.
    + eexists. exact Hcap.
Qed.

Lemma run_after_marker_none (a tail : str) (n : nat) (c : list (nat * str)) :
  at_line_end tail ->
  match a with
  | b :: _ :: _ => char_eqb 32%N b = false
  | _ => True
  end ->
  run (Seq (plus true (chr 32%N)) (Grp 1 (plus true not_nl)))
    (MState n (a ++ tail) c) Some
  = None.
Proof.
  intros Ht Ha. unfold plus at 1, chr.
  change (run (Seq ?a ?b) ?s ?k) with (run a s (fun s' => run b s' k)).
  change (run (Seq ?a ?b) ?s ?k) with (run a s (fun s' => run b s' k)).
  destruct a as [|b [|x t]].
  - cbn [app]. apply run_class_stop.
    apply line_end_stops; [reflexivity | exact Ht].
  - cbn [app]. rewrite run_class_cons.
    destruct (char_eqb 32%N b); [|reflexivity].
    change (run (Star true (Cls ?p)) ?s ?k)
      with (star_loop (run (Cls p)) true k (S (length (rest s))) s).
    cbn [star_loop rest].
    rewrite run_class_stop
      by (apply line_end_stops; [reflexivity | exact Ht]).
    apply run_rest_of_line_none. exact Ht.
  - cbn [app]. rewrite run_class_cons, Ha. reflexivity.
Qed.

Lemma marker_not_digit (d : char) : marker_class d = true -> is_digit d = false.
Proof.
  unfold marker_class, char_eqb, is_digit, bullet.
  rewrite !orb_true_iff, !N.eqb_eq. intros [[->| ->]| ->]; reflexivity.
Qed.

Lemma digit_not_dot (d : char) : is_digit d = true -> char_eqb 46%N d = false.
Proof.
  unfold is_digit, char_eqb. rewrite andb_true_iff, !N.leb_le.
  intros [H1 H2]. apply N.eqb_neq. lia.
Qed.

(** [(?:[-*•]|\d+\.)] at the start of what is left of a line. *)
Lemma run_marker (body tail : str) (n : nat) (c : list (nat * str)) k :
  at_line_end tail ->
  match after_marker body with
  | Some a =>
      exists pre,
        body = pre ++ a
        /\ run bullet_mark (MState n (body ++ tail) c) k
           = k (MState (n + length pre) (a ++ tail) c)
  | None => run bullet_mark (MState n (body ++ tail) c) k = None
  end.
Proof.
  intros Ht. unfold bullet_mark.
  change (run (Alt ?a ?b) ?s ?k0)
    with (match run a s k0 with Some x => Some x | None => run b s k0 end).
  change (run (Seq ?a ?b) ?s ?k0) with (run a s (fun s' => run b s' k0)).
  unfold plus, digit, chr.
  change (run (Seq ?a ?b) ?s ?k0) with (run a s (fun s' => run b s' k0)).
  fold marker_class.
  destruct body as [|d t].
  - cbn [after_marker app].
    rewrite !run_class_stop
      by (apply line_end_stops; [reflexivity | exact Ht]).
    reflexivity.
  - cbn [after_marker app]. rewrite !run_class_cons.
    change (fun c0 : char => char_eqb c0 45%N || char_eqb c0 42%N
                             || char_eqb c0 bullet) with marker_class.
    destruct (marker_class d) eqn:Hm.
    + exists [d]. split; [reflexivity|].
      rewrite (marker_not_digit d Hm). cbn [length].
      replace (n + 1) with (S n) by lia.
      destruct (k _); reflexivity.
    + destruct (is_digit d) eqn:Hd; [|reflexivity].
      destruct (span_drop is_digit t) as (w & Hs & Hw & Hstop).
      assert (Hrun :
        run (Star true (Cls is_digit)) (MState (S n) (t ++ tail) c)
          (fun s' => run (Cls (char_eqb 46%N)) s' k)
        = run (Cls (char_eqb 46%N))
            (MState (S n + length w) (drop_while is_digit t ++ tail) c) k).
      { rewrite Hs at 1. rewrite <- app_assoc.
        apply run_star_class_skip.
        - intros m x u Hx. rewrite run_class_cons.
          rewrite (digit_not_dot x Hx). reflexivity.
        - destruct (drop_while is_digit t) as [|y u]; [|exact Hstop].
          cbn [app]. apply line_end_stops; [reflexivity | exact Ht].
        - exact Hw. }
      rewrite Hrun.
      destruct (drop_while is_digit t) as [|y u] eqn:Ed.
      * cbn [app]. apply run_class_stop.
        apply line_end_stops; [reflexivity | exact Ht].
      * cbn [app]. rewrite run_class_cons.
        destruct (char_eqb 46%N y); [|reflexivity].
        exists (d :: w ++ [y]). split.
        -- rewrite Hs. cbn [app]. rewrite <- app_assoc. reflexivity.
        -- cbn [length]. rewrite length_app. cbn [length].
           replace (n + S (length w + 1)) with (S (S n + length w)) by lia.
           reflexivity.
Qed.

Lemma blank_is_space (d : char) : char_eqb 32%N d = true -> d = 32%N.
Proof. unfold char_eqb. rewrite N.eqb_eq. auto. Qed.

(** No marker starts with a space. *)
Lemma run_marker_blank (n : nat) (d : char) (u : str) (c : list (nat * str)) k :
  char_eqb 32%N d = true ->
  run bullet_mark (MState n (d :: u) c) k = None.
Proof.
  intros Hd. apply blank_is_space in Hd. subst d. reflexivity.
Qed.

(** [[ ]*] before a marker takes the spaces that the line starts with. *)
Lemma run_spaces_marker (line tail : str) (n : nat) (c : list (nat * str)) k :
  at_line_end tail ->
  exists w,
    line = w ++ drop_while (char_eqb 32%N) line
    /\ run (Seq (spaces true) bullet_mark) (MState n (line ++ tail) c) k
       = run bullet_mark
           (MState (n + length w) (drop_while (char_eqb 32%N) line ++ tail) c)
           k.
Proof.
  intros Ht.
  destruct (span_drop (char_eqb 32%N) line) as (w & Hs & Hw & Hstop).
  exists w. split; [exact Hs|].
  change (run (Seq ?a ?b) ?s ?k0) with (run a s (fun s' => run b s' k0)).
  unfold spaces, chr. rewrite Hs at 1. rewrite <- app_assoc.
  apply run_star_class_skip.
  - intros m d u Hd. apply run_marker_blank. exact Hd.
  - destruct (drop_while (char_eqb 32%N) line) as [|y u]; [|exact Hstop].
    cbn [app]. apply line_end_stops; [reflexivity | exact Ht].
  - exact Hw.
Qed.

Lemma seq_assoc_run (a b r : re) (s : mstate) k :
  run (Seq a (Seq b r)) s k = run (Seq a b) s (fun s' => run r s' k).
Proof. reflexivity. Qed.

Lemma after_marker_no_newline (body a : str) :
  after_marker body = Some a ->
  no_newline body = true -> no_newline a = true.
Proof.
  intros Ha Hb.
  pose proof (run_marker body [] 0 [] Some I) as H. rewrite Ha in H.
  destruct H as (pre & -> & _). rewrite no_newline_app in Hb.
  apply andb_true_iff in Hb. tauto.
Qed.

Lemma drop_while_no_newline (p : char -> bool) (s : str) :
  no_newline s = true -> no_newline (drop_while p s) = true.
Proof.
  destruct (span_drop p s) as (w & Hs & _). intros H. rewrite Hs in H.
  rewrite no_newline_app in H. apply andb_true_iff in H. tauto.
Qed.

(** The item pattern after its anchor, on one line of the text: it
    matches when the line is an item, and then it takes the whole line. *)
Lemma run_item_line (line tail : str) (n : nat) (c : list (nat * str)) :
  no_newline line = true ->
  at_line_end tail ->
  if is_item line
  then exists cap,
         run (seqs [spaces true; bullet_mark; plus true (chr 32%N);
                    Grp 1 (plus true not_nl)])
           (MState n (line ++ tail) c) Some
         = Some (MState (n + length line) tail ((1, cap) :: c))
  else run (seqs [spaces true; bullet_mark; plus true (chr 32%N);
                  Grp 1 (plus true not_nl)])
         (MState n (line ++ tail) c) Some
       = None.
Proof.
  intros Hnl Ht. cbn [seqs].
  change (run (Seq ?a (Seq ?b ?r)) ?s ?k)
    with (run (Seq a b) s (fun s' => run r s' k)).
  destruct (run_spaces_marker line tail n c
              (fun s' =>
                 run (Seq (plus true (chr 32%N)) (Grp 1 (plus true not_nl)))
                   s' Some) Ht) as (w & Hw & Hrun).
  rewrite Hrun. clear Hrun.
  pose proof (run_marker (drop_while (char_eqb 32%N) line) tail
                (n + length w) c
                (fun s' =>
                   run (Seq (plus true (chr 32%N)) (Grp 1 (plus true not_nl)))
                     s' Some) Ht) as Hm.
  unfold is_item, item_text.
  pose proof (after_marker_no_newline (drop_while (char_eqb 32%N) line)) as Ha.
  destruct (after_marker (drop_while (char_eqb 32%N) line)) as [a|].
  2:{ exact Hm. }
  destruct Hm as (pre & Hpre & Hm). rewrite Hm. clear Hm.
  specialize (Ha a eq_refl (drop_while_no_newline _ _ Hnl)).
  destruct a as [|b [|x u]].
  - apply run_after_marker_none; [exact Ht | exact I].
  - apply run_after_marker_none; [exact Ht | exact I].
  - destruct (char_eqb 32%N b) eqn:Hb.
    + destruct (run_after_marker_ok b x u tail (n + length w + length pre) c
                  Hb) as [cap Hcap].
      * cbn [no_newline forallb] in *. apply andb_true_iff in Ha. tauto.
      * exact Ht.
      * exists cap. etransitivity; [exact Hcap|]. f_equal. f_equal.
        pose proof (f_equal (@length _) Hw) as Hl.
        rewrite length_app, Hpre, length_app in Hl.
        unfold str, char in *. lia.
    + apply run_after_marker_none; [exact Ht | exact Hb].
Qed.

(** *** The lines of a text *)

Lemma lines_of_cons (s : str) : exists l ls, lines_of s = l :: ls.
Proof.
  induction s as [|c s (l & ls & IH)]; [eexists _, _; reflexivity|].
  cbn [lines_of]. destruct (char_eqb c nl); [eexists _, _; reflexivity|].
  rewrite IH. eexists _, _; reflexivity.
Qed.

Lemma join_following (l : str) (ls : list str) :
  join [nl] (l :: ls) = l ++ following_lines ls.
Proof.
  revert l. induction ls as [|l' ls IH]; intros l.
  - cbn. rewrite app_nil_r. reflexivity.
  - change (join [nl] (l :: l' :: ls)) with (l ++ [nl] ++ join [nl] (l' :: ls)).
    rewrite IH. reflexivity.
Qed.

Lemma join_lines_of (s : str) : join [nl] (lines_of s) = s.
Proof.
  induction s as [|c s IH]; [reflexivity|].
  cbn [lines_of]. destruct (char_eqb c nl) eqn:Hc.
  - apply N.eqb_eq in Hc. subst c.
    destruct (lines_of_cons s) as (l & ls & Hl). rewrite Hl in *.
    change (join [nl] ([] :: l :: ls)) with ([] ++ [nl] ++ join [nl] (l :: ls)).
    rewrite IH. reflexivity.
  - destruct (lines_of_cons s) as (l & ls & Hl). rewrite Hl in *.
    rewrite join_following in *. cbn [app]. rewrite IH. reflexivity.
Qed.

Lemma lines_of_no_newline (s : str) :
  Forall (fun l => no_newline l = true) (lines_of s).
Proof.
  induction s as [|c s IH]; [repeat constructor|].
  cbn [lines_of]. destruct (char_eqb c nl) eqn:Hc.
  - constructor; [reflexivity | exact IH].
  - destruct (lines_of_cons s) as (l & ls & Hl). rewrite Hl in *.
    inversion IH as [|? ? Hl' Hls]; subst. constructor; [|exact Hls].
    cbn [no_newline forallb]. rewrite Hc. exact Hl'.
Qed.

Lemma following_end (ls : list str) : at_line_end (following_lines ls).
Proof. destruct ls; reflexivity. Qed.

Lemma following_length (ls : list str) :
  length ls <= length (following_lines ls).
Proof.
  induction ls as [|l ls IH]; [reflexivity|].
  change (following_lines (l :: ls)) with (nl :: l ++ following_lines ls).
  cbn [length]. rewrite length_app. unfold str, char in *. lia.
Qed.

(** *** The matches of the item pattern in a text *)

Lemma debugBulletRegex_unfold :
  debugBulletRegex
  = Seq (Alt Bol (chr nl))
      (seqs [spaces true; bullet_mark; plus true (chr 32%N);
             Grp 1 (plus true not_nl)]).
Proof. reflexivity. Qed.

Lemma run_alt_seq (a b r : re) (s : mstate) k :
  run (Seq (Alt a b) r) s k
  = match run a s (fun s' => run r s' k) with
    | Some x => Some x
    | None => run b s (fun s' => run r s' k)
    end.
Proof. reflexivity. Qed.

(** At a newline the pattern is tried on the line that follows. *)
Lemma run_item_at_newline (p : nat) (s tail : str) :
  at_line_end tail ->
  no_newline s = true ->
  run debugBulletRegex (MState p (nl :: s ++ tail) []) Some
  = run (seqs [spaces true; bullet_mark; plus true (chr 32%N);
               Grp 1 (plus true not_nl)])
      (MState (S p) (s ++ tail) []) Some.
Proof.
  intros Ht Hs. rewrite debugBulletRegex_unfold, run_alt_seq.
  assert (Hbol :
    run Bol (MState p (nl :: s ++ tail) [])
      (fun s' =>
         run (seqs [spaces true; bullet_mark; plus true (chr 32%N);
                    Grp 1 (plus true not_nl)]) s' Some)
    = None).
  { change (run Bol ?st ?k) with (if Nat.eqb (pos st) 0 then k st else None).
    cbn [pos]. destruct (Nat.eqb p 0); [|reflexivity].
    exact (run_item_line [] (nl :: s ++ tail) p [] eq_refl eq_refl). }
  rewrite Hbol. unfold chr at 1. rewrite run_class_cons. reflexivity.
Qed.

Lemma not_newline_sym (c : char) :
  negb (char_eqb c nl) = true -> char_eqb nl c = false.
Proof.
  unfold char_eqb. rewrite N.eqb_sym.
  destruct (nl =? c)%N; [discriminate | reflexivity].
Qed.

(** Inside a line, after its start, no match begins. *)
Lemma exec_from_inside (l s : str) :
  no_newline l = true ->
  forall p,
    0 < p ->
    exec_from debugBulletRegex p (l ++ s)
    = exec_from debugBulletRegex (p + length l) s.
Proof.
  intros Hl. induction l as [|c l IH]; intros p Hp.
  - cbn [app length]. rewrite Nat.add_0_r. reflexivity.
  - cbn [no_newline forallb] in Hl. apply andb_true_iff in Hl.
    destruct Hl as [Hc Hl]. cbn [app exec_from length].
    assert (Hrun : run debugBulletRegex (MState p (c :: l ++ s) []) Some = None).
    { rewrite debugBulletRegex_unfold, run_alt_seq.
      change (run Bol ?st ?k) with (if Nat.eqb (pos st) 0 then k st else None).
      cbn [pos]. destruct p as [|p]; [inversion Hp|]. cbn [Nat.eqb].
      unfold chr at 1. rewrite run_class_cons, (not_newline_sym c Hc).
      reflexivity. }
    rewrite Hrun. rewrite (IH Hl (S p)) by lia.
    f_equal. lia.
Qed.

Lemma match_all_from_exec (fuel p p' : nat) (s s' : str) (r : re) :
  exec_from r p s = exec_from r p' s' ->
  match_all_from (S fuel) r p s = match_all_from (S fuel) r p' s'.
Proof. intros H. cbn [match_all_from]. rewrite H. reflexivity. Qed.

Lemma match_all_from_none (r : re) (fuel p : nat) (s : str) :
  exec_from r p s = None -> match_all_from fuel r p s = [].
Proof.
  intros H. destruct fuel as [|fuel]; [reflexivity|].
  cbn [match_all_from]. rewrite H. reflexivity.
Qed.

Lemma exec_from_nil_none (r : re) (p : nat) :
  run r (MState p [] []) Some = None -> exec_from r p [] = None.
Proof. intros H. cbn [exec_from]. rewrite H. reflexivity. Qed.

Lemma firstn_line (l s : str) (c : char) :
  firstn (S (length l)) (c :: l ++ s) = c :: l.
Proof. cbn [firstn]. f_equal. apply take_app_length. Qed.

Lemma is_item_nil : is_item [] = false.
Proof. reflexivity. Qed.

(** After the first line, the pattern matches the item lines, each with
    the newline before it. *)
Lemma match_all_following (ls : list str) :
  Forall (fun l => no_newline l = true) ls ->
  forall fuel p,
    length ls < fuel ->
    match_all_from fuel debugBulletRegex p (following_lines ls)
    = List.map (cons nl) (List.filter is_item ls).
Proof.
  intros Hls. induction Hls as [|l ls Hl Hls IH]; intros fuel p Hfuel.
  - destruct fuel as [|fuel]; [reflexivity|].
    assert (Hrun : run debugBulletRegex (MState p [] []) Some = None).
    { rewrite debugBulletRegex_unfold, run_alt_seq.
      change (run Bol ?st ?k) with (if Nat.eqb (pos st) 0 then k st else None).
      cbn [pos].
      pose proof (run_item_line [] [] p [] eq_refl I) as H.
      rewrite is_item_nil in H. cbn [app] in H. rewrite H.
      destruct (Nat.eqb p 0); reflexivity. }
    apply match_all_from_none, exec_from_nil_none. exact Hrun.
  - destruct fuel as [|fuel]; [inversion Hfuel|].
    change (following_lines (l :: ls)) with (nl :: l ++ following_lines ls).
    pose proof (run_item_at_newline p l (following_lines ls)
                  (following_end ls) Hl) as Hnl.
    pose proof (run_item_line l (following_lines ls) (S p) [] Hl
                  (following_end ls)) as Hline.
    cbn [List.filter]. destruct (is_item l).
    + destruct Hline as [cap Hline]. rewrite Hline in Hnl.
      cbn [match_all_from]. rewrite (exec_from_here _ _ _ _ Hnl).
      cbn [m_text m_index m_after pos rest caps].
      replace (S p + length l - p) with (S (length l)) by lia.
      rewrite firstn_line. cbn [List.map]. f_equal.
      apply IH. cbn [length] in Hfuel. lia.
    + rewrite Hline in Hnl.
      rewrite (match_all_from_exec fuel p (S p + length l)
                 (nl :: l ++ following_lines ls) (following_lines ls)).
      * apply IH. cbn [length] in Hfuel. lia.
      * cbn [exec_from]. rewrite Hnl. apply exec_from_inside; [exact Hl|lia].
Qed.

(** The matches of the item pattern in a text are its item lines. *)
Lemma match_all_items (lines : list str) :
  Forall (fun l => no_newline l = true) lines ->
  match_all debugBulletRegex (join [nl] lines) = item_matches lines.
Proof.
  intros Hlines. destruct Hlines as [|l0 ls Hl0 Hls]; [reflexivity|].
  rewrite join_following. unfold match_all, item_matches.
  pose proof (following_length ls) as Hlen.
  pose proof (run_item_line l0 (following_lines ls) 0 [] Hl0
                (following_end ls)) as Hline.
  destruct (is_item l0) eqn:Hitem.
  - destruct Hline as [cap Hline].
    assert (Hrun :
      run debugBulletRegex (MState 0 (l0 ++ following_lines ls) []) Some
      = Some (MState (0 + length l0) (following_lines ls) [(1, cap)])).
    { rewrite debugBulletRegex_unfold, run_alt_seq.
      change (run Bol ?st ?k) with (if Nat.eqb (pos st) 0 then k st else None).
      cbn [pos Nat.eqb]. rewrite Hline. reflexivity. }
    cbn [match_all_from]. rewrite (exec_from_here _ _ _ _ Hrun).
    cbn [m_text m_index m_after pos rest caps].
    rewrite Nat.add_0_l, Nat.sub_0_r, take_app_length.
    destruct l0 as [|c l0]; [discriminate Hitem|].
    cbn [app]. f_equal. apply match_all_following; [exact Hls|].
    cbn [length]. rewrite length_app. unfold str, char in *. lia.
  - cbn [app]. destruct l0 as [|c l0].
    + cbn [app]. apply match_all_following; [exact Hls|].
      unfold str, char in *. lia.
    + cbn [no_newline forallb] in Hl0. apply andb_true_iff in Hl0.
      destruct Hl0 as [Hc Hl0].
      assert (Hrun :
        run debugBulletRegex
          (MState 0 ((c :: l0) ++ following_lines ls) []) Some = None).
      { rewrite debugBulletRegex_unfold, run_alt_seq.
        change (run Bol ?st ?k)
          with (if Nat.eqb (pos st) 0 then k st else None).
        cbn [pos Nat.eqb]. rewrite Hline.
        cbn [app]. unfold chr at 1.
        rewrite run_class_cons, (not_newline_sym c Hc). reflexivity. }
      rewrite (match_all_from_exec _ 0 (1 + length l0)
                 ((c :: l0) ++ following_lines ls) (following_lines ls)).
      * apply match_all_following; [exact Hls|].
        cbn [app length]. rewrite length_app. unfold str, char in *. lia.
      * cbn [app exec_from]. cbn [app] in Hrun. rewrite Hrun.
        apply exec_from_inside; [exact Hl0 | lia].
Qed.

(** *** What becomes of a match *)

Lemma debugBulletPrefixRegex_unfold :
  debugBulletPrefixRegex
  = Seq Bol (Seq (spaces true) (Seq bullet_mark (plus true (chr 32%N)))).
Proof. reflexivity. Qed.

(** The prefix pattern takes the marker of an item on the first line of
    the text, with the spaces around it. *)
Lemma remove_prefix_item (line text : str) :
  item_text line = Some text ->
  remove_match debugBulletPrefixRegex line = text.
Proof.
  unfold item_text. intros Hitem.
  assert (Hrun : exists e,
    run debugBulletPrefixRegex (MState 0 line []) Some = Some e
    /\ rest e = text).
  { rewrite debugBulletPrefixRegex_unfold.
    change (run (Seq Bol ?r) ?st ?k)
      with (if Nat.eqb (pos st) 0 then run r st k else None).
    cbn [pos Nat.eqb].
    change (run (Seq ?a (Seq ?b ?r)) ?s ?k)
      with (run (Seq a b) s (fun s' => run r s' k)).
    destruct (run_spaces_marker line [] 0 []
                (fun s' => run (plus true (chr 32%N)) s' Some) I)
      as (w & _ & Hsp).
    rewrite app_nil_r in Hsp. rewrite Hsp. clear Hsp.
    pose proof (run_marker (drop_while (char_eqb 32%N) line) [] (0 + length w)
                  [] (fun s' => run (plus true (chr 32%N)) s' Some) I) as Hm.
    destruct (after_marker (drop_while (char_eqb 32%N) line))
      as [[|b [|x u]]|]; try discriminate Hitem.
    destruct (char_eqb 32%N b) eqn:Hb; [|discriminate Hitem].
    assert (Htext : drop_while (char_eqb 32%N) (x :: u) = text)
      by congruence.
    clear Hitem.
    destruct Hm as (pre & _ & Hm). rewrite Hm. clear Hm.
    rewrite app_nil_r. unfold plus, chr.
    change (run (Seq ?a ?b0) ?s ?k) with (run a s (fun s' => run b0 s' k)).
    rewrite run_class_cons, Hb.
    destruct (span_drop (char_eqb 32%N) (x :: u)) as (w2 & Hs & Hw2 & Hstop).
    assert (Hstar : forall n,
      run (Star true (Cls (char_eqb 32%N))) (MState n (x :: u) []) Some
      = Some (MState (n + length w2) (drop_while (char_eqb 32%N) (x :: u)) [])).
    { intros n. rewrite Hs at 1. apply run_star_greedy_class;
        [exact Hstop | exact Hw2 | eexists; reflexivity]. }
    rewrite Hstar. eexists. split; [reflexivity | exact Htext]. }
  destruct Hrun as (e & Hrun & He).
  unfold remove_match, exec. rewrite (exec_from_here _ _ _ _ Hrun).
  cbn [m_index m_after firstn app]. exact He.
Qed.

(** It takes nothing from a match that starts with the newline. *)
Lemma remove_prefix_newline (line : str) :
  remove_match debugBulletPrefixRegex (nl :: line) = nl :: line.
Proof.
  assert (Hrun :
    run debugBulletPrefixRegex (MState 0 (nl :: line) []) Some = None).
  { rewrite debugBulletPrefixRegex_unfold.
    change (run (Seq Bol ?r) ?st ?k)
      with (if Nat.eqb (pos st) 0 then run r st k else None).
    cbn [pos Nat.eqb].
    change (run (Seq ?a (Seq ?b ?r)) ?s ?k)
      with (run (Seq a b) s (fun s' => run r s' k)).
    destruct (run_spaces_marker [] (nl :: line) 0 []
                (fun s' => run (plus true (chr 32%N)) s' Some) eq_refl)
      as (w & _ & Hsp).
    cbn [app drop_while] in Hsp. rewrite Hsp.
    exact (run_marker [] (nl :: line) (0 + length w) [] _ eq_refl). }
  unfold remove_match, exec. cbn [exec_from]. rewrite Hrun.
  rewrite debugBulletPrefixRegex_unfold.
  rewrite exec_from_anchored by lia. reflexivity.
Qed.

Lemma trim_newline (line : str) : trim (nl :: line) = trim line.
Proof. reflexivity. Qed.

Lemma entries_of_matches (lines : list str) :
  List.map (fun point => trim (remove_match debugBulletPrefixRegex point))
    (item_matches lines)
  = debug_items lines.
Proof.
  destruct lines as [|first others]; [reflexivity|].
  unfold item_matches, debug_items, is_item at 1.
  rewrite List.map_app, List.map_map. f_equal.
  - destruct (item_text first) as [text|] eqn:E; [|reflexivity].
    cbn [List.map]. rewrite (remove_prefix_item first text E). reflexivity.
  - apply List.map_ext. intros l.
    rewrite remove_prefix_newline. apply trim_newline.
Qed.

Lemma no_items_no_entries (lines : list str) :
  Forall (fun l => is_item l = false) lines -> debug_items lines = [].
Proof.
  intros H. destruct H as [|first others Hfirst Hothers]; [reflexivity|].
  unfold debug_items. unfold is_item in Hfirst.
  destruct (item_text first); [discriminate Hfirst|]. cbn [app].
  induction Hothers as [|l ls Hl _ IH]; [reflexivity|].
  cbn [List.filter]. rewrite Hl. exact IH.
Qed.

(** C10: the thoughts of a debug result are at most five, and they are
    made of the first five items of the response.  A line of the response
    is an item when, after spaces if any, it has a dash, a star, a bullet
    or a number with a dot, then a space and at least one more character;
    the item pattern matches these lines and nothing else.  The entry for
    an item on the first line of the response is its text, without the
    marker; the entry for an item on a later line is the line with its
    marker; each is trimmed.  When no line of the response is an item, and
    so whenever the response has no dash, star, bullet or dot at all, the
    thoughts are the one fallback sentence. *)
Theorem C10_debug_thoughts (content : str) :
  let t := thoughts_of (formatDebugResponse content) in
  let lines := lines_of content in
  join [nl] lines = content
  /\ Forall (fun l => no_newline l = true) lines
  /\ match_all debugBulletRegex content = item_matches lines
  /\ t = match debug_items lines with
         | [] => debugFallbackThoughts
         | found => firstn 5 found
         end
  /\ length t <= 5
  /\ (Forall (fun l => is_item l = false) lines -> t = debugFallbackThoughts)
  /\ (no_item_mark content = true -> t = debugFallbackThoughts).
Proof.
  cbn zeta.
  assert (Hm : match_all debugBulletRegex content
               = item_matches (lines_of content)).
  { rewrite <- (join_lines_of content) at 1.
    apply match_all_items, lines_of_no_newline. }
  assert (Ht : thoughts_of (formatDebugResponse content)
               = match debug_items (lines_of content) with
                 | [] => debugFallbackThoughts
                 | found => firstn 5 found
                 end).
  { unfold formatDebugResponse. cbn [thoughts_of thoughts].
    unfold debugThoughts, slice0. rewrite Hm.
    rewrite <- (entries_of_matches (lines_of content)).
    destruct (item_matches (lines_of content)); reflexivity. }
  split; [apply join_lines_of|]. split; [apply lines_of_no_newline|].
  split; [exact Hm|]. split; [exact Ht|]. split; [|split].
  - rewrite Ht. destruct (debug_items (lines_of content)); [cbn; lia|].
    rewrite length_take. lia.
  - intros H. rewrite Ht, (no_items_no_entries _ H). reflexivity.
  - intros H. unfold formatDebugResponse. cbn [thoughts_of thoughts].
    unfold debugThoughts. rewrite (debug_items_none content H). reflexivity.
Qed.

Lemma C10_debug_thoughts_witness :
  thoughts_of (formatDebugResponse debugReport)
  = [ lit "- the loop starts at 1"; lit "* the sum is never returned";
      lit "1. start at 0"; lit "2. return the sum"; lit "3. add a test" ]
  /\ thoughts_of (formatDebugResponse debugList)
     = [ lit "off by one"; lit "- missing return" ].
Proof.
  pose proof (proj1 (proj2 (proj2 (proj2 (C10_debug_thoughts debugReport)))))
    as Hreport.
  pose proof (proj1 (proj2 (proj2 (proj2 (C10_debug_thoughts debugList)))))
    as Hlist.
  cbv zeta in Hreport, Hlist. rewrite Hreport, Hlist.
  split; vm_compute; reflexivity.
Defined.

End DebugItemFacts.
